(** * A batch audio-transcription harness: model and verification

    Shallow embedding of the Python sources
      - [src/config/config_loader.py]           (module [Config])
      - [src/utils/file_handler.py]             (module [FileHandler])
      - [src/utils/exporter.py]                 (module [Exporter])
      - [src/pipeline/transcription_pipeline.py] (module [Pipeline])
      - [main.py], the overrides from the command line (module [Main])

    Conventions.
    - Python [str] is [string] (a byte string: the UTF-8 encoding of the
      text).  [lower] and [strip] act on the ASCII range only.
    - [pathlib] paths are the POSIX flavour of CPython 3.9 - 3.13, the
      interpreters the transcription library runs on: a path is the list
      of its parts.
    - Python [int] is [Z]; Python [float] is IEEE-754 binary64, carried by
      [spec_float] of the Standard Library with precision 53 and maximal
      exponent 1024.
    - Effects (file system, statistics, log, calls into the external
      models) are threaded through a state-and-exception monad [M]. *)

From stdpp Require Import gmap strings list pretty sorting.
From Stdlib Require Import ZArith Ascii String Floats.SpecFloat.

Local Open Scope string_scope.
Local Open Scope list_scope.
Local Open Scope Z_scope.
Set Warnings "-register-all".

(* ===================================================================== *)
(** * Python strings *)
(* ===================================================================== *)

Module PyStr.

(** [s.split(sep)] for a one-character separator: never the empty list. *)
Fixpoint split (sep : ascii) (s : string) : list string :=
  match s with
  | EmptyString => [EmptyString]
  | String c s' =>
      if Ascii.eqb c sep then EmptyString :: split sep s'
      else match split sep s' with
           | [] => [String c EmptyString]
           | w :: ws => String c w :: ws
           end
  end.

Definition lower_char (c : ascii) : ascii :=
  let n := N_of_ascii c in
  if ((65 <=? n) && (n <=? 90))%N then ascii_of_N (n + 32) else c.

(** [s.lower()] on the ASCII range. *)
Fixpoint lower (s : string) : string :=
  match s with
  | EmptyString => EmptyString
  | String c s' => String (lower_char c) (lower s')
  end.

(** The ASCII characters [str.isspace] accepts. *)
Definition is_space (c : ascii) : bool :=
  let n := N_of_ascii c in
  ((n =? 32) || ((9 <=? n) && (n <=? 13)) || ((28 <=? n) && (n <=? 31)))%N.

Fixpoint lstrip (s : string) : string :=
  match s with
  | EmptyString => EmptyString
  | String c s' => if is_space c then lstrip s' else s
  end.

Fixpoint rstrip (s : string) : string :=
  match s with
  | EmptyString => EmptyString
  | String c s' =>
      match rstrip s' with
      | EmptyString => if is_space c then EmptyString else String c EmptyString
      | r => String c r
      end
  end.

(** [s.strip()] *)
Definition strip (s : string) : string := rstrip (lstrip s).

Fixpoint rfind_from (c : ascii) (s : string) (i acc : Z) : Z :=
  match s with
  | EmptyString => acc
  | String d s' => rfind_from c s' (i + 1) (if Ascii.eqb d c then i else acc)
  end.

(** [s.rfind(c)]: the highest index of [c], or -1. *)
Definition rfind (c : ascii) (s : string) : Z := rfind_from c s 0 (-1).

Definition len (s : string) : Z := Z.of_nat (String.length s).

(** The line feed ['\n']. *)
Definition nl : string := String (ascii_of_nat 10) EmptyString.

(** [s[:i]] for [0 <= i]. *)
Definition prefix (i : Z) (s : string) : string := substring 0 (Z.to_nat i) s.

(** [sep.join(parts)] *)
Fixpoint join (sep : string) (parts : list string) : string :=
  match parts with
  | [] => EmptyString
  | [p] => p
  | p :: ps => p +:+ sep +:+ join sep ps
  end.

(** [c in s] for a character [c]. *)
Fixpoint contains (c : ascii) (s : string) : bool :=
  match s with
  | EmptyString => false
  | String d s' => Ascii.eqb d c || contains c s'
  end.

(** [f"{n:0{width}d}"]: sign-aware zero padding to a minimal width. *)
Definition zfill (width : nat) (digits : string) : string :=
  String.concat EmptyString (replicate (width - String.length digits) "0") +:+ digits.

Definition format_0d (width : nat) (n : Z) : string :=
  if n <? 0 then "-" +:+ zfill (width - 1) (pretty (Z.abs n))
  else zfill width (pretty n).

End PyStr.

(* ===================================================================== *)
(** * [pathlib.PurePosixPath] *)
(* ===================================================================== *)

Module Pathlib.

(** A path is the tuple [parts]; an absolute path starts with the part
    ["/"]. *)
Definition Path := list string.

Definition is_absolute_str (s : string) : bool :=
  match s with
  | String c _ => Ascii.eqb c "/"
  | EmptyString => false
  end.

Definition keep_part (p : string) : bool :=
  negb (String.eqb p EmptyString) && negb (String.eqb p ".").

(** A string that is one part of a path: no separator in it, not empty and
    not a single dot. *)
Definition is_part (s : string) : bool :=
  negb (PyStr.contains "/" s) && keep_part s.

(** Parsing of one path segment: split on the separator, drop empty
    parts and single dots. *)
Definition parse_parts (s : string) : Path :=
  (if is_absolute_str s then ["/"] else []) ++
  List.filter keep_part (PyStr.split "/" s).

(** [Path(s)] *)
Definition of_string (s : string) : Path := parse_parts s.

(** [p / s]: an absolute right operand replaces the left one. *)
Definition joinpath (p : Path) (s : string) : Path :=
  if is_absolute_str s then parse_parts s else p ++ parse_parts s.

(** [p.name]: the final part, empty for the root and the empty path. *)
Definition name (p : Path) : string :=
  let n := List.last p EmptyString in
  if String.eqb n "/" then EmptyString else n.

(** [p.parent] *)
Definition parent (p : Path) : Path :=
  if bool_decide (p = ["/"]) then p else removelast p.

(** [p.stem], CPython 3.9 - 3.13:
[[
    name = self.name
    i = name.rfind('.')
    if 0 < i < len(name) - 1: return name[:i]
    else:                     return name
]]
*)
Definition stem (p : Path) : string :=
  let name := name p in
  let i := PyStr.rfind "." name in
  if (0 <? i) && (i <? PyStr.len name - 1) then PyStr.prefix i name
  else name.

(** Order of [PurePosixPath] values: lexicographic on the parts, each
    part compared as a string. *)
Fixpoint compare (p q : Path) : comparison :=
  match p, q with
  | [], [] => Eq
  | [], _ :: _ => Lt
  | _ :: _, [] => Gt
  | a :: p', b :: q' =>
      match String.compare a b with
      | Eq => compare p' q'
      | c => c
      end
  end.

Definition leb (p q : Path) : bool :=
  match compare p q with Gt => false | _ => true end.

Definition le (p q : Path) : Prop := leb p q = true.

End Pathlib.

(* ===================================================================== *)
(** * [config_loader.py]: the settings tree and [Config.get] *)
(* ===================================================================== *)

Module Config.

(** What [yaml.safe_load] returns.  A mapping is keyed by strings: a key
    of another type never equals a component of a dotted key path, so
    [get] cannot see it. *)
Inductive yaml :=
| YNull
| YBool (b : bool)
| YInt (z : Z)
| YFloat (f : spec_float)
| YStr (s : string)
| YList (l : list yaml)
| YDict (d : gmap string yaml).

(** The loop of [Config.get]:
[[
    for key in keys:
        if isinstance(value, dict): value = value.get(key)
        else:                       return default
        if value is None:           return default
    return value
]]
*)
Fixpoint get_loop (keys : list string) (value default : yaml) : yaml :=
  match keys with
  | [] => value
  | key :: keys' =>
      match value with
      | YDict d =>
          match d !! key with
          | None | Some YNull => default
          | Some v => get_loop keys' v default
          end
      | _ => default
      end
  end.

(** [Config.get(key_path, default)] on the loaded tree [_config]. *)
Definition get (_config : yaml) (key_path : string) (default : yaml) : yaml :=
  get_loop (PyStr.split "." key_path) _config default.

(** The walk the specification describes: follow the keys through
    nested mappings; [None] when a key is missing or the value reached
    is not a mapping. *)
Fixpoint walk (keys : list string) (value : yaml) : option yaml :=
  match keys with
  | [] => Some value
  | key :: keys' =>
      match value with
      | YDict d => d !! key ≫= walk keys'
      | _ => None
      end
  end.

(** A key path is present in the tree when the walk reaches a value. *)
Definition present (_config : yaml) (key_path : string) : Prop :=
  is_Some (walk (PyStr.split "." key_path) _config).

(** Python truthiness of a loaded value, as [if config.get(...)] tests it. *)
Definition truthy (v : yaml) : bool :=
  match v with
  | YNull => false
  | YBool b => b
  | YInt z => negb (z =? 0)
  | YFloat f => match f with S754_zero _ => false | _ => true end
  | YStr s => negb (String.eqb s EmptyString)
  | YList l => match l with [] => false | _ => true end
  | YDict d => negb (bool_decide (d = ∅))
  end.

(** The properties of [Config], each a [get] with its default. *)
Definition device_type (c : yaml) : yaml := get c "device.type" (YStr "cuda").
Definition compute_type (c : yaml) : yaml := get c "device.compute_type" (YStr "float16").
Definition whisper_model (c : yaml) : yaml := get c "whisper.model_size" (YStr "large-v2").
Definition language (c : yaml) : yaml := get c "whisper.language" (YStr "pt").
Definition batch_size (c : yaml) : yaml := get c "whisper.batch_size" (YInt 16).
Definition input_path (c : yaml) : yaml := get c "paths.input" (YStr "data/input").
Definition output_path (c : yaml) : yaml := get c "paths.output" (YStr "data/output").
Definition logs_path (c : yaml) : yaml := get c "paths.logs" (YStr "logs").
Definition audio_extensions (c : yaml) : yaml :=
  get c "processing.audio_extensions" (YList [YStr ".mp3"; YStr ".wav"]).
Definition output_formats (c : yaml) : yaml :=
  get c "output.formats" (YList [YStr "json"; YStr "txt"; YStr "srt"]).

(** [d.get(key, default)] on a built-in mapping, where the default
    stands in for a missing key only; [None] when [d] is not a mapping. *)
Definition dict_get (d : yaml) (key : string) (dflt : yaml) : option yaml :=
  match d with
  | YDict m => Some (default dflt (m !! key))
  | _ => None
  end.

Definition as_str (v : yaml) : option string :=
  match v with YStr s => Some s | _ => None end.
Definition as_int (v : yaml) : option Z :=
  match v with YInt z => Some z | _ => None end.
Definition as_strs (v : yaml) : option (list string) :=
  match v with YList l => mapM as_str l | _ => None end.
Definition as_indent (v : yaml) : option (option Z) :=
  match v with YNull => Some None | YInt z => Some (Some z) | _ => None end.

End Config.

(* ===================================================================== *)
(** * Exceptions *)
(* ===================================================================== *)

(** Every exception of the model is a subclass of Python's [Exception]:
    [except Exception] catches all of them.  Asynchronous interrupts
    ([KeyboardInterrupt], handled in [main]) are outside the sequential
    model. *)
Inductive exn :=
| ValueError
| OverflowError
| KeyError (key : string)
| OSError
| ExternalError (what : string).

Inductive res (A : Type) :=
| Ok (a : A)
| Raise (e : exn).
Arguments Ok {A} a.
Arguments Raise {A} e.

Definition res_bind {A B} (r : res A) (k : A -> res B) : res B :=
  match r with
  | Ok a => k a
  | Raise e => Raise e
  end.

Definition is_ok {A} (r : res A) : bool :=
  match r with Ok _ => true | Raise _ => false end.

(* ===================================================================== *)
(** * Python numbers: [int] and binary64 [float] *)
(* ===================================================================== *)

Module PyFloat.

Definition prec : Z := 53.
Definition emax : Z := 1024.

Definition add : spec_float -> spec_float -> spec_float := SFadd prec emax.
Definition sub : spec_float -> spec_float -> spec_float := SFsub prec emax.
Definition mul : spec_float -> spec_float -> spec_float := SFmul prec emax.
Definition div : spec_float -> spec_float -> spec_float := SFdiv prec emax.

(** [float(n)] for an integer constant. *)
Definition of_int (n : Z) : spec_float := binary_normalize prec emax n 0 false.

(** C truthiness of a double: [x != 0.0] (true of a NaN). *)
Definition nonzero (x : spec_float) : bool :=
  match x with S754_zero _ => false | _ => true end.

(** [x < 0.0] *)
Definition negative (x : spec_float) : bool := SFltb x (S754_zero false).

Definition sign_bit (x : spec_float) : bool :=
  match x with
  | S754_zero s | S754_infinity s | S754_finite s _ _ => s
  | S754_nan => false
  end.

(** C [fmod]: the remainder of the truncated quotient, computed exactly;
    it carries the sign of [x]. *)
Definition fmod (x y : spec_float) : spec_float :=
  match x, y with
  | S754_nan, _ | _, S754_nan => S754_nan
  | S754_infinity _, _ => S754_nan
  | _, S754_zero _ => S754_nan
  | S754_zero _, _ => x
  | S754_finite _ _ _, S754_infinity _ => x
  | S754_finite sx mx ex, S754_finite _ my ey =>
      let e := Z.min ex ey in
      let X := Z.pos mx * 2 ^ (ex - e) in
      let Y := Z.pos my * 2 ^ (ey - e) in
      binary_normalize prec emax (cond_Zopp sx (X mod Y)) e sx
  end.

(** C [floor] *)
Definition floor (x : spec_float) : spec_float :=
  match x with
  | S754_finite s m e =>
      if 0 <=? e then x
      else
        let q := Z.pos m / 2 ^ (- e) in
        let r := Z.pos m mod 2 ^ (- e) in
        if s then binary_normalize prec emax (- (q + (if r =? 0 then 0 else 1))) 0 true
        else binary_normalize prec emax q 0 false
  | _ => x
  end.

(** [float.__mod__] ([float_rem] of CPython) for a divisor [wx] that is
    not zero, as every divisor of the exporter is:
[[
    mod = fmod(vx, wx);
    if (mod) { if ((wx < 0) != (mod < 0)) mod += wx; }
    else mod = copysign(0.0, wx);
]]
*)
Definition rem (vx wx : spec_float) : spec_float :=
  let md := fmod vx wx in
  if nonzero md then
    if xorb (negative wx) (negative md) then add md wx else md
  else S754_zero (sign_bit wx).

(** [float.__floordiv__] ([float_floor_div] of CPython), divisor not zero:
[[
    mod = fmod(vx, wx);
    div = (vx - mod) / wx;
    if (mod) { if ((wx < 0) != (mod < 0)) div -= 1.0; }
    if (div) { floordiv = floor(div);
               if (div - floordiv > 0.5) floordiv += 1.0; }
    else floordiv = copysign(0.0, vx / wx);
]]
*)
Definition floordiv (vx wx : spec_float) : spec_float :=
  let md := fmod vx wx in
  let div0 := div (sub vx md) wx in
  let div1 :=
    if nonzero md && xorb (negative wx) (negative md)
    then sub div0 (of_int 1) else div0 in
  if nonzero div1 then
    let fl := floor div1 in
    if SFltb (div (of_int 1) (of_int 2)) (sub div1 fl) then add fl (of_int 1) else fl
  else S754_zero (sign_bit (div vx wx)).

(** [int(x)]: truncation towards zero; an infinity raises
    [OverflowError], a NaN [ValueError]. *)
Definition to_int (x : spec_float) : res Z :=
  match x with
  | S754_zero _ => Ok 0
  | S754_finite s m e =>
      Ok (cond_Zopp s (if 0 <=? e then Z.pos m * 2 ^ e else Z.pos m / 2 ^ (- e)))
  | S754_infinity _ => Raise OverflowError
  | S754_nan => Raise ValueError
  end.

End PyFloat.

Module PyNum.

(** A timestamp as the transcription library or a JSON default yields it. *)
Inductive num :=
| Int (n : Z)
| Float (f : spec_float).

(** [x // c] for an integer constant [c] other than zero. *)
Definition floordiv (x : num) (c : Z) : num :=
  match x with
  | Int n => Int (n / c)
  | Float f => Float (PyFloat.floordiv f (PyFloat.of_int c))
  end.

(** [x % c] for an integer constant [c] other than zero. *)
Definition rem (x : num) (c : Z) : num :=
  match x with
  | Int n => Int (n mod c)
  | Float f => Float (PyFloat.rem f (PyFloat.of_int c))
  end.

(** [x * c] for an integer constant [c]. *)
Definition mul (x : num) (c : Z) : num :=
  match x with
  | Int n => Int (n * c)
  | Float f => Float (PyFloat.mul f (PyFloat.of_int c))
  end.

(** [int(x)] *)
Definition to_int (x : num) : res Z :=
  match x with
  | Int n => Ok n
  | Float f => PyFloat.to_int f
  end.

End PyNum.

Declare Scope res_scope.
Delimit Scope res_scope with res.
Notation "x <- r ;; k" := (res_bind r (fun x => k))
  (at level 100, r at next level, right associativity) : res_scope.

(* ===================================================================== *)
(** * [exporter.py]: time formatting *)
(* ===================================================================== *)

Module TimeFormat.
Import PyNum.
Local Open Scope res_scope.

(** [Exporter._format_timestamp]
[[
    mins = int(seconds // 60)
    secs = int(seconds % 60)
    return f"{mins:02d}:{secs:02d}"
]]
*)
Definition _format_timestamp (seconds : num) : res string :=
  mins <- to_int (floordiv seconds 60) ;;
  secs <- to_int (rem seconds 60) ;;
  Ok (PyStr.format_0d 2 mins +:+ ":" +:+ PyStr.format_0d 2 secs).

(** [Exporter._to_srt_time]
[[
    hours = int(seconds // 3600)
    minutes = int((seconds % 3600) // 60)
    secs = int(seconds % 60)
    millis = int((seconds % 1) * 1000)
    return f"{hours:02d}:{minutes:02d}:{secs:02d},{millis:03d}"
]]
*)
Definition _to_srt_time (seconds : num) : res string :=
  hours <- to_int (floordiv seconds 3600) ;;
  minutes <- to_int (floordiv (rem seconds 3600) 60) ;;
  secs <- to_int (rem seconds 60) ;;
  millis <- to_int (mul (rem seconds 1) 1000) ;;
  Ok (PyStr.format_0d 2 hours +:+ ":" +:+ PyStr.format_0d 2 minutes +:+ ":" +:+
      PyStr.format_0d 2 secs +:+ "," +:+ PyStr.format_0d 3 millis).

End TimeFormat.

(** ** The subtitle time as the specification gives it

    The specification states the four fields of a subtitle time by
    formulas on the number of seconds [s]:
    [hours = floor(s / 3600)], [minutes = floor((s % 3600) / 60)],
    [seconds = floor(s % 60)], [milliseconds = floor((s % 1) * 1000)].
    They are evaluated here as they are written, on the exact value
    of [s], a fraction [n / d] with [d] positive. *)

Module SrtSpec.



(** The fields padded with zeros to two digits, three for the
    milliseconds. *)
Definition render (f : Z * Z * Z * Z) : string :=
  let '(hours, minutes, secs, millis) := f in
  PyStr.format_0d 2 hours +:+ ":" +:+ PyStr.format_0d 2 minutes +:+ ":" +:+
  PyStr.format_0d 2 secs +:+ "," +:+ PyStr.format_0d 3 millis.


End SrtSpec.

(* ===================================================================== *)
(** * Data model *)
(* ===================================================================== *)

(** A segment of a transcription result: a mapping in which each of the
    four keys the exporters read may be absent. *)
Record Segment := mkSegment {
  seg_start : option PyNum.num;
  seg_end : option PyNum.num;
  seg_text : option string;
  seg_speaker : option string
}.

(** A transcription result: a mapping with the keys ["language"] and
    ["segments"], each of which may be absent. *)
Record Result := mkResult {
  res_language : option string;
  res_segments : option (list Segment)
}.

(** [RunStatistics]: the dictionary [self.stats]. *)
Record Stats := mkStats {
  total : nat;
  success : nat;
  failed : nat;
  skipped : nat
}.

(** The typed view of the settings tree that the pipeline and its
    components read, each field with the accessor it comes from. *)
Record Settings := mkSettings {
  whisper_model : string;          (* whisper.model_size, 'large-v2' *)
  language : string;               (* whisper.language, 'pt' *)
  batch_size : Z;                  (* whisper.batch_size, 16 *)
  input_path : string;             (* paths.input, 'data/input' *)
  output_path : string;            (* paths.output, 'data/output' *)
  audio_extensions : list string;  (* processing.audio_extensions *)
  output_formats : list string;    (* output.formats, [json, txt, srt] *)
  skip_existing : bool;            (* processing.skip_existing, False *)
  alignment_enabled : bool;        (* alignment.enabled, True *)
  return_char_alignments : bool;   (* alignment.return_char_alignments, False *)
  diarization_enabled : bool;      (* diarization.enabled, False *)
  hf_token : option string;        (* environment HF_TOKEN *)
  txt_include_speakers : bool;     (* output.txt.include_speakers, True *)
  txt_include_timestamps : bool;   (* output.txt.include_timestamps, False *)
  json_ensure_ascii : bool;        (* output.json.ensure_ascii, False *)
  json_indent : option Z           (* output.json.indent, 2; null is None *)
}.

(** The settings a schema-conformant tree yields: strings where the code
    expects strings, sequences of strings for the extensions and the
    formats, mappings for the export options.  Flags are read for their
    truth value. *)
Definition settings_of (c : Config.yaml) (HF_TOKEN : option string) : option Settings :=
  model ← Config.as_str (Config.whisper_model c);
  lang ← Config.as_str (Config.language c);
  batch ← Config.as_int (Config.batch_size c);
  input ← Config.as_str (Config.input_path c);
  output ← Config.as_str (Config.output_path c);
  extensions ← Config.as_strs (Config.audio_extensions c);
  formats ← Config.as_strs (Config.output_formats c);
  let exporter_config := Config.get c "output" (Config.YDict ∅) in
  txt_config ← Config.dict_get exporter_config "txt" (Config.YDict ∅);
  include_speakers ← Config.dict_get txt_config "include_speakers" (Config.YBool true);
  include_timestamps ← Config.dict_get txt_config "include_timestamps" (Config.YBool false);
  json_config ← Config.dict_get exporter_config "json" (Config.YDict ∅);
  ensure_ascii ← Config.dict_get json_config "ensure_ascii" (Config.YBool false);
  indent ← Config.dict_get json_config "indent" (Config.YInt 2) ≫= Config.as_indent;
  Some {| whisper_model := model;
          language := lang;
          batch_size := batch;
          input_path := input;
          output_path := output;
          audio_extensions := extensions;
          output_formats := formats;
          skip_existing :=
            Config.truthy (Config.get c "processing.skip_existing" (Config.YBool false));
          alignment_enabled :=
            Config.truthy (Config.get c "alignment.enabled" (Config.YBool true));
          return_char_alignments :=
            Config.truthy (Config.get c "alignment.return_char_alignments" (Config.YBool false));
          diarization_enabled :=
            Config.truthy (Config.get c "diarization.enabled" (Config.YBool false));
          hf_token := HF_TOKEN;
          txt_include_speakers := Config.truthy include_speakers;
          txt_include_timestamps := Config.truthy include_timestamps;
          json_ensure_ascii := Config.truthy ensure_ascii;
          json_indent := indent |}.

(** ** The external collaborators

    The transcription library ([whisperx]), the JSON serialiser and the
    operating system's [open] and [stat] are outside the repository; the model
    loader of the repository ([ModelLoader], imported from [..models]) is
    not among the sources at hand.  Their operations are parameters of
    the model: each is a function of its arguments and of the state of
    the outside world, and either returns or raises. *)
Record External := mkExternal {
  World : Type;
  Audio : Type;
  AlignModel : Type;
  DiarSegments : Type;
  (* ModelLoader.load_whisper_model(model_size, language) *)
  ext_load_whisper_model : string -> string -> World -> res unit * World;
  (* f.stat().st_size, for a discovered file f *)
  ext_stat : Pathlib.Path -> World -> res Z * World;
  (* whisperx.load_audio(str(audio_path)) *)
  ext_load_audio : Pathlib.Path -> World -> res Audio * World;
  (* ModelLoader.get_whisper_model().transcribe(audio, batch_size) *)
  ext_transcribe : Audio -> Z -> World -> res Result * World;
  (* ModelLoader.load_alignment_model(language_code) *)
  ext_load_alignment_model : string -> World -> res AlignModel * World;
  (* whisperx.align(segments, model, metadata, audio, device, return_char_alignments) *)
  ext_align : list Segment -> AlignModel -> Audio -> bool -> World -> res Result * World;
  (* ModelLoader.load_diarization_model(hf_token); diarize_model(str(audio_path)) *)
  ext_load_diarization_model : option string -> World -> res unit * World;
  ext_diarize : Pathlib.Path -> World -> res DiarSegments * World;
  (* whisperx.assign_word_speakers(diarize_segments, result) *)
  ext_assign_word_speakers : DiarSegments -> Result -> World -> res Result * World;
  (* ModelLoader.cleanup() *)
  ext_cleanup : World -> res unit * World;
  (* open(path, 'w', encoding='utf-8') *)
  ext_open_w : Pathlib.Path -> World -> res unit * World;
  (* json.dump(result, f, ensure_ascii, indent): the text written *)
  ext_json_dump : Result -> bool -> option Z -> World -> res string * World
}.

(** ** Observable events: calls into the collaborators and log records *)

Inductive Call :=
| CLoadWhisperModel (model_size lang : string)
| CStat (p : Pathlib.Path)
| CLoadAudio (p : Pathlib.Path)
| CTranscribe
| CLoadAlignmentModel (lang : string)
| CAlign
| CLoadDiarizationModel
| CDiarize (p : Pathlib.Path)
| CAssignWordSpeakers
| CCleanup
| COpen (p : Pathlib.Path)
| CJsonDump.

Inductive Level := INFO | WARNING | ERROR.

(** The log records, by content.  The decorative rules of ["="] are
    left out. *)
Inductive Msg :=
| MStart                                   (* "Iniciando Pipeline de Transcrição" *)
| MFound (n : nat)                         (* "Encontrados {n} arquivo(s) de áudio" *)
| MFileSize (name : string) (st_size : Z)  (* "  - {name} ({st_size / 1024 / 1024:.2f} MB)" *)
| MNoAudioFound                            (* "Nenhum arquivo de áudio encontrado em ..." *)
| MNothingToProcess                        (* "Nenhum arquivo para processar" *)
| MProcessing (name : string)              (* "Processando: {name}" *)
| MSkipping (name : string)                (* "Saída já existe, pulando: {name}" *)
| MLoadingAudio (name : string)            (* "Carregando áudio: {name}" *)
| MTranscribing                            (* "Transcrevendo áudio..." *)
| MTranscribed (num_segments : nat)        (* "Transcrição concluída: {n} segmentos" *)
| MAligning                                (* "Alinhando transcrição..." *)
| MAligned                                 (* "Alinhamento concluído" *)
| MDiarizing                               (* "Realizando diarização..." *)
| MDiarized                                (* "Diarização concluída" *)
| MDiarizationError (e : exn)              (* "Erro na diarização: {e}" *)
| MContinuing                              (* "Continuando sem identificação de speakers..." *)
| MUnknownFormat (fmt : string)            (* "Formato desconhecido: {fmt}" *)
| MExported (name : string)                (* "Exportado: {name}" *)
| MExportError (fmt : string) (e : exn)    (* "Erro ao exportar {fmt}: {e}" *)
| MDone (name : string)                    (* "Transcrição concluída: {name}" *)
| MFileError (name : string) (e : exn)     (* "Erro ao processar {name}: {e}" *)
| MStats (s : Stats).                      (* "Estatísticas Finais" and the four counts *)

Inductive Event :=
| EvCall (c : Call)
| EvLog (l : Level) (m : Msg).

(** ** The state and the monad *)

Section Monad.
Context {E : External}.

Record State := mkState {
  world : World E;
  fs : gmap (list string) string;   (* the entries of the file system *)
  stats : Stats;
  trace : list Event
}.

Definition M (A : Type) : Type := State -> res A * State.

Definition ret {A} (a : A) : M A := fun st => (Ok a, st).

Definition bind {A B} (m : M A) (k : A -> M B) : M B :=
  fun st =>
    match m st with
    | (Ok a, st') => k a st'
    | (Raise e, st') => (Raise e, st')
    end.

Definition raise {A} (e : exn) : M A := fun st => (Raise e, st).

(** [try: m  except Exception as e: h e] *)
Definition try_except {A} (m : M A) (h : exn -> M A) : M A :=
  fun st =>
    match m st with
    | (Ok a, st') => (Ok a, st')
    | (Raise e, st') => h e st'
    end.

Definition lift {A} (r : res A) : M A := fun st => (r, st).

Definition emit (ev : Event) : M unit :=
  fun st => (Ok tt, mkState (world st) (fs st) (stats st) (trace st ++ [ev])).

Definition logger (l : Level) (m : Msg) : M unit := emit (EvLog l m).

(** A call into a collaborator: recorded, then performed. *)
Definition call {A} (c : Call) (f : World E -> res A * World E) : M A :=
  fun st =>
    let '(r, w) := f (world st) in
    (r, mkState w (fs st) (stats st) (trace st ++ [EvCall c])).

Definition get_fs : M (gmap (list string) string) := fun st => (Ok (fs st), st).

Definition set_fs (f : gmap (list string) string -> gmap (list string) string) : M unit :=
  fun st => (Ok tt, mkState (world st) (f (fs st)) (stats st) (trace st)).

Definition set_stats (f : Stats -> Stats) : M unit :=
  fun st => (Ok tt, mkState (world st) (fs st) (f (stats st)) (trace st)).

Definition get_stats : M Stats := fun st => (Ok (stats st), st).

(** [for x in l: body x] *)
Fixpoint for_each {A} (l : list A) (body : A -> M unit) : M unit :=
  match l with
  | [] => ret tt
  | x :: l' => bind (body x) (fun _ => for_each l' body)
  end.

End Monad.

Arguments State : clear implicits.
Arguments M : clear implicits.

Declare Scope py_scope.
Delimit Scope py_scope with py.
Notation "x <- m ;; k" := (bind m (fun x => k))
  (at level 100, m at next level, right associativity) : py_scope.
Notation "m ;; k" := (bind m (fun _ => k))
  (at level 100, right associativity) : py_scope.

(* ===================================================================== *)
(** * [file_handler.py] *)
(* ===================================================================== *)

Module FileHandler.
Import Pathlib.
Local Open Scope py_scope.

Record t := mk {
  input_dir : Path;
  output_dir : Path;
  audio_extensions : list string
}.

(** [FileHandler.__init__]: the extensions are lower-cased once, here.
    The two [mkdir(parents=True, exist_ok=True)] calls are not modelled:
    no claim reads the directories themselves. *)
Definition __init__ (input_dir output_dir : string)
    (audio_extensions : list string) : t :=
  {| input_dir := of_string input_dir;
     output_dir := of_string output_dir;
     audio_extensions := List.map PyStr.lower audio_extensions |}.

(** Shell-style matching of one path component, as the POSIX flavour of
    [Path.glob] does it: case-sensitive, [*] for any run of characters,
    [?] for one character.  (Character classes are not part of the
    model; the configured extensions are plain suffixes.) *)
Fixpoint fnmatch (pat : string) : string -> bool :=
  match pat with
  | EmptyString => fun n => match n with EmptyString => true | _ => false end
  | String c pat' =>
      if Ascii.eqb c "*" then
        fix star (n : string) : bool :=
          fnmatch pat' n ||
          match n with
          | EmptyString => false
          | String _ n' => star n'
          end
      else if Ascii.eqb c "?" then
        fun n => match n with String _ n' => fnmatch pat' n' | _ => false end
      else
        fun n => match n with
                 | String d n' => Ascii.eqb c d && fnmatch pat' n'
                 | _ => false
                 end
  end.

(** A pattern without wildcard. *)
Definition plain (pat : string) : bool :=
  negb (PyStr.contains "*" pat) && negb (PyStr.contains "?" pat).

(** The name of [p] as an entry of the directory [dir], if it is one. *)
Definition child_name (dir p : Path) : option string :=
  match reverse p with
  | n :: rd => if decide (reverse rd = dir) then Some n else None
  | [] => None
  end.

(** The entries of a directory, in the order the system lists them. *)
Definition scandir (files : gmap (list string) string) (dir : Path) : list string :=
  omap (child_name dir) (map_to_list files).*1.

(** [dir.glob(pattern)] for a one-component pattern. *)
Definition glob (files : gmap (list string) string) (dir : Path)
    (pattern : string) : list Path :=
  List.map (fun n => dir ++ [n]) (List.filter (fnmatch pattern) (scandir files dir)).

#[global] Instance le_dec (p q : Path) : Decision (Pathlib.le p q) :=
  decide (Pathlib.leb p q = true).

(** [list.sort()] on paths. *)
Definition sort (l : list Path) : list Path := merge_sort Pathlib.le l.

(** The list [find_audio_files] builds and sorts:
[[
    for ext in self.audio_extensions:
        audio_files.extend(self.input_dir.glob(f"*{ext}"))
    audio_files.sort()
]]
*)
Definition audio_files_in (self : t) (files : gmap (list string) string) : list Path :=
  sort (flat_map (fun ext => glob files (input_dir self) ("*" +:+ ext))
                 (audio_extensions self)).

Section WithExternal.
Context {E : External}.

(** [FileHandler.find_audio_files]; after the sort:
[[
    if audio_files:
        logger.info(f"Encontrados {len(audio_files)} arquivo(s) de áudio")
        for f in audio_files:
            size_mb = f.stat().st_size / 1024 / 1024
            logger.info(f"  - {f.name} ({size_mb:.2f} MB)")
    else:
        logger.warning(f"Nenhum arquivo de áudio encontrado em {self.input_dir}")
    return audio_files
]]
    [f.stat()] raises when the system cannot reach the file behind the
    entry, as for a symbolic link that leads nowhere. *)
Definition find_audio_files (self : t) : M E (list Path) :=
  files <- get_fs ;;
  let audio_files := audio_files_in self files in
  match audio_files with
  | _ :: _ =>
      logger INFO (MFound (List.length audio_files)) ;;
      for_each audio_files (fun f =>
        st_size <- call (CStat f) (ext_stat E f) ;;
        logger INFO (MFileSize (name f) st_size))
  | [] => logger WARNING MNoAudioFound
  end ;;
  ret audio_files.

(** [FileHandler.load_audio] *)
Definition load_audio (self : t) (audio_path : Path) : M E (Audio E) :=
  logger INFO (MLoadingAudio (name audio_path)) ;;
  call (CLoadAudio audio_path) (ext_load_audio E audio_path).
End WithExternal.

(** [FileHandler.get_output_path] *)
Definition get_output_path (self : t) (audio_path : Path) (extension : string) : Path :=
  let base_name := stem audio_path in
  joinpath (output_dir self) (base_name +:+ "_transcricao." +:+ extension).

(** [path.exists()] *)
Definition exists_ (files : gmap (list string) string) (p : Path) : bool :=
  bool_decide (is_Some (files !! p)).

(** [FileHandler.output_exists]: [all(... for fmt in formats)] *)
Definition output_exists (self : t) (files : gmap (list string) string)
    (audio_path : Path) (formats : list string) : bool :=
  forallb (fun fmt => exists_ files (get_output_path self audio_path fmt)) formats.

End FileHandler.

(* ===================================================================== *)
(** * [exporter.py] *)
(* ===================================================================== *)

Module Exporter.
Import Pathlib TimeFormat.
Local Open Scope py_scope.

(** [result.get("segments", [])] *)
Definition segments_of (result : Result) : list Segment :=
  default [] (res_segments result).

(** One line of the plain-text export:
[[
    line_parts = []
    if include_speakers and 'speaker' in segment:
        line_parts.append(f"[{segment['speaker']}]")
    if include_timestamps:
        start = self._format_timestamp(segment.get('start', 0))
        end = self._format_timestamp(segment.get('end', 0))
        line_parts.append(f"[{start} -> {end}]")
    line_parts.append(segment.get('text', '').strip())
    ' '.join(line_parts) + '\n'
]]
*)
Definition txt_line (cfg : Settings) (segment : Segment) : res string :=
  let speaker_part :=
    match seg_speaker segment with
    | Some sp => if txt_include_speakers cfg then ["[" +:+ sp +:+ "]"] else []
    | None => []
    end in
  (timestamp_part <-
     (if txt_include_timestamps cfg then
        start <- _format_timestamp (default (PyNum.Int 0) (seg_start segment)) ;;
        end_ <- _format_timestamp (default (PyNum.Int 0) (seg_end segment)) ;;
        Ok ["[" +:+ start +:+ " -> " +:+ end_ +:+ "]"]
      else Ok []) ;;
   let text := PyStr.strip (default EmptyString (seg_text segment)) in
   Ok (PyStr.join " " (speaker_part ++ timestamp_part ++ [text]) +:+ PyStr.nl))%res.

(** One cue of the subtitle export, numbered [i]:
[[
    start = segment.get('start', 0)
    end = segment.get('end', 0)
    text = segment.get('text', '').strip()
    start_time = self._to_srt_time(start)
    end_time = self._to_srt_time(end)
    f"{i}\n" f"{start_time} --> {end_time}\n" f"{text}\n\n"
]]
*)
Definition srt_cue (i : nat) (segment : Segment) : res string :=
  (let start := default (PyNum.Int 0) (seg_start segment) in
   let end_ := default (PyNum.Int 0) (seg_end segment) in
   let text := PyStr.strip (default EmptyString (seg_text segment)) in
   start_time <- _to_srt_time start ;;
   end_time <- _to_srt_time end_ ;;
   Ok (pretty i +:+ PyStr.nl +:+
       start_time +:+ " --> " +:+ end_time +:+ PyStr.nl +:+
       text +:+ PyStr.nl +:+ PyStr.nl))%res.

Section WithExternal.
Context {E : External}.

(** [open(path, 'w')]: the system may refuse; otherwise the file
    exists and is empty. *)
Definition open_w (path : Path) : M E unit :=
  call (COpen path) (ext_open_w E path) ;;
  set_fs (fun files => <[path := EmptyString]> files).

(** [f.write(text)] on the file opened at [path]. *)
Definition write (path : Path) (text : string) : M E unit :=
  set_fs (fun files => <[path := default EmptyString (files !! path) +:+ text]> files).

(** [Exporter.export_json]; the text is written in one piece, once
    the serialiser has produced it. *)
Definition export_json (cfg : Settings) (result : Result) (base_path : Path)
    : M E Path :=
  let json_path := joinpath (parent base_path) (stem base_path +:+ ".json") in
  open_w json_path ;;
  text <- call CJsonDump
            (ext_json_dump E result (json_ensure_ascii cfg) (json_indent cfg)) ;;
  write json_path text ;;
  ret json_path.

(** [Exporter.export_txt] *)
Definition export_txt (cfg : Settings) (result : Result) (base_path : Path)
    : M E Path :=
  let txt_path := joinpath (parent base_path) (stem base_path +:+ ".txt") in
  open_w txt_path ;;
  for_each (segments_of result) (fun segment =>
    line <- lift (txt_line cfg segment) ;;
    write txt_path line) ;;
  ret txt_path.

(** [Exporter.export_srt]: [enumerate(..., 1)] numbers the cues. *)
Definition export_srt (cfg : Settings) (result : Result) (base_path : Path)
    : M E Path :=
  let srt_path := joinpath (parent base_path) (stem base_path +:+ ".srt") in
  open_w srt_path ;;
  for_each (imap (fun i segment => (S i, segment)) (segments_of result))
    (fun '(i, segment) =>
       cue <- lift (srt_cue i segment) ;;
       write srt_path cue) ;;
  ret srt_path.

(** The dispatch on the format name in [Exporter.export]. *)
Definition exporter_for (fmt : string)
    : option (Settings -> Result -> Path -> M E Path) :=
  if String.eqb fmt "json" then Some export_json
  else if String.eqb fmt "txt" then Some export_txt
  else if String.eqb fmt "srt" then Some export_srt
  else None.

(** The body of the loop of [Exporter.export], for one format and the
    list [exported_files] so far. *)
Definition export_one (cfg : Settings) (result : Result) (output_path : Path)
    (fmt : string) (exported_files : list Path) : M E (list Path) :=
  try_except
    (match exporter_for fmt with
     | Some export_fmt =>
         path <- export_fmt cfg result output_path ;;
         logger INFO (MExported (name path)) ;;
         ret (exported_files ++ [path])
     | None =>
         logger WARNING (MUnknownFormat fmt) ;;
         ret exported_files
     end)
    (fun e =>
       logger ERROR (MExportError fmt e) ;;
       ret exported_files).

Fixpoint export_loop (cfg : Settings) (result : Result) (output_path : Path)
    (formats : list string) (exported_files : list Path) : M E (list Path) :=
  match formats with
  | [] => ret exported_files
  | fmt :: formats' =>
      exported_files' <- export_one cfg result output_path fmt exported_files ;;
      export_loop cfg result output_path formats' exported_files'
  end.

(** [Exporter.export] *)
Definition export (cfg : Settings) (result : Result) (output_path : Path)
    (formats : list string) : M E (list Path) :=
  export_loop cfg result output_path formats [].

End WithExternal.

End Exporter.

(* ===================================================================== *)
(** * [transcription_pipeline.py] *)
(* ===================================================================== *)

Module Pipeline.
Import Pathlib.
Local Open Scope py_scope.

(** [TranscriptionPipeline]: the configuration and the components built
    from it.  The exporter reads its options from the configuration. *)
Record t := mk {
  config : Settings;
  file_handler : FileHandler.t
}.

(** [TranscriptionPipeline.__init__] *)
Definition __init__ (config : Settings) : t :=
  {| config := config;
     file_handler :=
       FileHandler.__init__ (input_path config) (output_path config)
         (audio_extensions config) |}.

(** The statistics [__init__] creates. *)
Definition fresh_stats : Stats := mkStats 0 0 0 0.

Definition set_total (n : nat) (s : Stats) : Stats :=
  mkStats n (success s) (failed s) (skipped s).
Definition incr_success (s : Stats) : Stats :=
  mkStats (total s) (S (success s)) (failed s) (skipped s).
Definition incr_failed (s : Stats) : Stats :=
  mkStats (total s) (success s) (S (failed s)) (skipped s).
Definition incr_skipped (s : Stats) : Stats :=
  mkStats (total s) (success s) (failed s) (S (skipped s)).

Section WithExternal.
Context {E : External}.

(** The state in which a pipeline object starts: fresh statistics,
    nothing observed yet. *)
Definition initial (w : World E) (files : gmap (list string) string) : State E :=
  mkState w files fresh_stats [].

(** [TranscriptionPipeline._transcribe] *)
Definition _transcribe (self : t) (audio : Audio E) : M E Result :=
  logger INFO MTranscribing ;;
  result <- call CTranscribe (ext_transcribe E audio (batch_size (config self))) ;;
  let num_segments := List.length (default [] (res_segments result)) in
  logger INFO (MTranscribed num_segments) ;;
  ret result.

(** [TranscriptionPipeline._align]; [result["segments"]] raises
    [KeyError] when the key is absent. *)
Definition _align (self : t) (audio : Audio E) (result : Result) : M E Result :=
  logger INFO MAligning ;;
  let language_code := default (language (config self)) (res_language result) in
  align_model <- call (CLoadAlignmentModel language_code)
                   (ext_load_alignment_model E language_code) ;;
  segments <- match res_segments result with
              | Some segments => ret segments
              | None => raise (KeyError "segments")
              end ;;
  result' <- call CAlign
               (ext_align E segments align_model audio
                  (return_char_alignments (config self))) ;;
  logger INFO MAligned ;;
  ret result'.

(** [TranscriptionPipeline._diarize]: any exception is logged and the
    result comes back as it was. *)
Definition _diarize (self : t) (audio_path : Path) (result : Result) : M E Result :=
  try_except
    (logger INFO MDiarizing ;;
     call CLoadDiarizationModel
       (ext_load_diarization_model E (hf_token (config self))) ;;
     diarize_segments <- call (CDiarize audio_path) (ext_diarize E audio_path) ;;
     result' <- call CAssignWordSpeakers
                  (ext_assign_word_speakers E diarize_segments result) ;;
     logger INFO MDiarized ;;
     ret result')
    (fun e =>
       logger WARNING (MDiarizationError e) ;;
       logger INFO MContinuing ;;
       ret result).

(** The steps of [_process_file] after the skip test: load, transcribe,
    align, diarize, export. *)
Definition _process_steps (self : t) (audio_path : Path) : M E unit :=
  audio <- FileHandler.load_audio (file_handler self) audio_path ;;
  result <- _transcribe self audio ;;
  result <- (if alignment_enabled (config self)
             then _align self audio result else ret result) ;;
  result <- (if diarization_enabled (config self)
             then _diarize self audio_path result else ret result) ;;
  let output_base := FileHandler.get_output_path (file_handler self) audio_path EmptyString in
  Exporter.export (config self) result output_base (output_formats (config self)) ;;
  logger INFO (MDone (name audio_path)).

(** [TranscriptionPipeline._process_file] *)
Definition _process_file (self : t) (audio_path : Path) : M E unit :=
  logger INFO (MProcessing (name audio_path)) ;;
  files <- get_fs ;;
  if skip_existing (config self) &&
     FileHandler.output_exists (file_handler self) files audio_path
       (output_formats (config self))
  then
    logger INFO (MSkipping (name audio_path)) ;;
    set_stats incr_skipped
  else
    _process_steps self audio_path.

(** The body of the loop of [run]:
[[
  try:
      self._process_file(audio_file)
      self.stats['success'] += 1
  except Exception as e:
      logger.error(...)
      self.stats['failed'] += 1
]]
*)
Definition run_file (self : t) (audio_file : Path) : M E unit :=
  try_except
    (_process_file self audio_file ;;
     set_stats incr_success)
    (fun e =>
       logger ERROR (MFileError (name audio_file) e) ;;
       set_stats incr_failed).

(** [TranscriptionPipeline._print_stats] *)
Definition _print_stats (self : t) : M E unit :=
  s <- get_stats ;;
  logger INFO (MStats s).

(** [TranscriptionPipeline.run] *)
Definition run (self : t) : M E unit :=
  logger INFO MStart ;;
  call (CLoadWhisperModel (whisper_model (config self)) (language (config self)))
    (ext_load_whisper_model E (whisper_model (config self)) (language (config self))) ;;
  audio_files <- FileHandler.find_audio_files (file_handler self) ;;
  match audio_files with
  | [] => logger WARNING MNothingToProcess
  | _ :: _ =>
      set_stats (set_total (List.length audio_files)) ;;
      for_each audio_files (run_file self) ;;
      call CCleanup (ext_cleanup E) ;;
      _print_stats self
  end.

End WithExternal.

End Pipeline.

(* ===================================================================== *)
(** * Test doubles for the collaborators *)
(* ===================================================================== *)

Module Fake.

Definition never (_ : Pathlib.Path) : bool := false.

(** Collaborators without a state of their own: the audio of a file is
    its path, transcription raises on the files [transcribe_fails]
    selects and returns [result] on the others, alignment and speaker
    assignment return their input, the system refuses to open the
    paths [open_fails] selects, and it cannot reach the files
    [stat_fails] selects. *)
Definition collaborators_with (transcribe_fails open_fails stat_fails : Pathlib.Path -> bool)
    (result : Result) : External :=
  {| World := unit;
     Audio := Pathlib.Path;
     AlignModel := unit;
     DiarSegments := unit;
     ext_load_whisper_model := fun _ _ w => (Ok tt, w);
     ext_stat := fun p w =>
       if stat_fails p then (Raise OSError, w) else (Ok 1048576, w);
     ext_load_audio := fun p w => (Ok p, w);
     ext_transcribe := fun audio _ w =>
       if transcribe_fails audio then (Raise (ExternalError "transcribe"), w)
       else (Ok result, w);
     ext_load_alignment_model := fun _ w => (Ok tt, w);
     ext_align := fun segments _ _ _ w => (Ok (mkResult None (Some segments)), w);
     ext_load_diarization_model := fun _ w => (Ok tt, w);
     ext_diarize := fun _ w => (Ok tt, w);
     ext_assign_word_speakers := fun _ r w => (Ok r, w);
     ext_cleanup := fun w => (Ok tt, w);
     ext_open_w := fun p w =>
       if open_fails p then (Raise OSError, w) else (Ok tt, w);
     ext_json_dump := fun _ _ _ w => (Ok "{}", w) |}.

(** The same with every file within reach. *)
Definition collaborators (transcribe_fails open_fails : Pathlib.Path -> bool)
    (result : Result) : External :=
  collaborators_with transcribe_fails open_fails never result.

Definition settings (formats : list string) (skip : bool) : Settings :=
  {| whisper_model := "large-v2"; language := "pt"; batch_size := 16;
     input_path := "data/input"; output_path := "data/output";
     audio_extensions := [".mp3"; ".wav"];
     output_formats := formats;
     skip_existing := skip;
     alignment_enabled := true; return_char_alignments := false;
     diarization_enabled := false; hf_token := None;
     txt_include_speakers := true; txt_include_timestamps := false;
     json_ensure_ascii := false; json_indent := Some 2 |}.

Definition hello : Segment :=
  mkSegment (Some (PyNum.Float (PyFloat.of_int 1)))
            (Some (PyNum.Float (PyFloat.of_int 2)))
            (Some " hello ") (Some "SPEAKER_00").

Definition one_segment : Result := mkResult (Some "pt") (Some [hello]).

(** A directory listing: every name becomes an empty file of [dir]. *)
Definition files_in (dir : string) (names : list string) : gmap (list string) string :=
  list_to_map (List.map (fun n => (Pathlib.joinpath (Pathlib.of_string dir) n, EmptyString)) names).

End Fake.

(* ===================================================================== *)
(** * Vocabulary of the specification *)
(* ===================================================================== *)

Module Observe.
Import Pathlib.

(** ** Classes of events *)

(** The events [run] itself performs, outside the per-file loop. *)
Definition run_level (ev : Event) : bool :=
  match ev with
  | EvLog _ MStart | EvLog _ (MFound _) | EvLog _ (MFileSize _ _)
  | EvLog _ MNoAudioFound | EvLog _ MNothingToProcess | EvLog _ (MStats _)
  | EvCall (CLoadWhisperModel _ _) | EvCall (CStat _) | EvCall CCleanup => true
  | _ => false
  end.

(** The events of the discovery of the files. *)
Definition of_discovery (ev : Event) : bool :=
  match ev with
  | EvLog _ (MFound _) | EvLog _ (MFileSize _ _) | EvLog _ MNoAudioFound
  | EvCall (CStat _) => true
  | _ => false
  end.

(** The record that opens the processing of a file. *)
Definition is_processing (ev : Event) : bool :=
  match ev with
  | EvLog _ (MProcessing _) => true
  | _ => false
  end.

(** The events of the stages of one file: neither of the above. *)
Definition stage_event (ev : Event) : Prop :=
  run_level ev = false /\ is_processing ev = false.

(** Audio loading and transcription. *)
Definition loads_or_transcribes (ev : Event) : bool :=
  match ev with
  | EvCall (CLoadAudio _) | EvCall CTranscribe => true
  | _ => false
  end.

Definition processing (audio_file : Path) : Event :=
  EvLog INFO (MProcessing (name audio_file)).

(** ** Relations between the state before and the state after *)

Section Relations.
Context {E : External}.

(** The statistics are left as they were. *)
Definition same_stats (st st' : State E) : Prop := stats st' = stats st.

(** The trace grows by events of the class [P]. *)
Definition emits (P : Event -> Prop) (st st' : State E) : Prop :=
  exists evs, trace st' = trace st ++ evs /\ Forall P evs.

(** No entry of the file system disappears. *)
Definition keeps_files (st st' : State E) : Prop :=
  forall p, is_Some (fs st !! p) -> is_Some (fs st' !! p).

(** A computation respects a relation when every execution relates
    the state it starts from to the state it ends in, whether it
    returns or raises. *)
Definition respects (R : State E -> State E -> Prop) {A} (m : M E A) : Prop :=
  forall st, R st (m st).2.

(** An update of the file system that removes nothing. *)
Definition grows (g : gmap (list string) string -> gmap (list string) string) : Prop :=
  forall files p, is_Some (files !! p) -> is_Some (g files !! p).

Class StageRel (R : relation (State E)) := {
  stage_preorder :: PreOrder R;
  stage_emit : forall ev, stage_event ev -> respects R (emit ev);
  stage_call : forall A c (f : World E -> res A * World E),
    stage_event (EvCall c) -> respects R (call c f);
  stage_set_fs : forall g, grows g -> respects R (set_fs g)
}.
End Relations.

(** ** The files of a run *)

Inductive Outcome :=
| Skipped
| Completed
| Failed (e : exn).

Definition is_failed (o : Outcome) : bool :=
  match o with Failed _ => true | _ => false end.
Definition is_skipped (o : Outcome) : bool :=
  match o with Skipped => true | _ => false end.
Definition is_completed (o : Outcome) : bool :=
  match o with Completed => true | _ => false end.

Definition count (f : Outcome -> bool) (l : list Outcome) : nat :=
  List.length (List.filter f l).

(** The statistics after a file with the outcome [o]. *)
Definition bump (o : Outcome) (s : Stats) : Stats :=
  match o with
  | Skipped => Pipeline.incr_success (Pipeline.incr_skipped s)
  | Completed => Pipeline.incr_success s
  | Failed _ => Pipeline.incr_failed s
  end.

(** The statistics after files with the outcomes [os], in order. *)
Definition tally (os : list Outcome) (s : Stats) : Stats :=
  fold_left (fun s o => bump o s) os s.

Section Files.
Context {E : External}.

(** Whether [_process_file] skips [audio_path] in the state [st]. *)
Definition skips (self : Pipeline.t) (audio_path : Path) (st : State E) : bool :=
  skip_existing (Pipeline.config self) &&
  FileHandler.output_exists (Pipeline.file_handler self) (fs st) audio_path
    (output_formats (Pipeline.config self)).

(** What happens to [audio_file] when [_process_file] meets it in the
    state [st]. *)
Definition outcome_of (self : Pipeline.t) (audio_file : Path) (st : State E) : Outcome :=
  if skips self audio_file st
  then Skipped
  else match (Pipeline._process_file self audio_file st).1 with
       | Ok _ => Completed
       | Raise e => Failed e
       end.

(** The outcomes of the files of the loop of [run], each in the state
    in which the loop reaches it. *)
Fixpoint outcomes (self : Pipeline.t) (audio_files : list Path) (st : State E)
    : list Outcome :=
  match audio_files with
  | [] => []
  | f :: fs' =>
      outcome_of self f st :: outcomes self fs' (Pipeline.run_file self f st).2
  end.

(** The state in which [run], started in [st], looks for the files
    when the model loads and leaves the world in [w1]. *)
Definition loaded (self : Pipeline.t) (st : State E) (w1 : World E) : State E :=
  mkState w1 (fs st) (stats st)
    (trace st ++
     [EvLog INFO MStart;
      EvCall (CLoadWhisperModel (whisper_model (Pipeline.config self))
                                (language (Pipeline.config self)))]).

(** The discovery of that run returns, in the state [st1]: the size
    of every file it found could be read. *)
Definition discovers (self : Pipeline.t) (st : State E) (w1 : World E) (st1 : State E)
    : Prop :=
  exists audio_files,
    FileHandler.find_audio_files (Pipeline.file_handler self) (loaded self st w1)
    = (Ok audio_files, st1).

(** The discovery of that run raises [e], in the state [st1]. *)
Definition discovery_raises (self : Pipeline.t) (st : State E) (w1 : World E)
    (e : exn) (st1 : State E) : Prop :=
  FileHandler.find_audio_files (Pipeline.file_handler self) (loaded self st w1)
  = (Raise e, st1).

(** The records of a discovery that returns the files [audio_files],
    of the sizes [sizes]. *)
Definition discovery_events (audio_files : list Path) (sizes : list Z) : list Event :=
  match audio_files with
  | [] => [EvLog WARNING MNoAudioFound]
  | _ :: _ =>
      EvLog INFO (MFound (List.length audio_files)) ::
      flat_map (fun x => [EvCall (CStat x.1); EvLog INFO (MFileSize (name x.1) x.2)])
        (zip audio_files sizes)
  end.

(** The state in which [run] enters its loop when the discovery has
    returned in [st1]. *)
Definition at_loop (self : Pipeline.t) (st1 : State E) : State E :=
  let audio_files := FileHandler.audio_files_in (Pipeline.file_handler self) (fs st1) in
  mkState (world st1) (fs st1)
    (Pipeline.set_total (List.length audio_files) (stats st1))
    (trace st1).

(** What [run] comes to once its loop has ended in [st2]. *)
Definition after_loop (st2 : State E) : res unit * State E :=
  match ext_cleanup E (world st2) with
  | (Ok _, w2) =>
      (Ok tt,
       mkState w2 (fs st2) (stats st2)
         (trace st2 ++ [EvCall CCleanup; EvLog INFO (MStats (stats st2))]))
  | (Raise e, w2) =>
      (Raise e, mkState w2 (fs st2) (stats st2) (trace st2 ++ [EvCall CCleanup]))
  end.

(** The transcription model loads, leaving the world in [w1]. *)
Definition loads (self : Pipeline.t) (st : State E) (w1 : World E) : Prop :=
  ext_load_whisper_model E (whisper_model (Pipeline.config self)) (language (Pipeline.config self))
    (world st) = (Ok tt, w1).

(** ** The formats of an export *)

Inductive Attempt :=
| Unknown
| Written (path : Path)
| Refused (e : exn).

(** What the attempt at [fmt] comes to in the state [st]. *)
Definition attempt_of (cfg : Settings) (result : Result) (output_path : Path)
    (fmt : string) (st : State E) : Attempt :=
  match Exporter.exporter_for fmt with
  | None => Unknown
  | Some export_fmt =>
      match (export_fmt cfg result output_path st).1 with
      | Ok path => Written path
      | Raise e => Refused e
      end
  end.

(** The attempts of [export], each in the state in which the loop
    reaches its format. *)
Fixpoint attempts (cfg : Settings) (result : Result) (output_path : Path)
    (formats : list string) (st : State E) : list (string * Attempt) :=
  match formats with
  | [] => []
  | fmt :: formats' =>
      (fmt, attempt_of cfg result output_path fmt st) ::
      attempts cfg result output_path formats'
        (Exporter.export_one cfg result output_path fmt [] st).2
  end.

Definition written (a : string * Attempt) : option Path :=
  match a.2 with Written p => Some p | _ => None end.

Definition path_of (a : Attempt) : list Path :=
  match a with Written p => [p] | _ => [] end.

(** The path the exporter of [fmt] writes to, for the base path
    [output_path]. *)
Definition path_for (output_path : Path) (fmt : string) : Path :=
  joinpath (parent output_path) (stem output_path +:+ "." +:+ fmt).

(** The paths the attempt at [fmt] may write to: its own for a format
    that has an exporter, none for another name. *)
Definition own_paths (output_path : Path) (fmt : string) : list Path :=
  if bool_decide (fmt ∈ ["json"; "txt"; "srt"]) then [path_for output_path fmt] else [].

(** [text] is what the exporter of [fmt], started in the state [st],
    leaves in its file when it returns: for [json] the text the
    serialiser has produced for the result once the file was opened,
    for [txt] the lines of all segments, for [srt] the cues of all
    segments, numbered from 1. *)
Definition complete (cfg : Settings) (result : Result) (output_path : Path)
    (fmt : string) (st : State E) (text : string) : Prop :=
  if String.eqb fmt "json" then
    exists w w',
      ext_open_w E (path_for output_path fmt) (world st) = (Ok tt, w) /\
      ext_json_dump E result (json_ensure_ascii cfg) (json_indent cfg) w = (Ok text, w')
  else if String.eqb fmt "txt" then
    exists lines,
      Forall2 (fun segment line => Exporter.txt_line cfg segment = Ok line)
        (Exporter.segments_of result) lines /\
      text = PyStr.join EmptyString lines
  else if String.eqb fmt "srt" then
    exists cues,
      Forall2 (fun x cue => Exporter.srt_cue x.1 x.2 = Ok cue)
        (imap (fun i segment => (S i, segment)) (Exporter.segments_of result)) cues /\
      text = PyStr.join EmptyString cues
  else False.

(** What is known of the state right after the attempt at a format. *)
Definition attempt_recorded (fmt : string) (a : Attempt) (st' : State E) : Prop :=
  match a with
  | Unknown =>
      (fmt ∉ ["json"; "txt"; "srt"]) /\
      (EvLog WARNING (MUnknownFormat fmt) ∈ trace st')
  | Refused e => EvLog ERROR (MExportError fmt e) ∈ trace st'
  | Written p =>
      is_Some (fs st' !! p) /\ EvLog INFO (MExported (name p)) ∈ trace st'
  end.
End Files.

(** ** Segments with fields removed *)

(** [seg'] is [seg] with any of the speaker, start and end fields
    removed. *)
Definition erased (seg seg' : Segment) : Prop :=
  seg_text seg' = seg_text seg /\
  (seg_speaker seg' = seg_speaker seg \/ seg_speaker seg' = None) /\
  (seg_start seg' = seg_start seg \/ seg_start seg' = None) /\
  (seg_end seg' = seg_end seg \/ seg_end seg' = None).

Definition erased_result (r r' : Result) : Prop :=
  res_language r' = res_language r /\
  Forall2 erased (Exporter.segments_of r) (Exporter.segments_of r').

End Observe.

(* ===================================================================== *)
(** * [config_loader.py]: item access.  [main.py]: the overrides *)
(* ===================================================================== *)

Module Subscript.
Import Config.

(** The exceptions of subscription and of the [in] operator. *)
Inductive error :=
| KeyError (key : string)
| TypeError.

(** A step that returns ([inr]) or raises ([inl]). *)
Definition result (A : Type) : Type := error + A.

Definition and_then {A B} (r : result A) (k : A -> result B) : result B :=
  match r with
  | inr a => k a
  | inl e => inl e
  end.

(** [value[key]] for a string [key]: a mapping answers with the value or
    with [KeyError]; nothing else is subscripted by a string. *)
Definition getitem (value : yaml) (key : string) : result yaml :=
  match value with
  | YDict d =>
      match d !! key with
      | Some v => inr v
      | None => inl (KeyError key)
      end
  | _ => inl TypeError
  end.

(** [value[key] = v] for a string [key]: the value after the assignment. *)
Definition setitem (value : yaml) (key : string) (v : yaml) : result yaml :=
  match value with
  | YDict d => inr (YDict (<[key := v]> d))
  | _ => inl TypeError
  end.

(** [needle in s] on strings. *)
Fixpoint substring_of (needle s : string) : bool :=
  String.prefix needle s ||
  match s with
  | EmptyString => false
  | String _ s' => substring_of needle s'
  end.

(** [key in value] for a string [key]: a key of a mapping, an element of
    a sequence, a substring of a string; the other values are not
    iterable. *)
Definition contains (value : yaml) (key : string) : result bool :=
  match value with
  | YDict d => inr (bool_decide (is_Some (d !! key)))
  | YList l =>
      inr (existsb (fun x => match x with YStr s => String.eqb s key | _ => false end) l)
  | YStr s => inr (substring_of key s)
  | _ => inl TypeError
  end.

(** [Config.__getitem__]: [self._config[key]] *)
Definition __getitem__ (_config : yaml) (key : string) : result yaml :=
  getitem _config key.

(** [Config.__contains__]: [key in self._config] *)
Definition __contains__ (_config : yaml) (key : string) : result bool :=
  contains _config key.

End Subscript.

Module Main.
Import Config Subscript.

(** The namespace [parse_args] returns: an option that was not given on
    the command line is [None]. *)
Record Args := mkArgs {
  config : string;               (* --config, 'config.yaml' *)
  input : option string;         (* --input *)
  output : option string;        (* --output *)
  log_level : option string;     (* --log-level *)
  device : option string;        (* --device *)
  model : option string          (* --model *)
}.

(** [if arg: config._config[section][key] = arg]: nothing is done for an
    option that is absent or empty; the tree after the assignment
    otherwise. *)
Definition override (_config : yaml) (section key : string) (arg : option string)
    : result yaml :=
  match arg with
  | Some s =>
      if String.eqb s EmptyString then inr _config
      else
        and_then (getitem _config section) (fun target =>
        and_then (setitem target key (YStr s)) (fun target' =>
        setitem _config section target'))
  | None => inr _config
  end.

(** The overrides of [main]:
[[
    if args.input:  config._config['paths']['input'] = args.input
    if args.output: config._config['paths']['output'] = args.output
    if args.device: config._config['device']['type'] = args.device
    if args.model:  config._config['whisper']['model_size'] = args.model
]]
    They stand outside the [try] blocks of [main]: an exception raised
    here ends the program. *)
Definition overrides (args : Args) (_config : yaml) : result yaml :=
  and_then (override _config "paths" "input" (input args)) (fun c1 =>
  and_then (override c1 "paths" "output" (output args)) (fun c2 =>
  and_then (override c2 "device" "type" (device args)) (fun c3 =>
  override c3 "whisper" "model_size" (model args)))).

(** The value of an option for which [if arg:] holds. *)
Definition given (arg : option string) : option string :=
  match arg with
  | Some s => if String.eqb s EmptyString then None else Some s
  | None => None
  end.

(** The tree is a mapping in which [section] is a mapping. *)
Definition has_section (_config : yaml) (section : string) : bool :=
  match getitem _config section with
  | inr (YDict _) => true
  | _ => false
  end.

End Main.

(** ** Patterns without syntax

    A pattern in which no character is read as syntax of the matcher or
    of the path: no [*], no [?], no bracket and no separator. *)
Module Patterns.

Definition literal (pat : string) : bool :=
  FileHandler.plain pat && negb (PyStr.contains "[" pat) && negb (PyStr.contains "/" pat).

(** [n] ends in [ext]. *)
Fixpoint ends_with (n ext : string) : bool :=
  String.eqb n ext ||
  match n with
  | EmptyString => false
  | String _ n' => ends_with n' ext
  end.

(** Equality of paths and of names is decidable: the occurrences of a
    path in a list can be counted. *)
Definition path_eq_dec (p q : Pathlib.Path) : {p = q} + {p <> q} := decide (p = q).
Definition name_eq_dec (m n : string) : {m = n} + {m <> n} := decide (m = n).

End Patterns.

(** ** What a computation leaves alone *)

Module Frames.
Import Pathlib.

(** The paths the three exporters write to, for the base path [base]. *)
Definition candidates (base : Path) : list Path :=
  List.map (fun fmt => joinpath (parent base) (stem base +:+ "." +:+ fmt))
    ["json"; "txt"; "srt"].

Section WithExternal.
Context {E : External}.

(** The files outside [paths] are what they were. *)
Definition untouched_outside (paths : list Path) (st st' : State E) : Prop :=
  forall p, p ∉ paths -> fs st' !! p = fs st !! p.

(** The relation allows writing to the file at [path]. *)
Definition may_write (R : relation (State E)) (path : Path) : Prop :=
  forall text : gmap (list string) string -> string,
    Observe.respects R (set_fs (fun files => <[path := text files]> files)).

(** A relation that no log record, no call into a collaborator and no
    update of the statistics breaks. *)
Class FrameRel (R : relation (State E)) := {
  frame_preorder :: PreOrder R;
  frame_emit : forall ev, Observe.respects R (emit ev);
  frame_call : forall A c (f : World E -> res A * World E), Observe.respects R (call c f);
  frame_set_stats : forall g, Observe.respects R (set_stats g)
}.

End WithExternal.

End Frames.

(* ===================================================================== *)
(** * Sample data *)
(* ===================================================================== *)

Module Samples.
Import Pathlib.

(** A settings tree with one nested mapping and one scalar. *)
Definition sample : Config.yaml :=
  Config.YDict {[ "whisper" := Config.YDict {[ "model_size" := Config.YStr "base" ]};
           "paths" := Config.YStr "flat" ]}.

Definition handler : FileHandler.t := FileHandler.__init__ "in" "out" [".mp3"; ".wav"].

(** The doubles nearest to 75.4, to 3661.005 and to 0.999. *)
Definition f75_4 : spec_float := S754_finite false 5305803310995866 (-46).
Definition f3661_005 : spec_float := S754_finite false 8050635133692150 (-41).

Definition with_timestamps : Settings :=
  {| whisper_model := "large-v2"; language := "pt"; batch_size := 16;
     input_path := "data/input"; output_path := "data/output";
     audio_extensions := [".mp3"; ".wav"];
     output_formats := ["json"; "txt"; "srt"];
     skip_existing := false;
     alignment_enabled := true; return_char_alignments := false;
     diarization_enabled := true; hf_token := None;
     txt_include_speakers := true; txt_include_timestamps := true;
     json_ensure_ascii := false; json_indent := Some 2 |}.

Definition bare (text : string) : Segment := mkSegment None None (Some text) None.

(** The subtitle export of a result whose second segment has lost its
    times and its speaker. *)
Definition two_segments : Result :=
  mkResult (Some "pt") (Some [Fake.hello; Fake.hello]).
Definition two_segments_erased : Result :=
  mkResult (Some "pt") (Some [Fake.hello; bare " hello "]).

(** Collaborators whose transcription raises on [b.wav]. *)
Definition b_fails : External :=
  Fake.collaborators (fun p => bool_decide (name p = "b.wav")) Fake.never
    Fake.one_segment.

Definition reliable : External :=
  Fake.collaborators Fake.never Fake.never Fake.one_segment.

(** A directory entry the system cannot reach, as a link to a file
    that is gone. *)
Definition b_out_of_reach : External :=
  Fake.collaborators_with Fake.never Fake.never (fun p => bool_decide (name p = "b.wav"))
    Fake.one_segment.

Definition all_formats : Pipeline.t := Pipeline.__init__ (Fake.settings ["json"; "txt"; "srt"] false).
Definition json_skipping : Pipeline.t := Pipeline.__init__ (Fake.settings ["json"] true).

Definition three_files : gmap (list string) string :=
  Fake.files_in "data/input" ["c.wav"; "a.wav"; "b.wav"].

(** Two audio files, the first with its resolved output in place. *)
Definition one_done : gmap (list string) string :=
  <[ ["data"; "output"; "a_transcricao.json"] := "{}" ]>
    (Fake.files_in "data/input" ["a.wav"; "b.wav"]).

Definition a_wav : Path := ["data"; "input"; "a.wav"].

(** A pipeline that reads text files as audio and writes its text
    exports into the directory it reads. *)
Definition in_place : Pipeline.t :=
  Pipeline.__init__
    {| whisper_model := "large-v2"; language := "pt"; batch_size := 16;
       input_path := "d"; output_path := "d";
       audio_extensions := [".txt"];
       output_formats := ["txt"];
       skip_existing := false;
       alignment_enabled := true; return_char_alignments := false;
       diarization_enabled := false; hf_token := None;
       txt_include_speakers := true; txt_include_timestamps := false;
       json_ensure_ascii := false; json_indent := Some 2 |}.

(** A settings tree with the sections [paths] and [whisper] and without
    the section [device]. *)
Definition two_sections : Config.yaml :=
  Config.YDict {[ "paths" := Config.YDict {[ "input" := Config.YStr "in" ]};
                  "whisper" := Config.YDict ∅ ]}.

(** Collaborators whose transcription returns a result without the key
    [segments]. *)
Definition no_segments : External :=
  Fake.collaborators Fake.never Fake.never (mkResult (Some "pt") None).

(** A pipeline that skips what exists and exports no format. *)
Definition no_formats : Pipeline.t := Pipeline.__init__ (Fake.settings [] true).

(** [--input audio --model tiny] *)
Definition input_and_model : Main.Args :=
  Main.mkArgs "config.yaml" (Some "audio") None None None (Some "tiny").

End Samples.

(* ===================================================================== *)
(** * Verification *)
(* ===================================================================== *)

(** ** The configuration accessor *)

Module ConfigFacts.
Import Config Samples.

Lemma split_nonempty sep s : PyStr.split sep s <> [].
Proof.
  destruct s as [|c s]; simpl; [done|].
  destruct (Ascii.eqb c sep); [done|].
  by destruct (PyStr.split sep s).
Qed.

(** [get] returns the default or the value the walk reaches. *)
Lemma get_loop_cases keys : forall value default,
  get_loop keys value default = default \/
  walk keys value = Some (get_loop keys value default).
Proof.
  induction keys as [|key keys IH]; intros value default; simpl; [by right|].
  destruct value; auto.
  destruct (d !! key) as [v|] eqn:Hkey; simpl; [|by left].
  destruct v; auto; apply IH.
Qed.

Lemma get_loop_absent keys : forall value default,
  walk keys value = None -> get_loop keys value default = default.
Proof.
  intros value default Hwalk.
  destruct (get_loop_cases keys value default) as [?|Hfound]; [done|].
  congruence.
Qed.

(** The walk fails exactly at a key that is missing or at a value that
    is not a mapping. *)
Lemma walk_None_inv keys : forall value,
  walk keys value = None ->
  exists before key after reached,
    keys = before ++ key :: after /\
    walk before value = Some reached /\
    match reached with
    | YDict d => d !! key = None
    | _ => True
    end.
Proof.
  induction keys as [|key keys IH]; intros value Hwalk; [done|].
  simpl in Hwalk.
  destruct value as [| | | | |l|d] eqn:Hv;
    try (by exists [], key, keys, value; subst).
  destruct (d !! key) as [v|] eqn:Hkey; simpl in Hwalk.
  - destruct (IH v Hwalk) as (before & k & after & reached & -> & Hw & Hr).
    exists (key :: before), k, after, reached.
    split; [done|]. split; [|done]. simpl. by rewrite Hkey.
  - by exists [], key, keys, (YDict d).
Qed.

(** A value that is found and is not null anywhere on the way is
    returned. *)
Lemma get_two_levels (d inner : gmap string yaml) (k1 k2 : string) (v default : yaml) :
  d !! k1 = Some (YDict inner) -> inner !! k2 = Some v -> v <> YNull ->
  get_loop [k1; k2] (YDict d) default = v.
Proof.
  intros H1 H2 Hv. simpl. rewrite H1, H2. by destruct v.
Qed.

Example get_present : get sample "whisper.model_size" (YStr "large-v2") = YStr "base".
Proof. vm_compute. reflexivity. Qed.

Example get_missing_key : get sample "whisper.language" (YStr "pt") = YStr "pt".
Proof. vm_compute. reflexivity. Qed.

Example get_through_scalar : get sample "paths.input" (YStr "data/input") = YStr "data/input".
Proof. vm_compute. reflexivity. Qed.

Example get_on_empty_file : get YNull "device.type" (YStr "cuda") = YStr "cuda".
Proof. vm_compute. reflexivity. Qed.

Lemma get_loop_walk (keys : list string) : forall value default,
  keys <> [] ->
  get_loop keys value default =
  match walk keys value with
  | Some YNull | None => default
  | Some v => v
  end.
Proof.
  induction keys as [|key keys IH]; intros value default Hkeys; [done|].
  simpl. destruct value; try done.
  destruct (d !! key) as [v|] eqn:Hkey; simpl; [|done].
  destruct keys as [|key' keys].
  - by destruct v.
  - destruct v; try done. by apply IH.
Qed.

Lemma walk_app (before rest : list string) : forall value,
  walk (before ++ rest) value = walk before value ≫= walk rest.
Proof.
  induction before as [|key before IH]; intros value; simpl; [done|].
  destruct value; try done.
  destruct (d !! key) as [v|]; simpl; [apply IH|done].
Qed.

(** The walk stops at a key that is missing and at a value that is not
    a mapping. *)
Lemma walk_stops (before : list string) (key : string) (after : list string)
    (value reached : yaml) :
  walk before value = Some reached ->
  match reached with
  | YDict d => d !! key = None
  | _ => True
  end ->
  walk (before ++ key :: after) value = None.
Proof.
  intros Hbefore Hreached. rewrite walk_app, Hbefore. simpl.
  destruct reached; try done. by rewrite Hreached.
Qed.

(** C5.  [Config.get] splits the key path on ['.'] and walks the nested
    mappings along the keys: it returns the value the walk reaches,
    unless that value is null.  A key that is missing on the way and
    a value on the way that is not a mapping make it return the
    supplied default, and so does every key path that is not present
    in the loaded tree.  [get] is a total function: there is no input
    on which it raises. *)
Theorem get_walks_the_tree (_config : yaml) (key_path : string) (default : yaml) :
  let keys := PyStr.split "." key_path in
  get _config key_path default =
    match walk keys _config with
    | Some YNull | None => default
    | Some v => v
    end /\
  (forall before key after reached,
     keys = before ++ key :: after ->
     walk before _config = Some reached ->
     match reached with
     | YDict d => d !! key = None
     | _ => True
     end ->
     get _config key_path default = default) /\
  (~ present _config key_path -> get _config key_path default = default).
Proof.
  intros keys.
  assert (Hget : get _config key_path default =
                 match walk keys _config with
                 | Some YNull | None => default
                 | Some v => v
                 end)
    by (unfold get; apply get_loop_walk, split_nonempty).
  split; [exact Hget|]. split.
  - intros before key after reached Hkeys Hbefore Hreached.
    rewrite Hget, Hkeys. by rewrite (walk_stops _ _ _ _ _ Hbefore Hreached).
  - unfold present. fold keys. intros Habsent. rewrite Hget.
    destruct (walk keys _config) eqn:Hwalk; [|done].
    exfalso. apply Habsent. by eexists.
Qed.

Lemma get_walks_the_tree_witness :
  ~ present sample "paths.input" /\
  get sample "paths.input" (YStr "data/input") = YStr "data/input" /\
  get sample "whisper.model_size" (YStr "large-v2") = YStr "base".
Proof.
  assert (Habsent : ~ present sample "paths.input").
  { unfold present. vm_compute. intros [v Hv]. discriminate Hv. }
  split; [exact Habsent|]. split.
  - exact (proj2 (proj2 (get_walks_the_tree sample "paths.input" (YStr "data/input")))
             Habsent).
  - exact (proj1 (get_walks_the_tree sample "whisper.model_size" (YStr "large-v2"))).
Defined.

End ConfigFacts.

(** ** Strings and paths *)

Module PathFacts.
Import Pathlib.
#[local] Arguments String.append : simpl nomatch.

Lemma append_assoc (a b c : string) : (a +:+ b) +:+ c = a +:+ (b +:+ c).
Proof. induction a as [|x a IH]; simpl; [done|]. by rewrite IH. Qed.

Lemma length_append (a b : string) :
  String.length (a +:+ b) = (String.length a + String.length b)%nat.
Proof. induction a as [|x a IH]; simpl; [done|]. by rewrite IH. Qed.

Lemma contains_append (c : ascii) (a b : string) :
  PyStr.contains c (a +:+ b) = PyStr.contains c a || PyStr.contains c b.
Proof.
  induction a as [|x a IH]; simpl; [done|]. rewrite IH. by rewrite orb_assoc.
Qed.

Lemma split_without_separator (sep : ascii) (s : string) :
  PyStr.contains sep s = false -> PyStr.split sep s = [s].
Proof.
  induction s as [|c s IH]; simpl; [done|].
  intros [Hc Hs]%orb_false_elim. rewrite Hc, (IH Hs). done.
Qed.

Lemma is_part_not_absolute (s : string) : is_part s = true -> is_absolute_str s = false.
Proof.
  unfold is_part. intros [Hsep _]%andb_prop.
  destruct s as [|c s]; [done|]. simpl in *.
  by apply negb_true_iff, orb_false_elim in Hsep as [Hc _].
Qed.

Lemma parse_parts_part (s : string) : is_part s = true -> parse_parts s = [s].
Proof.
  intros Hpart. unfold parse_parts. rewrite (is_part_not_absolute _ Hpart).
  unfold is_part in Hpart. apply andb_prop in Hpart as [Hsep Hkeep].
  apply negb_true_iff in Hsep.
  rewrite (split_without_separator _ _ Hsep). simpl. by rewrite Hkeep.
Qed.

Lemma joinpath_part (p : Path) (s : string) :
  is_part s = true -> joinpath p s = p ++ [s].
Proof.
  intros Hpart. unfold joinpath.
  by rewrite (is_part_not_absolute _ Hpart), (parse_parts_part _ Hpart).
Qed.

Lemma is_part_not_root (s : string) : is_part s = true -> s <> "/".
Proof. intros Hpart ->. discriminate Hpart. Qed.

Lemma name_snoc (p : Path) (s : string) : is_part s = true -> name (p ++ [s]) = s.
Proof.
  intros Hpart. unfold name. rewrite last_last.
  apply is_part_not_root, String.eqb_neq in Hpart. by rewrite Hpart.
Qed.

Lemma parent_snoc (p : Path) (s : string) : is_part s = true -> parent (p ++ [s]) = p.
Proof.
  intros Hpart. unfold parent. rewrite removelast_last.
  rewrite bool_decide_eq_false_2; [done|].
  intros Heq. apply is_part_not_root in Hpart.
  destruct p as [|a p]; simpl in Heq.
  - injection Heq as Heq. by apply Hpart.
  - injection Heq as _ Heq. by destruct p.
Qed.

Lemma rfind_from_last (c : ascii) (u : string) : forall i acc,
  PyStr.rfind_from c (u +:+ String c EmptyString) i acc = i + PyStr.len u.
Proof.
  unfold PyStr.len.
  induction u as [|d u IH]; intros i acc; simpl.
  - rewrite Ascii.eqb_refl. lia.
  - rewrite IH. lia.
Qed.

(** The stem of a name that ends in a dot is the name itself. *)
Lemma stem_trailing_dot (p : Path) (u : string) :
  name p = u +:+ "." -> stem p = u +:+ ".".
Proof.
  intros Hname. unfold stem. rewrite Hname.
  unfold PyStr.rfind. rewrite rfind_from_last.
  unfold PyStr.len. rewrite length_append. simpl.
  replace (0 + Z.of_nat (String.length u) <?
           Z.of_nat (String.length u + 1) - 1) with false
    by (symmetry; apply Z.ltb_ge; lia).
  by rewrite andb_false_r.
Qed.

Lemma suffix_is_part (s suffix : string) :
  PyStr.contains "/" s = false -> PyStr.contains "/" suffix = false ->
  (2 <= String.length suffix)%nat ->
  is_part (s +:+ suffix) = true.
Proof.
  intros Hs Hsuffix Hlen. unfold is_part, keep_part.
  rewrite contains_append, Hs, Hsuffix. simpl.
  assert (Hlong : (2 <= String.length (s +:+ suffix))%nat)
    by (rewrite length_append; lia).
  destruct (s +:+ suffix) as [|c [|d r]]; simpl in Hlong; [lia|lia|].
  apply andb_true_intro. split; apply negb_true_iff, String.eqb_neq; done.
Qed.

End PathFacts.

(** ** Discovery and output paths *)

Module FileHandlerFacts.
Import Pathlib Samples PathFacts.
#[local] Arguments String.append : simpl nomatch.

(** *** Matching *)

Lemma fnmatch_plain (pat : string) :
  FileHandler.plain pat = true -> forall n, FileHandler.fnmatch pat n = String.eqb pat n.
Proof.
  induction pat as [|c pat IH]; intros Hplain n; [by destruct n|].
  unfold FileHandler.plain in Hplain. simpl in Hplain.
  apply andb_prop in Hplain as [Hstar Hany].
  apply negb_true_iff, orb_false_elim in Hstar as [Hstar Hstar'].
  apply negb_true_iff, orb_false_elim in Hany as [Hany Hany'].
  simpl. rewrite Hstar, Hany.
  destruct n as [|d n]; [done|]. simpl. rewrite IH; [done|].
  unfold FileHandler.plain. by rewrite Hstar', Hany'.
Qed.

Lemma fnmatch_star (pat n : string) :
  FileHandler.fnmatch (String "*" pat) n = true <->
  exists before rest, n = before +:+ rest /\ FileHandler.fnmatch pat rest = true.
Proof.
  simpl. induction n as [|d n IH].
  - split.
    + intros Hmatch. exists EmptyString, EmptyString. split; [done|].
      by rewrite orb_false_r in Hmatch.
    + intros (before & rest & Hn & Hmatch).
      destruct before; [|done]. simpl in Hn. subst rest. by rewrite Hmatch.
  - split.
    + intros [Hmatch|Hmatch]%orb_prop.
      * by exists EmptyString, (String d n).
      * apply IH in Hmatch as (before & rest & -> & Hmatch).
        by exists (String d before), rest.
    + intros (before & rest & Hn & Hmatch). apply orb_true_intro.
      destruct before as [|d' before]; simpl in Hn.
      * left. by subst rest.
      * right. injection Hn as -> ->. apply IH. by exists before, rest.
Qed.

(** A plain extension is matched as a suffix, letter for letter. *)
Lemma fnmatch_extension (ext n : string) :
  FileHandler.plain ext = true ->
  FileHandler.fnmatch ("*" +:+ ext) n = true <-> exists before, n = before +:+ ext.
Proof.
  intros Hplain. change ("*" +:+ ext) with (String "*" ext).
  rewrite fnmatch_star. split.
  - intros (before & rest & -> & Hmatch). exists before.
    rewrite (fnmatch_plain _ Hplain) in Hmatch.
    by apply String.eqb_eq in Hmatch as ->.
  - intros [before ->]. exists before, ext. split; [done|].
    rewrite (fnmatch_plain _ Hplain). apply String.eqb_refl.
Qed.

(** *** The entries of a directory *)

Lemma child_name_Some (dir p : Path) (n : string) :
  FileHandler.child_name dir p = Some n <-> p = dir ++ [n].
Proof.
  unfold FileHandler.child_name. split.
  - destruct (reverse p) as [|m rd] eqn:Hrev; [done|].
    case_decide as Hdir; [|done]. intros [= ->].
    rewrite <- (reverse_involutive p), Hrev, reverse_cons. by rewrite Hdir.
  - intros ->. rewrite reverse_app, reverse_singleton. simpl.
    rewrite decide_True; [done|]. apply reverse_involutive.
Qed.

Lemma elem_of_scandir (files : gmap (list string) string) (dir : Path) (n : string) :
  n ∈ FileHandler.scandir files dir <-> is_Some (files !! (dir ++ [n])).
Proof.
  unfold FileHandler.scandir. rewrite list_elem_of_omap. split.
  - intros (p & Hp & Hchild). apply child_name_Some in Hchild as ->.
    apply list_elem_of_fmap in Hp as ([p v] & -> & Hpv).
    apply elem_of_map_to_list in Hpv. by eexists.
  - intros [v Hv]. exists (dir ++ [n]). split; [|by apply child_name_Some].
    apply list_elem_of_fmap. exists (dir ++ [n], v).
    split; [done|]. by apply elem_of_map_to_list.
Qed.

Lemma elem_of_glob (files : gmap (list string) string) (dir : Path) (pat : string) (p : Path) :
  p ∈ FileHandler.glob files dir pat <->
  exists n, p = dir ++ [n] /\ is_Some (files !! p) /\ FileHandler.fnmatch pat n = true.
Proof.
  unfold FileHandler.glob. rewrite list_elem_of_In, in_map_iff. split.
  - intros (n & <- & [Hn Hmatch]%filter_In).
    exists n. split; [done|]. split; [|done].
    by apply elem_of_scandir, list_elem_of_In.
  - intros (n & -> & Hfile & Hmatch). exists n. split; [done|].
    apply filter_In. split; [|done]. by apply list_elem_of_In, elem_of_scandir.
Qed.

(** *** The order of the result *)

Lemma compare_antisym (p : Path) : forall q, compare p q = CompOpp (compare q p).
Proof.
  induction p as [|a p IH]; intros [|b q]; simpl; try done.
  rewrite String.compare_antisym, IH.
  by destruct (String.compare b a).
Qed.

#[global] Instance le_total : Total Pathlib.le.
Proof.
  intros p q. unfold Pathlib.le, leb. rewrite (compare_antisym p q).
  destruct (compare q p); simpl; auto.
Qed.

(** *** What [find_audio_files] returns *)

(** The result is sorted. *)
Lemma audio_files_sorted (self : FileHandler.t) (files : gmap (list string) string) :
  Sorted Pathlib.le (FileHandler.audio_files_in self files).
Proof. apply (Sorted_merge_sort Pathlib.le). Qed.

(** The result holds the entries of the input directory whose names match
    one of the lower-cased extensions, letter for letter, and no other
    path. *)
Lemma elem_of_audio_files (self : FileHandler.t) (files : gmap (list string) string)
    (p : Path) :
  p ∈ FileHandler.audio_files_in self files <->
  exists ext n,
    ext ∈ FileHandler.audio_extensions self /\
    p = FileHandler.input_dir self ++ [n] /\
    is_Some (files !! p) /\
    FileHandler.fnmatch ("*" +:+ ext) n = true.
Proof.
  unfold FileHandler.audio_files_in, FileHandler.sort.
  rewrite merge_sort_Permutation, list_elem_of_In, in_flat_map. split.
  - intros (ext & Hext & Hp). apply list_elem_of_In, elem_of_glob in Hp as (n & Hn).
    exists ext, n. split; [by apply list_elem_of_In|done].
  - intros (ext & n & Hext & Hn). exists ext. split; [by apply list_elem_of_In|].
    apply list_elem_of_In, elem_of_glob. by exists n.
Qed.

(** The loop of discovery that reads the size of every file: it stops
    at the first file that the system cannot reach. *)
Lemma stat_loop_spec {E : External} (l : list Path) : forall st : State E,
  let out :=
    for_each l (fun f =>
      bind (call (CStat f) (ext_stat E f)) (fun st_size =>
      logger INFO (MFileSize (name f) st_size))) st in
  fs out.2 = fs st /\ stats out.2 = stats st /\
  exists evs,
    trace out.2 = trace st ++ evs /\
    Forall (fun ev => Observe.of_discovery ev = true) evs /\
    (is_ok out.1 = true ->
     exists sizes,
       List.length sizes = List.length l /\
       evs = flat_map (fun x => [EvCall (CStat x.1); EvLog INFO (MFileSize (name x.1) x.2)])
               (zip l sizes)).
Proof.
  set (body := fun f : Path =>
    bind (call (CStat f) (ext_stat E f)) (fun st_size =>
    logger INFO (MFileSize (name f) st_size))).
  induction l as [|f l IH]; intros st out; subst out; cbn [for_each].
  - unfold ret. simpl. split; [done|]. split; [done|]. exists []. rewrite app_nil_r.
    split; [done|]. split; [done|]. intros _. by exists [].
  - assert (Hstep : bind (body f) (fun _ => for_each l body) st
                    = match ext_stat E f (world st) with
                      | (Ok st_size, w) =>
                          for_each l body
                            (mkState w (fs st) (stats st)
                               ((trace st ++ [EvCall (CStat f)])
                                ++ [EvLog INFO (MFileSize (name f) st_size)]))
                      | (Raise e, w) =>
                          (Raise e, mkState w (fs st) (stats st) (trace st ++ [EvCall (CStat f)]))
                      end).
    { unfold bind at 1. unfold body at 1. unfold bind at 1. unfold call, logger, emit.
      by destruct (ext_stat E f (world st)) as [[st_size|e] w]. }
    rewrite Hstep. clear Hstep.
    destruct (ext_stat E f (world st)) as [[st_size|e] w].
    + match goal with
      | |- context [for_each l body ?s] =>
          pose proof (IH s) as Hloop; destruct (for_each l body s) as [r st1]
      end.
      simpl in Hloop. destruct Hloop as (Hfs & Hstats & evs & Htrace & Hevs & Hsizes).
      simpl. split; [done|]. split; [done|].
      exists (EvCall (CStat f) :: EvLog INFO (MFileSize (name f) st_size) :: evs).
      split; [by rewrite Htrace, <- !app_assoc|].
      split; [by repeat constructor|].
      intros Hok. destruct (Hsizes Hok) as (sizes & Hlen & ->).
      exists (st_size :: sizes). simpl. by rewrite Hlen.
    + simpl. split; [done|]. split; [done|]. exists [EvCall (CStat f)].
      split; [done|]. split; [by repeat constructor|]. done.
Qed.

(** Discovery: it returns the sorted list or raises at a file whose
    size it cannot read; it leaves the files and the statistics as
    they are, and its records are those of the run. *)
Lemma find_audio_files_spec {E : External} (self : FileHandler.t) (st : State E) :
  let out := FileHandler.find_audio_files self st in
  let audio_files := FileHandler.audio_files_in self (fs st) in
  fs out.2 = fs st /\ stats out.2 = stats st /\
  (out.1 = Ok audio_files \/ exists e, out.1 = Raise e) /\
  exists evs,
    trace out.2 = trace st ++ evs /\
    Forall (fun ev => Observe.of_discovery ev = true) evs /\
    (is_ok out.1 = true ->
     exists sizes,
       List.length sizes = List.length audio_files /\
       evs = Observe.discovery_events audio_files sizes).
Proof.
  intros out audio_files.
  set (body := fun f : Path =>
    bind (call (CStat f) (ext_stat E f)) (fun st_size =>
    logger INFO (MFileSize (name f) st_size))).
  assert (Hout : out =
    match audio_files with
    | [] => (Ok [], mkState (world st) (fs st) (stats st)
                      (trace st ++ [EvLog WARNING MNoAudioFound]))
    | _ :: _ =>
        let loop :=
          for_each audio_files body
            (mkState (world st) (fs st) (stats st)
               (trace st ++ [EvLog INFO (MFound (List.length audio_files))])) in
        (match loop.1 with Ok _ => Ok audio_files | Raise e => Raise e end, loop.2)
    end).
  { subst out. unfold FileHandler.find_audio_files. fold body. fold audio_files.
    unfold bind, get_fs, ret, logger, emit. simpl. fold audio_files.
    destruct audio_files as [|f files]; [done|]. cbn zeta.
    by destruct (for_each (f :: files) body _) as [[[]|e] st1]. }
  clearbody out. subst out.
  destruct audio_files as [|f files] eqn:Hfiles.
  - simpl.
    split; [done|]. split; [done|]. split; [by left|].
    exists [EvLog WARNING MNoAudioFound]. split; [done|].
    split; [by repeat constructor|]. intros _. by exists [].
  - cbn zeta.
    match goal with
    | |- context [for_each (f :: files) body ?s] =>
        pose proof (stat_loop_spec (f :: files) s) as Hloop;
        fold body in Hloop;
        destruct (for_each (f :: files) body s) as [[[]|e] st1]
    end; simpl in Hloop; simpl.
    + destruct Hloop as (Hfs & Hstats & evs & Htrace & Hevs & Hsizes).
      split; [done|]. split; [done|]. split; [by left|].
      exists (EvLog INFO (MFound (S (List.length files))) :: evs).
      split; [by rewrite Htrace, <- app_assoc|].
      split; [by constructor|].
      intros _. destruct (Hsizes eq_refl) as (sizes & Hlen & ->). by exists sizes.
    + destruct Hloop as (Hfs & Hstats & evs & Htrace & Hevs & _).
      split; [done|]. split; [done|]. split; [right; by exists e|].
      exists (EvLog INFO (MFound (S (List.length files))) :: evs).
      split; [by rewrite Htrace, <- app_assoc|].
      split; [by constructor|]. done.
Qed.

Lemma find_audio_files_result {E : External} (self : FileHandler.t) (st : State E)
    (audio_files : list Path) :
  (FileHandler.find_audio_files self st).1 = Ok audio_files ->
  audio_files = FileHandler.audio_files_in self (fs st).
Proof.
  intros Hfound.
  destruct (find_audio_files_spec self st) as (_ & _ & [Hok|[e He]] & _); congruence.
Qed.

(** *** The two names of an output file *)

(** For a path whose stem holds no separator and a format among [json],
    [txt], [srt]: the path an exporter writes to, computed from the base
    [get_output_path(audio_path, '')], has one dot more than the path
    [get_output_path] resolves for the format. *)
Lemma exporter_path_is_not_the_resolved_path (fh : FileHandler.t) (audio_path : Path)
    (fmt : string) :
  PyStr.contains "/" (stem audio_path) = false ->
  fmt ∈ ["json"; "txt"; "srt"] ->
  let base := FileHandler.get_output_path fh audio_path EmptyString in
  let written := joinpath (parent base) (stem base +:+ "." +:+ fmt) in
  written = FileHandler.output_dir fh ++ [stem audio_path +:+ "_transcricao.." +:+ fmt] /\
  FileHandler.get_output_path fh audio_path fmt
    = FileHandler.output_dir fh ++ [stem audio_path +:+ "_transcricao." +:+ fmt] /\
  written <> FileHandler.get_output_path fh audio_path fmt.
Proof.
  intros Hstem Hfmt base written.
  assert (Hbase : base = FileHandler.output_dir fh ++ [stem audio_path +:+ "_transcricao."]).
  { unfold base, FileHandler.get_output_path. apply joinpath_part.
    by apply suffix_is_part; [|vm_compute|vm_compute; lia]. }
  assert (Hpart_base : is_part (stem audio_path +:+ "_transcricao.") = true)
    by (by apply suffix_is_part; [|vm_compute|vm_compute; lia]).
  assert (Hstem_base : stem base = stem audio_path +:+ "_transcricao.").
  { change (stem audio_path +:+ "_transcricao.")
      with (stem audio_path +:+ ("_transcricao" +:+ ".")).
    rewrite <- append_assoc. apply stem_trailing_dot.
    rewrite Hbase, (name_snoc _ _ Hpart_base).
    by rewrite append_assoc. }
  assert (Hwritten :
    written = FileHandler.output_dir fh ++ [stem audio_path +:+ "_transcricao.." +:+ fmt]).
  { unfold written. rewrite Hstem_base, Hbase, (parent_snoc _ _ Hpart_base).
    rewrite append_assoc.
    change ("_transcricao." +:+ "." +:+ fmt) with ("_transcricao.." +:+ fmt).
    apply joinpath_part, suffix_is_part; [done| |].
    - repeat (apply elem_of_cons in Hfmt as [->|Hfmt]; [by vm_compute|]).
      by apply elem_of_nil in Hfmt.
    - rewrite length_append. simpl. lia. }
  assert (Hresolved :
    FileHandler.get_output_path fh audio_path fmt
    = FileHandler.output_dir fh ++ [stem audio_path +:+ "_transcricao." +:+ fmt]).
  { unfold FileHandler.get_output_path. apply joinpath_part, suffix_is_part; [done| |].
    - repeat (apply elem_of_cons in Hfmt as [->|Hfmt]; [by vm_compute|]).
      by apply elem_of_nil in Hfmt.
    - rewrite length_append. simpl. lia. }
  split; [done|]. split; [done|].
  rewrite Hwritten, Hresolved. intros Heq.
  apply app_inv_head in Heq. injection Heq as Heq.
  apply String.app_inj in Heq.
  apply (f_equal String.length) in Heq. simpl in Heq. lia.
Qed.

(** *** Examples *)

(** The allow-list is matched whatever its own case ... *)
Example extensions_are_lowered :
  FileHandler.audio_extensions (FileHandler.__init__ "in" "out" [".MP3"; ".Wav"])
  = [".mp3"; ".wav"].
Proof. vm_compute. reflexivity. Qed.

(** ... and the result is sorted and free of other files. *)
Example find_lower_case :
  FileHandler.audio_files_in handler (Fake.files_in "in" ["b.mp3"; "a.wav"; "c.txt"])
  = [["in"; "a.wav"]; ["in"; "b.mp3"]].
Proof. vm_compute. reflexivity. Qed.

Example find_nothing :
  FileHandler.audio_files_in handler (Fake.files_in "in" ["c.txt"]) = [].
Proof. vm_compute. reflexivity. Qed.

(** C2 (the code departs from the claim).  On the files [b.MP3], [a.wav],
    [c.txt] with the extensions [.mp3], [.wav], [find_audio_files]
    returns [a.wav] alone: the pattern [*.mp3] is matched against the
    names as they are, and [b.MP3] is not found.  The claim expects
    [a.wav, b.MP3]. *)
Theorem find_audio_files_misses_upper_case_extension :
  let files := Fake.files_in "in" ["b.MP3"; "a.wav"; "c.txt"] in
  let E := Fake.collaborators Fake.never Fake.never Fake.one_segment in
  FileHandler.audio_files_in handler files = [["in"; "a.wav"]] /\
  (FileHandler.find_audio_files handler (Pipeline.initial (E := E) tt files)).1
    = Ok [["in"; "a.wav"]].
Proof. vm_compute. split; reflexivity. Qed.

(** The two paths of one audio file and one format: the path
    [get_output_path] resolves and the path an exporter derives from the
    base [get_output_path(audio_path, '')] the pipeline hands to it. *)
Example resolved_path :
  FileHandler.get_output_path handler ["in"; "a.wav"] "json" = ["out"; "a_transcricao.json"].
Proof. vm_compute. reflexivity. Qed.

Example base_keeps_its_dot :
  stem (FileHandler.get_output_path handler ["in"; "a.wav"] EmptyString) = "a_transcricao.".
Proof. vm_compute. reflexivity. Qed.

End FileHandlerFacts.

(** ** Rendering of times, lines and cues *)

Module RenderFacts.
Import PyNum TimeFormat Exporter Observe Samples.

(** Whole seconds, as the default [0] of a missing timestamp is. *)
Lemma to_srt_time_int (n : Z) :
  _to_srt_time (Int n) =
  Ok (PyStr.format_0d 2 (n / 3600) +:+ ":" +:+
      PyStr.format_0d 2 (n mod 3600 / 60) +:+ ":" +:+
      PyStr.format_0d 2 (n mod 60) +:+ ",000").
Proof.
  unfold _to_srt_time. simpl. rewrite Z.mod_1_r. reflexivity.
Qed.

Lemma format_timestamp_int (n : Z) :
  _format_timestamp (Int n) =
  Ok (PyStr.format_0d 2 (n / 60) +:+ ":" +:+ PyStr.format_0d 2 (n mod 60)).
Proof. reflexivity. Qed.

Example f75_4_is_754_tenths :
  PyFloat.div (PyFloat.of_int 754) (PyFloat.of_int 10) = f75_4.
Proof. vm_compute. reflexivity. Qed.

Example f3661_005_is_3661005_thousandths :
  PyFloat.div (PyFloat.of_int 3661005) (PyFloat.of_int 1000) = f3661_005.
Proof. vm_compute. reflexivity. Qed.

Example srt_time_75_4 : _to_srt_time (Float f75_4) = Ok "00:01:15,400".
Proof. vm_compute. reflexivity. Qed.

Example srt_time_3661_005 : _to_srt_time (Float f3661_005) = Ok "01:01:01,005".
Proof. vm_compute. reflexivity. Qed.

Example srt_time_of_nan : _to_srt_time (Float S754_nan) = Raise ValueError.
Proof. vm_compute. reflexivity. Qed.



Example txt_line_with_speaker_and_timestamps :
  txt_line with_timestamps Fake.hello
  = Ok ("[SPEAKER_00] [00:01 -> 00:02] hello" +:+ PyStr.nl).
Proof. vm_compute. reflexivity. Qed.

(** C9 (the claim as stated fails).  A segment without [start] and [end]
    is not rendered without its times: the subtitle cue, and the text
    line when timestamps are enabled, carry the time zero. *)
Lemma missing_timestamps_are_rendered_as_zero :
  srt_cue 1 (bare "hi")
  = Ok ("1" +:+ PyStr.nl +:+ "00:00:00,000 --> 00:00:00,000" +:+ PyStr.nl +:+
        "hi" +:+ PyStr.nl +:+ PyStr.nl) /\
  txt_line with_timestamps (bare "hi") = Ok ("[00:00 -> 00:00] hi" +:+ PyStr.nl).
Proof. vm_compute. split; reflexivity. Qed.

(** Removing fields never turns a rendering into a failure. *)

Lemma to_srt_time_default_ok (t t' : option num) :
  t' = t \/ t' = None ->
  is_ok (_to_srt_time (default (Int 0) t)) = true ->
  is_ok (_to_srt_time (default (Int 0) t')) = true.
Proof. intros [->| ->]; [done|]. intros _. reflexivity. Qed.

Lemma format_timestamp_default_ok (t t' : option num) :
  t' = t \/ t' = None ->
  is_ok (_format_timestamp (default (Int 0) t)) = true ->
  is_ok (_format_timestamp (default (Int 0) t')) = true.
Proof. intros [->| ->]; [done|]. intros _. reflexivity. Qed.

Lemma is_ok_bind {A B} (r : res A) (k : A -> res B) :
  is_ok (res_bind r k) = true ->
  exists a, r = Ok a /\ is_ok (k a) = true.
Proof. destruct r as [a|e]; simpl; [eauto|done]. Qed.

Lemma is_ok_true {A} (r : res A) : is_ok r = true -> exists a, r = Ok a.
Proof. destruct r; [eauto|done]. Qed.

Lemma srt_cue_erased (i j : nat) (seg seg' : Segment) :
  erased seg seg' ->
  is_ok (srt_cue i seg) = true -> is_ok (srt_cue j seg') = true.
Proof.
  intros (_ & _ & Hstart & Hend). unfold srt_cue. intros Hok.
  apply is_ok_bind in Hok as (s & Hs & Hok).
  apply is_ok_bind in Hok as (e & He & _).
  assert (Hs' := to_srt_time_default_ok _ _ Hstart).
  assert (He' := to_srt_time_default_ok _ _ Hend).
  rewrite Hs in Hs'. rewrite He in He'.
  destruct (is_ok_true _ (Hs' eq_refl)) as [s' ->].
  destruct (is_ok_true _ (He' eq_refl)) as [e' ->].
  reflexivity.
Qed.

Lemma txt_line_erased (cfg : Settings) (seg seg' : Segment) :
  erased seg seg' ->
  is_ok (txt_line cfg seg) = true -> is_ok (txt_line cfg seg') = true.
Proof.
  intros (_ & _ & Hstart & Hend). unfold txt_line. intros Hok.
  apply is_ok_bind in Hok as (ts & Hts & _).
  destruct (txt_include_timestamps cfg); [|reflexivity].
  assert (Hok : is_ok (start <- _format_timestamp (default (Int 0) (seg_start seg)) ;;
                       end_ <- _format_timestamp (default (Int 0) (seg_end seg)) ;;
                       Ok ["[" +:+ start +:+ " -> " +:+ end_ +:+ "]"])%res = true)
    by (rewrite Hts; reflexivity).
  apply is_ok_bind in Hok as (s & Hs & Hok).
  apply is_ok_bind in Hok as (e & He & _).
  assert (Hs' := format_timestamp_default_ok _ _ Hstart).
  assert (He' := format_timestamp_default_ok _ _ Hend).
  rewrite Hs in Hs'. rewrite He in He'.
  destruct (is_ok_true _ (Hs' eq_refl)) as [s' ->].
  destruct (is_ok_true _ (He' eq_refl)) as [e' ->].
  reflexivity.
Qed.

(** The shape of a line and of a cue whose optional fields are absent. *)

Lemma txt_line_without_speaker (cfg : Settings) (seg : Segment) :
  seg_speaker seg = None ->
  txt_line cfg seg =
  (timestamp_part <-
     (if txt_include_timestamps cfg then
        start <- _format_timestamp (default (Int 0) (seg_start seg)) ;;
        end_ <- _format_timestamp (default (Int 0) (seg_end seg)) ;;
        Ok ["[" +:+ start +:+ " -> " +:+ end_ +:+ "]"]
      else Ok []) ;;
   Ok (PyStr.join " " (timestamp_part ++ [PyStr.strip (default EmptyString (seg_text seg))])
       +:+ PyStr.nl))%res.
Proof. intros Hsp. unfold txt_line. rewrite Hsp. reflexivity. Qed.

Lemma txt_line_without_times (cfg : Settings) (seg : Segment) :
  seg_start seg = None -> seg_end seg = None ->
  txt_line cfg seg =
  Ok (PyStr.join " "
        (match seg_speaker seg with
         | Some sp => if txt_include_speakers cfg then ["[" +:+ sp +:+ "]"] else []
         | None => []
         end ++
         (if txt_include_timestamps cfg then ["[00:00 -> 00:00]"] else []) ++
         [PyStr.strip (default EmptyString (seg_text seg))])
      +:+ PyStr.nl).
Proof.
  intros Hs He. unfold txt_line. rewrite Hs, He.
  destruct (txt_include_timestamps cfg); reflexivity.
Qed.

Lemma srt_cue_without_times (i : nat) (seg : Segment) :
  seg_start seg = None -> seg_end seg = None ->
  srt_cue i seg =
  Ok (pretty i +:+ PyStr.nl +:+ "00:00:00,000 --> 00:00:00,000" +:+ PyStr.nl +:+
      PyStr.strip (default EmptyString (seg_text seg)) +:+ PyStr.nl +:+ PyStr.nl).
Proof. intros Hs He. unfold srt_cue. rewrite Hs, He. reflexivity. Qed.

End RenderFacts.

(** ** Reasoning about computations *)

Module MonadFacts.
Import Observe.

Section WithExternal.
Context {E : External}.

(** *** Composition *)

Section Composition.
Context (R : relation (State E)) `{!PreOrder R}.

Lemma respects_ret {A} (a : A) : respects R (ret a).
Proof. intros st. simpl. reflexivity. Qed.

Lemma respects_raise {A} (e : exn) : respects R (raise (A := A) e).
Proof. intros st. simpl. reflexivity. Qed.

Lemma respects_lift {A} (r : res A) : respects R (lift r).
Proof. intros st. simpl. reflexivity. Qed.

Lemma respects_get_fs : respects R get_fs.
Proof. intros st. simpl. reflexivity. Qed.

Lemma respects_get_stats : respects R get_stats.
Proof. intros st. simpl. reflexivity. Qed.

Lemma respects_bind {A B} (m : M E A) (k : A -> M E B) :
  respects R m -> (forall a, respects R (k a)) -> respects R (bind m k).
Proof.
  intros Hm Hk st. unfold bind.
  specialize (Hm st). destruct (m st) as [[a|e] st1]; simpl in *; [|done].
  etrans; [exact Hm|apply Hk].
Qed.

Lemma respects_try_except {A} (m : M E A) (h : exn -> M E A) :
  respects R m -> (forall e, respects R (h e)) -> respects R (try_except m h).
Proof.
  intros Hm Hh st. unfold try_except.
  specialize (Hm st). destruct (m st) as [[a|e] st1]; simpl in *; [done|].
  etrans; [exact Hm|apply Hh].
Qed.

Lemma respects_for_each {A} (l : list A) (body : A -> M E unit) :
  (forall x, respects R (body x)) -> respects R (for_each l body).
Proof.
  intros Hbody. induction l as [|x l IH]; simpl.
  - apply respects_ret.
  - apply respects_bind; [apply Hbody|intros _; exact IH].
Qed.
End Composition.

(** *** The three relations are preorders *)

#[global] Instance same_stats_preorder : PreOrder (same_stats (E := E)).
Proof.
  split; [intros st; reflexivity|].
  intros st1 st2 st3 H12 H23. unfold same_stats in *. congruence.
Qed.

#[global] Instance emits_preorder (P : Event -> Prop) : PreOrder (emits (E := E) P).
Proof.
  split.
  - intros st. exists []. by rewrite app_nil_r.
  - intros st1 st2 st3 (evs1 & H1 & HP1) (evs2 & H2 & HP2).
    exists (evs1 ++ evs2). rewrite H2, H1, app_assoc.
    split; [done|]. by apply Forall_app.
Qed.

#[global] Instance keeps_files_preorder : PreOrder (keeps_files (E := E)).
Proof.
  split; [by intros st p|].
  intros st1 st2 st3 H12 H23 p Hp. by apply H23, H12.
Qed.

(** *** Relations the stages of a file respect *)

#[global] Instance same_stats_stage : StageRel (same_stats (E := E)).
Proof.
  split; [apply _|..].
  - by intros ev _ st.
  - intros A c f _ st. unfold call. by destruct (f (world st)).
  - by intros g _ st.
Qed.

#[global] Instance emits_stage : StageRel (emits (E := E) stage_event).
Proof.
  split; [apply _|..].
  - intros ev Hev st. exists [ev]. split; [done|]. by apply Forall_singleton.
  - intros A c f Hc st. unfold call. destruct (f (world st)) as [r w]. simpl.
    exists [EvCall c]. split; [done|]. by apply Forall_singleton.
  - intros g _ st. exists []. by rewrite app_nil_r.
Qed.

#[global] Instance keeps_files_stage : StageRel (keeps_files (E := E)).
Proof.
  split; [apply _|..].
  - by intros ev _ st p.
  - intros A c f _ st p. unfold call. by destruct (f (world st)).
  - intros g Hg st p. apply Hg.
Qed.

Lemma grows_insert (path : list string) (text : gmap (list string) string -> string) :
  grows (fun files => <[path := text files]> files).
Proof.
  intros files p Hp. destruct (decide (path = p)) as [->|Hne].
  - rewrite lookup_insert_eq. by eexists.
  - by rewrite lookup_insert_ne.
Qed.

Lemma stage_logger (R : relation (State E)) `{!StageRel R} (l : Level) (m : Msg) :
  stage_event (EvLog l m) -> respects R (logger l m).
Proof. apply stage_emit. Qed.

End WithExternal.

(** One step of the decomposition of a computation. *)
Ltac respects_step :=
  lazymatch goal with
  | |- respects _ (bind _ _) => apply respects_bind; [apply _| |intros ?]
  | |- respects _ (try_except _ _) => apply respects_try_except; [apply _| |intros ?]
  | |- respects _ (for_each _ _) => apply respects_for_each; [apply _|intros ?]
  | |- respects _ (ret _) => apply respects_ret; apply _
  | |- respects _ (raise _) => apply respects_raise; apply _
  | |- respects _ (lift _) => apply respects_lift; apply _
  | |- respects _ get_fs => apply respects_get_fs; apply _
  | |- respects _ get_stats => apply respects_get_stats; apply _
  | |- respects _ (logger _ _) => apply stage_logger; [apply _|by split]
  | |- respects _ (call _ _) => apply stage_call; by split
  | |- respects _ (set_fs _) => apply stage_set_fs; apply grows_insert
  | |- respects _ (if ?b then _ else _) => destruct b
  | |- respects _ (match ?x with _ => _ end) => destruct x
  end.

Ltac respects_auto := repeat respects_step.

(** Unfolding of the operations of the monad. *)
Ltac unfold_m :=
  cbv beta iota delta
    [bind ret raise lift try_except emit logger call
     get_fs set_fs set_stats get_stats].

End MonadFacts.

(** ** The exporter *)

Module ExportFacts.
Import Pathlib Observe MonadFacts Exporter Samples.

Section WithExternal.
Context {E : External}.

(** *** What the exporters leave untouched *)

Lemma open_w_respects (R : relation (State E)) `{!StageRel R} (path : Path) : respects R (open_w (E := E) path).
Proof. unfold open_w. respects_auto. Qed.

Lemma write_respects (R : relation (State E)) `{!StageRel R} (path : Path) (text : string) :
  respects R (write (E := E) path text).
Proof. unfold write. respects_auto. Qed.

Lemma export_json_respects (R : relation (State E)) `{!StageRel R} cfg result base :
  respects R (export_json (E := E) cfg result base).
Proof.
  unfold export_json.
  respects_step; [apply open_w_respects, _|].
  respects_step; [respects_step|].
  respects_step; [apply write_respects, _|respects_step].
Qed.

Lemma export_txt_respects (R : relation (State E)) `{!StageRel R} cfg result base :
  respects R (export_txt (E := E) cfg result base).
Proof.
  unfold export_txt.
  respects_step; [apply open_w_respects, _|].
  respects_step; [|respects_step].
  respects_step. respects_step; [respects_step|apply write_respects, _].
Qed.

Lemma export_srt_respects (R : relation (State E)) `{!StageRel R} cfg result base :
  respects R (export_srt (E := E) cfg result base).
Proof.
  unfold export_srt.
  respects_step; [apply open_w_respects, _|].
  respects_step; [|respects_step].
  respects_step. destruct x as [i segment].
  respects_step; [respects_step|apply write_respects, _].
Qed.

Lemma exporter_for_respects (R : relation (State E)) `{!StageRel R} fmt export_fmt cfg result base :
  exporter_for (E := E) fmt = Some export_fmt ->
  respects R (export_fmt cfg result base).
Proof.
  unfold exporter_for. intros Hfor.
  destruct (String.eqb fmt "json");
    [injection Hfor as <-; apply export_json_respects, _|].
  destruct (String.eqb fmt "txt");
    [injection Hfor as <-; apply export_txt_respects, _|].
  destruct (String.eqb fmt "srt");
    [injection Hfor as <-; apply export_srt_respects, _|done].
Qed.

Lemma export_one_respects (R : relation (State E)) `{!StageRel R} cfg result base fmt exported :
  respects R (export_one (E := E) cfg result base fmt exported).
Proof.
  unfold export_one. respects_step.
  - destruct (exporter_for fmt) as [export_fmt|] eqn:Hfor.
    + respects_step; [by eapply exporter_for_respects|]. respects_auto.
    + respects_auto.
  - respects_auto.
Qed.

Lemma export_loop_respects (R : relation (State E)) `{!StageRel R} cfg result base formats :
  forall exported, respects R (export_loop (E := E) cfg result base formats exported).
Proof.
  induction formats as [|fmt formats IH]; intros exported; simpl.
  - respects_step.
  - respects_step; [apply export_one_respects, _|apply IH].
Qed.

Lemma export_respects (R : relation (State E)) `{!StageRel R} cfg result base formats :
  respects R (export (E := E) cfg result base formats).
Proof. apply export_loop_respects, _. Qed.

(** *** A file that was opened is there when its exporter returns *)

Lemma opened_file_stays {A} (path : Path) (rest : M E A) (st st' : State E) (a : A) :
  respects keeps_files rest ->
  bind (open_w path) (fun _ => rest) st = (Ok a, st') ->
  is_Some (fs st' !! path).
Proof.
  intros Hrest. unfold open_w. unfold_m.
  destruct (ext_open_w E path (world st)) as [[[]|e] w]; simpl; [|done].
  intros Hrun.
  pose proof (Hrest (mkState w (<[path:=EmptyString]> (fs st)) (stats st)
                       (trace st ++ [EvCall (COpen path)]))) as Hkeep.
  rewrite Hrun in Hkeep. apply Hkeep. simpl.
  rewrite lookup_insert_eq. by eexists.
Qed.

Lemma exported_file_exists fmt export_fmt cfg result base (st st' : State E) path :
  exporter_for fmt = Some export_fmt ->
  export_fmt cfg result base st = (Ok path, st') ->
  is_Some (fs st' !! path).
Proof.
  unfold exporter_for. intros Hfor Hrun.
  repeat case_match; simplify_eq.
  - unfold export_json in Hrun.
    assert (path = joinpath (parent base) (stem base +:+ ".json")) as ->.
    { revert Hrun. unfold_m. repeat case_match; intros; simplify_eq; done. }
    eapply opened_file_stays; [|exact Hrun].
    respects_step; [respects_step|].
    respects_step; [apply write_respects, _|respects_step].
  - unfold export_txt in Hrun.
    assert (path = joinpath (parent base) (stem base +:+ ".txt")) as ->.
    { revert Hrun. unfold_m. repeat case_match; intros; simplify_eq; done. }
    eapply opened_file_stays; [|exact Hrun].
    respects_step; [|respects_step].
    respects_step. respects_step; [respects_step|apply write_respects, _].
  - unfold export_srt in Hrun.
    assert (path = joinpath (parent base) (stem base +:+ ".srt")) as ->.
    { revert Hrun. unfold_m. repeat case_match; intros; simplify_eq; done. }
    eapply opened_file_stays; [|exact Hrun].
    respects_step; [|respects_step].
    respects_step. destruct x as [i segment].
    respects_step; [respects_step|apply write_respects, _].
Qed.

(** *** One format *)

Lemma export_one_spec cfg result base fmt exported (st : State E) :
  export_one cfg result base fmt exported st =
  (Ok (exported ++ path_of (attempt_of cfg result base fmt st)),
   (export_one cfg result base fmt [] st).2).
Proof.
  unfold export_one, attempt_of. unfold_m.
  destruct (exporter_for fmt) as [export_fmt|]; [|by rewrite app_nil_r].
  destruct (export_fmt cfg result base st) as [[path|e] st1]; simpl; [done|].
  by rewrite app_nil_r.
Qed.

Lemma exporter_for_None fmt :
  exporter_for (E := E) fmt = None -> fmt ∉ ["json"; "txt"; "srt"].
Proof.
  unfold exporter_for. intros Hfor Hin.
  repeat (apply elem_of_cons in Hin as [->|Hin]; [discriminate Hfor|]).
  by apply elem_of_nil in Hin.
Qed.

Lemma exporter_for_known fmt :
  fmt ∈ ["json"; "txt"; "srt"] -> is_Some (exporter_for (E := E) fmt).
Proof.
  intros Hin. destruct (exporter_for fmt) eqn:Hfor; [by eexists|].
  by apply exporter_for_None in Hfor.
Qed.

Lemma export_one_recorded cfg result base fmt exported (st : State E) :
  attempt_recorded fmt (attempt_of cfg result base fmt st)
    (export_one cfg result base fmt exported st).2.
Proof.
  unfold export_one, attempt_of, attempt_recorded. unfold_m.
  destruct (exporter_for fmt) as [export_fmt|] eqn:Hfor; simpl.
  - destruct (export_fmt cfg result base st) as [[path|e] st1] eqn:Hrun; simpl.
    + split; [by eapply exported_file_exists|].
      apply elem_of_app. right. by apply list_elem_of_singleton.
    + apply elem_of_app. right. by apply list_elem_of_singleton.
  - split; [by apply exporter_for_None|].
    apply elem_of_app. right. by apply list_elem_of_singleton.
Qed.

Lemma attempt_recorded_later fmt a (st st' : State E) :
  emits stage_event st st' -> keeps_files st st' ->
  attempt_recorded fmt a st -> attempt_recorded fmt a st'.
Proof.
  intros (evs & Htrace & _) Hfiles. unfold attempt_recorded.
  destruct a as [|path|e]; rewrite Htrace.
  - intros [Hname Hlog]. split; [done|]. apply elem_of_app. by left.
  - intros [Hfile Hlog]. split; [by apply Hfiles|]. apply elem_of_app. by left.
  - intros Hlog. apply elem_of_app. by left.
Qed.

(** *** The loop over the formats *)

Lemma attempts_formats cfg result base formats : forall st : State E,
  (attempts cfg result base formats st).*1 = formats.
Proof.
  induction formats as [|fmt formats IH]; intros st; simpl; [done|].
  by rewrite IH.
Qed.

Lemma export_loop_cons cfg result base fmt formats exported (st : State E) :
  export_loop cfg result base (fmt :: formats) exported st =
  export_loop cfg result base formats
    (exported ++ path_of (attempt_of cfg result base fmt st))
    (export_one cfg result base fmt [] st).2.
Proof. simpl. unfold bind. by rewrite export_one_spec. Qed.

Lemma export_loop_spec cfg result base formats : forall exported (st : State E),
  let out := export_loop cfg result base formats exported st in
  let tried := attempts cfg result base formats st in
  out.1 = Ok (exported ++ omap written tried) /\
  forall fmt a, (fmt, a) ∈ tried -> attempt_recorded fmt a out.2.
Proof.
  induction formats as [|fmt formats IH]; intros exported st.
  - simpl. split; [by rewrite app_nil_r|].
    intros fmt a Hin. by apply elem_of_nil in Hin.
  - cbv zeta. rewrite export_loop_cons. simpl attempts.
    set (st1 := (export_one cfg result base fmt [] st).2).
    set (a0 := attempt_of cfg result base fmt st).
    destruct (IH (exported ++ path_of a0) st1) as [Hout Hrec].
    split.
    + rewrite Hout, <- app_assoc. f_equal.
      simpl. unfold written at 2. simpl. by destruct a0.
    + intros fmt' a Hin. apply elem_of_cons in Hin as [Heq|Hin]; [|by apply Hrec].
      simplify_eq. fold a0.
      apply (attempt_recorded_later _ a0 st1).
      * apply (export_loop_respects (emits stage_event)).
      * apply (export_loop_respects keeps_files).
      * apply export_one_recorded.
Qed.

End WithExternal.

(** *** Success of the text and subtitle exporters *)

Section Success.
Context {E : External}.

(** A loop that renders and writes succeeds when every rendering does. *)
Lemma render_loop_ok {A} (path : Path) (render : A -> res string) (l : list A) :
  forall st : State E,
    is_ok (for_each l (fun x => bind (lift (render x)) (write path)) st).1
    = forallb (fun x => is_ok (render x)) l.
Proof.
  induction l as [|x l IH]; intros st; simpl; [done|].
  unfold bind at 1. unfold bind at 1. unfold lift, write, set_fs.
  destruct (render x) as [text|e]; simpl; [apply IH|done].
Qed.

Lemma for_each_ext {A} (l : list A) (body body' : A -> M E unit) :
  (forall x st, body x st = body' x st) ->
  forall st, for_each l body st = for_each l body' st.
Proof.
  intros Hext. induction l as [|x l IH]; intros st; simpl; [done|].
  unfold bind. rewrite Hext. destruct (body' x st) as [[[]|e] st1]; [apply IH|done].
Qed.

Lemma after_open_ok {A} (path : Path) (rest : M E unit) (a : A) (st : State E) :
  is_ok (bind (open_w path) (fun _ => bind rest (fun _ => ret a)) st).1
  = is_ok (ext_open_w E path (world st)).1 &&
    is_ok (rest (mkState (ext_open_w E path (world st)).2 (<[path:=EmptyString]> (fs st))
                   (stats st) (trace st ++ [EvCall (COpen path)]))).1.
Proof.
  unfold open_w. unfold_m.
  destruct (ext_open_w E path (world st)) as [[[]|e] w]; simpl; [|done].
  by destruct (rest _) as [[[]|e] st1].
Qed.

Lemma export_txt_ok cfg result base (st : State E) :
  is_ok (export_txt cfg result base st).1
  = is_ok (ext_open_w E (joinpath (parent base) (stem base +:+ ".txt")) (world st)).1 &&
    forallb (fun seg => is_ok (txt_line cfg seg)) (segments_of result).
Proof.
  unfold export_txt. rewrite after_open_ok. f_equal.
  apply render_loop_ok.
Qed.

Lemma export_srt_ok cfg result base (st : State E) :
  is_ok (export_srt cfg result base st).1
  = is_ok (ext_open_w E (joinpath (parent base) (stem base +:+ ".srt")) (world st)).1 &&
    forallb (fun x => is_ok (srt_cue x.1 x.2))
      (imap (fun i segment => (S i, segment)) (segments_of result)).
Proof.
  unfold export_srt. rewrite after_open_ok. f_equal.
  erewrite for_each_ext;
    [apply (render_loop_ok (joinpath (parent base) (stem base +:+ ".srt"))
              (fun x => srt_cue x.1 x.2))|].
  by intros [i segment] st'.
Qed.

Lemma txt_lines_erased cfg (segs segs' : list Segment) :
  Forall2 erased segs segs' ->
  forallb (fun seg => is_ok (txt_line cfg seg)) segs = true ->
  forallb (fun seg => is_ok (txt_line cfg seg)) segs' = true.
Proof.
  induction 1 as [|seg seg' segs segs' Hseg _ IH]; [done|]. simpl.
  intros [Hhead Htail]%andb_prop.
  apply andb_true_intro. split; [by eapply RenderFacts.txt_line_erased|by apply IH].
Qed.

Lemma srt_cues_erased (segs segs' : list Segment) :
  Forall2 erased segs segs' ->
  forall number : nat -> nat,
    forallb (fun x => is_ok (srt_cue x.1 x.2))
      (imap (fun i segment => (number i, segment)) segs) = true ->
    forallb (fun x => is_ok (srt_cue x.1 x.2))
      (imap (fun i segment => (number i, segment)) segs') = true.
Proof.
  induction 1 as [|seg seg' segs segs' Hseg _ IH]; intros number; [done|]. simpl.
  intros [Hhead Htail]%andb_prop.
  apply andb_true_intro. split; [by eapply RenderFacts.srt_cue_erased|].
  by apply (IH (number ∘ S)).
Qed.

(** C9 (amended).  A segment without a speaker is written by the text
    exporter without the speaker prefix.  A segment without [start]
    and [end] is written with both times taken as zero - [00:00] in a
    text line when timestamps are enabled, [00:00:00,000] in a
    subtitle cue - not with the times left out.  Neither absence makes
    an export fail: removing the speaker, the start or the end of any
    segments of a result that the text or the subtitle exporter
    writes leaves a result that it writes as well. *)
Theorem exporters_tolerate_missing_fields (cfg : Settings)
    (result result' : Result) (base : Path) (st : State E) :
  erased_result result result' ->
  (is_ok (export_txt cfg result base st).1 = true ->
   is_ok (export_txt cfg result' base st).1 = true) /\
  (is_ok (export_srt cfg result base st).1 = true ->
   is_ok (export_srt cfg result' base st).1 = true) /\
  (forall seg, seg_speaker seg = None ->
     txt_line cfg seg =
     res_bind
       (if txt_include_timestamps cfg then
          res_bind (TimeFormat._format_timestamp (default (PyNum.Int 0) (seg_start seg)))
            (fun start =>
             res_bind (TimeFormat._format_timestamp (default (PyNum.Int 0) (seg_end seg)))
               (fun end_ => Ok ["[" +:+ start +:+ " -> " +:+ end_ +:+ "]"]))
        else Ok [])
       (fun timestamp_part =>
          Ok (PyStr.join " "
                (timestamp_part ++ [PyStr.strip (default EmptyString (seg_text seg))])
              +:+ PyStr.nl))) /\
  (forall i seg, seg_start seg = None -> seg_end seg = None ->
     srt_cue i seg =
       Ok (pretty i +:+ PyStr.nl +:+ "00:00:00,000 --> 00:00:00,000" +:+ PyStr.nl +:+
           PyStr.strip (default EmptyString (seg_text seg)) +:+ PyStr.nl +:+ PyStr.nl) /\
     txt_line cfg seg =
       Ok (PyStr.join " "
             (match seg_speaker seg with
              | Some sp => if txt_include_speakers cfg then ["[" +:+ sp +:+ "]"] else []
              | None => []
              end ++
              (if txt_include_timestamps cfg then ["[00:00 -> 00:00]"] else []) ++
              [PyStr.strip (default EmptyString (seg_text seg))])
           +:+ PyStr.nl)).
Proof.
  intros [_ Herased].
  split; [|split; [|split]].
  - rewrite !export_txt_ok. intros [Hopen Hlines]%andb_prop.
    apply andb_true_intro. split; [done|]. by eapply txt_lines_erased.
  - rewrite !export_srt_ok. intros [Hopen Hcues]%andb_prop.
    apply andb_true_intro. split; [done|]. by eapply (srt_cues_erased _ _ Herased S).
  - intros seg Hspeaker. by apply RenderFacts.txt_line_without_speaker.
  - intros i seg Hstart Hend.
    split; [by apply RenderFacts.srt_cue_without_times
           |by apply RenderFacts.txt_line_without_times].
Qed.

End Success.

Lemma exporters_tolerate_missing_fields_witness :
  let E := Fake.collaborators Fake.never Fake.never Fake.one_segment in
  let st := Pipeline.initial (E := E) tt ∅ in
  erased_result two_segments two_segments_erased /\
  is_ok (export_srt with_timestamps two_segments ["out"; "a."] st).1 = true /\
  is_ok (export_srt with_timestamps two_segments_erased ["out"; "a."] st).1 = true.
Proof.
  intros E st.
  assert (Herased : erased_result two_segments two_segments_erased).
  { split; [reflexivity|].
    constructor; [|constructor; [|constructor]].
    - repeat split; by left.
    - split; [reflexivity|]. repeat split; by right. }
  assert (Hok : is_ok (export_srt with_timestamps two_segments
                         ["out"; "a."] st).1 = true) by (vm_compute; reflexivity).
  split; [exact Herased|]. split; [exact Hok|].
  exact (proj1 (proj2 (exporters_tolerate_missing_fields with_timestamps
                         two_segments two_segments_erased ["out"; "a."] st Herased)) Hok).
Defined.

(** The exporter in a world that refuses to open the text file. *)
Example export_skips_unknown_and_refused :
  let E := Fake.collaborators Fake.never
             (fun p => bool_decide (p = ["out"; "a_transcricao..txt"])) Fake.one_segment in
  let st := Pipeline.initial (E := E) tt ∅ in
  let out := export (Fake.settings [] false) Fake.one_segment ["out"; "a_transcricao."]
               ["xml"; "txt"; "json"] st in
  out.1 = Ok [["out"; "a_transcricao..json"]] /\
  trace out.2 =
    [EvLog WARNING (MUnknownFormat "xml");
     EvCall (COpen ["out"; "a_transcricao..txt"]);
     EvLog ERROR (MExportError "txt" OSError);
     EvCall (COpen ["out"; "a_transcricao..json"]);
     EvCall CJsonDump;
     EvLog INFO (MExported "a_transcricao..json")].
Proof. vm_compute. split; reflexivity. Qed.

End ExportFacts.

(** ** The pipeline *)

Module PipelineFacts.
Import Pathlib Observe MonadFacts Pipeline.

Lemma tally_counts (os : list Outcome) : forall s,
  tally os s =
  mkStats (total s)
          (success s + count is_completed os + count is_skipped os)
          (failed s + count is_failed os)
          (skipped s + count is_skipped os).
Proof.
  unfold count.
  induction os as [|o os IH]; intros [t su fa sk]; simpl.
  - f_equal; lia.
  - rewrite IH. destruct o; simpl; f_equal; lia.
Qed.

Lemma count_total (os : list Outcome) :
  (count is_completed os + count is_skipped os + count is_failed os = List.length os)%nat.
Proof.
  unfold count. induction os as [|[| |e] os IH]; simpl; lia.
Qed.

Section WithExternal.
Context {E : External}.

(** *** The stages of one file *)

Lemma load_audio_respects (R : relation (State E)) `{!StageRel R} fh audio_path :
  respects R (FileHandler.load_audio (E := E) fh audio_path).
Proof. unfold FileHandler.load_audio. respects_auto. Qed.

Lemma transcribe_respects (R : relation (State E)) `{!StageRel R} self audio :
  respects R (_transcribe (E := E) self audio).
Proof. unfold _transcribe. respects_auto. Qed.

Lemma align_respects (R : relation (State E)) `{!StageRel R} self audio result :
  respects R (_align (E := E) self audio result).
Proof. unfold _align. respects_auto. Qed.

Lemma diarize_respects (R : relation (State E)) `{!StageRel R} self audio_path result :
  respects R (_diarize (E := E) self audio_path result).
Proof. unfold _diarize. respects_auto. Qed.

Lemma process_steps_respects (R : relation (State E)) `{!StageRel R} self audio_path :
  respects R (_process_steps (E := E) self audio_path).
Proof.
  unfold _process_steps.
  respects_step; [apply load_audio_respects, _|].
  respects_step; [apply transcribe_respects, _|].
  respects_step; [destruct (alignment_enabled _);
                  [apply align_respects, _|respects_step]|].
  respects_step; [destruct (diarization_enabled _);
                  [apply diarize_respects, _|respects_step]|].
  respects_step; [apply ExportFacts.export_respects, _|].
  respects_auto.
Qed.

(** *** One file *)

Lemma process_file_skips self audio_path (st : State E) :
  skips self audio_path st = true ->
  _process_file self audio_path st =
  (Ok tt,
   mkState (world st) (fs st) (incr_skipped (stats st))
     (trace st ++ [processing audio_path; EvLog INFO (MSkipping (name audio_path))])).
Proof.
  unfold skips, _process_file. intros Hskip. unfold_m. simpl.
  rewrite Hskip. simpl. by rewrite <- app_assoc.
Qed.

Lemma process_file_proceeds self audio_path (st : State E) :
  skips self audio_path st = false ->
  _process_file self audio_path st =
  _process_steps self audio_path
    (mkState (world st) (fs st) (stats st) (trace st ++ [processing audio_path])).
Proof.
  unfold skips, _process_file. intros Hskip. unfold_m. simpl.
  by rewrite Hskip.
Qed.

Lemma run_file_spec self audio_file (st : State E) :
  exists st' evs,
    run_file self audio_file st = (Ok tt, st') /\
    stats st' = bump (outcome_of self audio_file st) (stats st) /\
    trace st' = trace st ++ processing audio_file :: evs /\
    Forall stage_event evs.
Proof.
  unfold run_file, outcome_of. fold (skips self audio_file st).
  destruct (skips self audio_file st) eqn:Hskip.
  - unfold try_except, bind. rewrite (process_file_skips _ _ _ Hskip). simpl.
    eexists _, [EvLog INFO (MSkipping (name audio_file))].
    split; [reflexivity|]. simpl.
    split; [done|]. split; [done|].
    by apply Forall_singleton.
  - unfold try_except, bind. rewrite (process_file_proceeds _ _ _ Hskip).
    set (st0 := mkState (world st) (fs st) (stats st)
                  (trace st ++ [processing audio_file])).
    pose proof (process_steps_respects same_stats self audio_file st0) as Hstats.
    pose proof (process_steps_respects (emits stage_event) self audio_file st0)
      as (evs & Htrace & Hevs).
    destruct (_process_steps self audio_file st0) as [[[]|e] st1]; simpl in *.
    + eexists _, evs. split; [reflexivity|]. simpl.
      rewrite Hstats, Htrace, <- app_assoc. done.
    + eexists _, (evs ++ [EvLog ERROR (MFileError (name audio_file) e)]).
      split; [reflexivity|]. simpl.
      rewrite Hstats, Htrace, <- !app_assoc.
      split; [done|]. split; [done|].
      apply Forall_app. split; [done|]. by apply Forall_singleton.
Qed.

(** *** The loop over the files *)

Lemma stage_event_not_run_level ev : stage_event ev -> run_level ev = false.
Proof. by intros [? ?]. Qed.

Lemma filter_stage_events evs :
  Forall stage_event evs -> List.filter is_processing evs = [].
Proof.
  induction 1 as [|ev evs [_ Hev] _ IH]; simpl; [done|]. by rewrite Hev.
Qed.

Lemma loop_spec self audio_files : forall st : State E,
  exists st' evs,
    for_each audio_files (run_file self) st = (Ok tt, st') /\
    stats st' = tally (outcomes self audio_files st) (stats st) /\
    trace st' = trace st ++ evs /\
    Forall (fun ev => run_level ev = false) evs /\
    List.filter is_processing evs = List.map processing audio_files.
Proof.
  induction audio_files as [|f files IH]; intros st; simpl.
  - exists st, []. by rewrite app_nil_r.
  - destruct (run_file_spec self f st) as (st1 & evs1 & Hrun & Hstats & Htrace & Hevs).
    unfold bind. rewrite Hrun. simpl.
    destruct (IH st1) as (st' & evs & Hloop & Hstats' & Htrace' & Hevs' & Hfiles).
    exists st', (processing f :: evs1 ++ evs).
    split; [done|].
    split; [by rewrite Hstats', Hstats|].
    split; [by rewrite Htrace', Htrace, <- app_assoc|].
    split.
    + apply Forall_cons. split; [done|].
      apply Forall_app. split; [|done].
      eapply Forall_impl; [exact Hevs|]. apply stage_event_not_run_level.
    + simpl. f_equal. rewrite List.filter_app, (filter_stage_events _ Hevs). done.
Qed.

(** *** The run *)

Lemma run_unfold self (st : State E) w1 :
  loads self st w1 ->
  run self st =
  match FileHandler.find_audio_files (file_handler self) (loaded self st w1) with
  | (Raise e, st1) => (Raise e, st1)
  | (Ok [], st1) =>
      (Ok tt,
       mkState (world st1) (fs st1) (stats st1)
         (trace st1 ++ [EvLog WARNING MNothingToProcess]))
  | (Ok (f :: files), st1) =>
      match for_each (f :: files) (run_file self)
              (mkState (world st1) (fs st1)
                 (set_total (List.length (f :: files)) (stats st1)) (trace st1)) with
      | (Ok _, st2) => after_loop st2
      | (Raise e, st2) => (Raise e, st2)
      end
  end.
Proof.
  unfold loads, run, _print_stats, after_loop, loaded. intros Hload.
  unfold bind at 1. unfold logger at 1. unfold emit.
  unfold bind at 1. unfold call at 1. cbn [world fs stats trace].
  rewrite Hload. rewrite <- app_assoc. cbn [app].
  unfold bind at 1.
  destruct (FileHandler.find_audio_files _ _) as [[[|f files]|e] st1]; [done| |done].
  unfold bind at 1. unfold set_stats at 1.
  unfold bind at 1.
  destruct (for_each (f :: files) (run_file self) _) as [[[]|e] st2]; [|done].
  unfold bind, call, logger, emit. cbn [world fs stats trace].
  destruct (ext_cleanup E (world st2)) as [[[]|e] w2]; [|done].
  unfold get_stats. cbn [world fs stats trace]. by rewrite <- app_assoc.
Qed.

Lemma discovers_spec self (st : State E) w1 st1 :
  discovers self st w1 st1 ->
  FileHandler.find_audio_files (file_handler self) (loaded self st w1)
  = (Ok (FileHandler.audio_files_in (file_handler self) (fs st)), st1) /\
  fs st1 = fs st /\ stats st1 = stats st /\
  exists sizes,
    List.length sizes
    = List.length (FileHandler.audio_files_in (file_handler self) (fs st)) /\
    trace st1 =
    trace st ++
    EvLog INFO MStart ::
    EvCall (CLoadWhisperModel (whisper_model (config self)) (language (config self))) ::
    discovery_events (FileHandler.audio_files_in (file_handler self) (fs st)) sizes.
Proof.
  intros [audio_files Hfound].
  pose proof (FileHandlerFacts.find_audio_files_result (file_handler self)
                (loaded self st w1) audio_files) as Hresult.
  rewrite Hfound in Hresult. specialize (Hresult eq_refl). simpl in Hresult.
  subst audio_files. split; [done|].
  destruct (FileHandlerFacts.find_audio_files_spec (file_handler self) (loaded self st w1))
    as (Hfs & Hstats & _ & evs & Htrace & _ & Hsizes).
  rewrite Hfound in Hfs, Hstats, Htrace, Hsizes. simpl in Hfs, Hstats, Htrace, Hsizes.
  split; [done|]. split; [done|].
  destruct (Hsizes eq_refl) as (sizes & Hlen & ->).
  exists sizes. split; [done|]. by rewrite Htrace, <- app_assoc.
Qed.

Lemma at_loop_stats self (st : State E) w1 st1 :
  discovers self st w1 st1 ->
  stats (at_loop self st1)
  = set_total (List.length (FileHandler.audio_files_in (file_handler self) (fs st)))
      (stats st).
Proof.
  intros Hfound. destruct (discovers_spec _ _ _ _ Hfound) as (_ & Hfs & Hstats & _).
  unfold at_loop. cbn [stats]. by rewrite Hfs, Hstats.
Qed.

Lemma run_without_files self (st : State E) w1 :
  loads self st w1 ->
  FileHandler.audio_files_in (file_handler self) (fs st) = [] ->
  run self st =
  (Ok tt,
   mkState w1 (fs st) (stats st)
     (trace st ++
      [EvLog INFO MStart;
       EvCall (CLoadWhisperModel (whisper_model (config self)) (language (config self)));
       EvLog WARNING MNoAudioFound;
       EvLog WARNING MNothingToProcess])).
Proof.
  intros Hload Hnone. rewrite (run_unfold _ _ _ Hload).
  unfold FileHandler.find_audio_files, loaded. unfold_m. simpl. rewrite Hnone. simpl.
  by rewrite <- !app_assoc.
Qed.

Lemma run_discovery_raises self (st : State E) w1 e st1 :
  loads self st w1 ->
  discovery_raises self st w1 e st1 ->
  run self st = (Raise e, st1).
Proof.
  unfold discovery_raises. intros Hload Hraises.
  by rewrite (run_unfold _ _ _ Hload), Hraises.
Qed.

Lemma discovery_cases self (st : State E) w1 :
  (exists st1, discovers self st w1 st1) \/
  (exists e st1,
     discovery_raises self st w1 e st1 /\ fs st1 = fs st /\ stats st1 = stats st /\
     exists evs,
       Forall (fun ev => of_discovery ev = true) evs /\
       trace st1 =
       trace st ++
       [EvLog INFO MStart;
        EvCall (CLoadWhisperModel (whisper_model (config self)) (language (config self)))]
       ++ evs).
Proof.
  unfold discovers, discovery_raises.
  destruct (FileHandlerFacts.find_audio_files_spec (file_handler self) (loaded self st w1))
    as (Hfs & Hstats & _ & evs & Htrace & Hevs & _).
  destruct (FileHandler.find_audio_files (file_handler self) (loaded self st w1))
    as [[l|e] st1]; simpl in *.
  - left. by exists st1, l.
  - right. exists e, st1. split; [done|]. split; [done|]. split; [done|].
    exists evs. split; [done|]. by rewrite Htrace, <- app_assoc.
Qed.

Lemma run_with_files self (st : State E) w1 st1 :
  loads self st w1 ->
  discovers self st w1 st1 ->
  FileHandler.audio_files_in (file_handler self) (fs st) <> [] ->
  exists st2,
    for_each (FileHandler.audio_files_in (file_handler self) (fs st)) (run_file self)
      (at_loop self st1) = (Ok tt, st2) /\
    run self st = after_loop st2.
Proof.
  intros Hload Hfound Hsome.
  destruct (discovers_spec _ _ _ _ Hfound) as (Hfiles & Hfs & _).
  destruct (loop_spec self (FileHandler.audio_files_in (file_handler self) (fs st))
              (at_loop self st1)) as (st2 & evs & Hloop & _).
  exists st2. split; [exact Hloop|].
  rewrite (run_unfold _ _ _ Hload), Hfiles.
  assert (Hat : at_loop self st1 =
            mkState (world st1) (fs st1)
              (set_total
                 (List.length (FileHandler.audio_files_in (file_handler self) (fs st)))
                 (stats st1))
              (trace st1)) by (unfold at_loop; by rewrite Hfs).
  rewrite Hat in Hloop.
  destruct (FileHandler.audio_files_in (file_handler self) (fs st))
    as [|f files]; [done|].
  by rewrite Hloop.
Qed.

Lemma after_loop_stats (st2 : State E) : stats (after_loop st2).2 = stats st2.
Proof. unfold after_loop. by destruct (ext_cleanup E (world st2)) as [[[]|e] w2]. Qed.

Lemma after_loop_trace (st2 : State E) :
  trace (after_loop st2).2 =
  trace st2 ++ EvCall CCleanup ::
    match (after_loop st2).1 with
    | Ok _ => [EvLog INFO (MStats (stats (after_loop st2).2))]
    | Raise _ => []
    end.
Proof. unfold after_loop. by destruct (ext_cleanup E (world st2)) as [[[]|e] w2]. Qed.

Lemma failed_file_is_there (os : list Outcome) :
  count is_failed os = 1%nat -> os <> [].
Proof. by destruct os. Qed.

Lemma outcomes_length self audio_files : forall st : State E,
  List.length (outcomes self audio_files st) = List.length audio_files.
Proof.
  induction audio_files as [|f files IH]; intros st; simpl; [done|]. by rewrite IH.
Qed.

Lemma discovery_events_of_discovery (audio_files : list Path) (sizes : list Z) :
  Forall (fun ev => of_discovery ev = true) (discovery_events audio_files sizes).
Proof.
  unfold discovery_events. destruct audio_files as [|f files]; [by repeat constructor|].
  constructor; [done|].
  induction (zip (f :: files) sizes) as [|x xs IH]; simpl; [done|].
  by repeat constructor.
Qed.

Lemma of_discovery_not_processing evs :
  Forall (fun ev => of_discovery ev = true) evs -> List.filter is_processing evs = [].
Proof.
  induction 1 as [|ev evs Hev _ IH]; simpl; [done|].
  by destruct ev as [[]|? []].
Qed.

Lemma of_discovery_run_level ev : of_discovery ev = true -> run_level ev = true.
Proof. by destruct ev as [[]|? []]. Qed.

(** C7.  With [skip_existing] enabled and the resolved output path of
    every configured format present, [_process_file] returns at once:
    it leaves the world of the collaborators and the file system as
    they were, adds one to [skipped], and records the two log lines
    and nothing else - no call that loads audio and no call that
    transcribes. *)
Theorem skip_existing_short_circuits (self : t) (audio_path : Path) (st : State E) :
  skip_existing (config self) = true ->
  FileHandler.output_exists (file_handler self) (fs st) audio_path
    (output_formats (config self)) = true ->
  _process_file self audio_path st =
    (Ok tt,
     mkState (world st) (fs st) (incr_skipped (stats st))
       (trace st ++ [processing audio_path;
                     EvLog INFO (MSkipping (name audio_path))])) /\
  skipped (stats (_process_file self audio_path st).2) = S (skipped (stats st)) /\
  exists evs,
    trace (_process_file self audio_path st).2 = trace st ++ evs /\
    Forall (fun ev => loads_or_transcribes ev = false) evs.
Proof.
  intros Hflag Hexists.
  assert (Hskip : skips self audio_path st = true)
    by (unfold skips; by rewrite Hflag, Hexists).
  rewrite (process_file_skips _ _ _ Hskip). simpl.
  split; [done|]. split; [done|].
  eexists. split; [reflexivity|]. by repeat constructor.
Qed.

(** C3.  In a run whose model loads, whose discovery returns and in
    which exactly one of the discovered files raises during its
    processing, that file alone is counted as failed, every other
    file is counted as a success, and the processing of every
    discovered file, those after the failing one included, is begun,
    in the order of discovery. *)
Theorem run_isolates_a_failing_file (self : t) (st : State E) (w1 : World E)
    (st1 : State E) :
  loads self st w1 ->
  discovers self st w1 st1 ->
  let audio_files := FileHandler.audio_files_in (file_handler self) (fs st) in
  count is_failed (outcomes self audio_files (at_loop self st1)) = 1%nat ->
  let st' := (run self st).2 in
  total (stats st') = List.length audio_files /\
  failed (stats st') = S (failed (stats st)) /\
  (success (stats st') + 1 = success (stats st) + List.length audio_files)%nat /\
  skipped (stats st') =
    (skipped (stats st) +
     count is_skipped (outcomes self audio_files (at_loop self st1)))%nat /\
  exists evs,
    trace st' = trace st ++ evs /\
    List.filter is_processing evs = List.map processing audio_files.
Proof.
  intros Hload Hfound audio_files Hone st'.
  assert (Hsome : audio_files <> []).
  { intros Hnil. apply failed_file_is_there in Hone. by rewrite Hnil in Hone. }
  destruct (run_with_files self st w1 st1 Hload Hfound Hsome) as (st2 & Hloop & Hrun).
  destruct (discovers_spec _ _ _ _ Hfound)
    as (_ & Hfs & Hstats1 & sizes & _ & Htrace1).
  destruct (loop_spec self audio_files (at_loop self st1))
    as (st2' & evs & Hloop' & Hstats & Htrace & _ & Hfiles).
  fold audio_files in Hloop. rewrite Hloop in Hloop'. simplify_eq.
  subst st'. rewrite Hrun, after_loop_stats, after_loop_trace.
  rewrite Hstats, tally_counts, (at_loop_stats _ _ _ _ Hfound). fold audio_files.
  cbn [stats total success failed skipped set_total].
  pose proof (count_total (outcomes self audio_files (at_loop self st1))) as Hall.
  rewrite outcomes_length in Hall.
  split; [done|]. split; [lia|]. split; [lia|]. split; [done|].
  rewrite Htrace. unfold at_loop at 1. cbn [trace]. rewrite Htrace1.
  fold audio_files. rewrite <- !app_assoc.
  eexists. split; [reflexivity|].
  cbn [app List.filter is_processing].
  rewrite !List.filter_app, Hfiles.
  rewrite (of_discovery_not_processing _ (discovery_events_of_discovery _ _)).
  simpl. by destruct ((after_loop st2').1); rewrite app_nil_r.
Qed.

(** C4 (amended).  A run whose model loads performs, in this order:
    the start record, the one load of the transcription model, the
    one discovery.  When the discovery raises, the run ends there
    with that exception.  When it returns files, the run processes
    them, each in its turn and in the order of discovery, calls the
    cleanup whatever became of the files, and, the cleanup having
    returned, logs the statistics.  When it returns no file, the run
    logs its warning and returns: neither the cleanup nor the
    statistics follow. *)
Theorem run_sequence (self : t) (st : State E) (w1 : World E) :
  loads self st w1 ->
  let audio_files := FileHandler.audio_files_in (file_handler self) (fs st) in
  let start := [EvLog INFO MStart;
                EvCall (CLoadWhisperModel (whisper_model (config self))
                                          (language (config self)))] in
  let found := FileHandler.find_audio_files (file_handler self) (loaded self st w1) in
  let out := run self st in
  match found.1, audio_files with
  | Raise e, _ =>
      out = (Raise e, found.2) /\
      exists evs,
        Forall (fun ev => of_discovery ev = true) evs /\
        trace out.2 = trace st ++ start ++ evs
  | Ok _, [] =>
      out = (Ok tt,
             mkState w1 (fs st) (stats st)
               (trace st ++ start ++
                [EvLog WARNING MNoAudioFound; EvLog WARNING MNothingToProcess]))
  | Ok _, _ :: _ =>
      exists sizes evs,
        List.length sizes = List.length audio_files /\
        Forall (fun ev => run_level ev = false) evs /\
        List.filter is_processing evs = List.map processing audio_files /\
        trace out.2 =
          trace st ++ start ++
          discovery_events audio_files sizes ++
          evs ++
          EvCall CCleanup ::
          match out.1 with
          | Ok _ => [EvLog INFO (MStats (stats out.2))]
          | Raise _ => []
          end
  end.
Proof.
  intros Hload audio_files start found out.
  destruct (found.1) as [l|e] eqn:Hresult.
  - assert (Hfound : discovers self st w1 found.2).
    { exists l. subst found. rewrite <- Hresult. by destruct (FileHandler.find_audio_files _ _). }
    subst audio_files.
    destruct (FileHandler.audio_files_in (file_handler self) (fs st))
      as [|f files] eqn:Hfiles.
    + by apply run_without_files.
    + assert (Hsome : FileHandler.audio_files_in (file_handler self) (fs st) <> [])
        by (by rewrite Hfiles).
      destruct (run_with_files self st w1 _ Hload Hfound Hsome) as (st2 & Hloop & Hrun).
      destruct (discovers_spec _ _ _ _ Hfound) as (_ & _ & _ & sizes & Hlen & Htrace1).
      destruct (loop_spec self (FileHandler.audio_files_in (file_handler self) (fs st))
                  (at_loop self found.2))
        as (st2' & evs & Hloop' & _ & Htrace & Hevs & Hprocessing).
      rewrite Hloop in Hloop'. simplify_eq.
      rewrite Hfiles in Hprocessing, Hlen, Htrace1.
      exists sizes, evs.
      split; [done|]. split; [done|]. split; [done|].
      subst out. rewrite Hrun, after_loop_trace, Htrace.
      unfold at_loop. cbn [trace]. rewrite Htrace1.
      by rewrite <- !app_assoc.
  - assert (Hraises : discovery_raises self st w1 e found.2).
    { unfold discovery_raises. subst found. rewrite <- Hresult.
      by destruct (FileHandler.find_audio_files _ _). }
    subst out. rewrite (run_discovery_raises _ _ _ _ _ Hload Hraises).
    destruct audio_files; (split; [done|]);
      destruct (FileHandlerFacts.find_audio_files_spec (file_handler self) (loaded self st w1))
        as (_ & _ & _ & evs & Htrace & Hevs & _);
      exists evs; (split; [done|]);
      fold found in Htrace; cbn [snd]; rewrite Htrace; unfold loaded; cbn [trace];
      by rewrite <- !app_assoc.
Qed.

(** C10 (amended).  In a run from fresh statistics whose model loads
    and whose discovery returns at least one file, each file adds one
    to exactly one of [success] and [failed], so that in the end
    their sum is [total]; a skipped file adds one to [skipped] and
    one to [success], so that [skipped] is the number of skipped
    files, [success] the number of skipped and completed files, and
    the sum of the three counts exceeds [total] as soon as a file is
    skipped. *)
Theorem run_statistics_balance (self : t) (w w1 : World E)
    (files : gmap (list string) string) (st1 : State E) :
  let st := initial w files in
  loads self st w1 ->
  discovers self st w1 st1 ->
  let audio_files := FileHandler.audio_files_in (file_handler self) files in
  audio_files <> [] ->
  let os := outcomes self audio_files (at_loop self st1) in
  let s := stats (run self st).2 in
  (success s + failed s = total s)%nat /\
  total s = List.length audio_files /\
  skipped s = count is_skipped os /\
  success s = (count is_skipped os + count is_completed os)%nat /\
  failed s = count is_failed os /\
  (0 < count is_skipped os -> total s < success s + failed s + skipped s)%nat.
Proof.
  intros st Hload Hfound audio_files Hsome os s.
  destruct (run_with_files self st w1 st1 Hload Hfound Hsome) as (st2 & Hloop & Hrun).
  destruct (discovers_spec _ _ _ _ Hfound) as (_ & Hfs & Hstats1 & _).
  destruct (loop_spec self audio_files (at_loop self st1))
    as (st2' & evs & Hloop' & Hstats & _).
  change (fs st) with files in Hloop. fold audio_files in Hloop.
  rewrite Hloop in Hloop'. simplify_eq.
  subst s. rewrite Hrun, after_loop_stats, Hstats, tally_counts.
  rewrite (at_loop_stats _ _ _ _ Hfound). simpl. fold audio_files.
  fold os. pose proof (count_total os) as Hall.
  subst os. rewrite outcomes_length in Hall.
  repeat split; lia.
Qed.

End WithExternal.
End PipelineFacts.

(** ** Scenarios *)

Module Scenarios.
Import Pathlib Observe Pipeline PipelineFacts Samples.

(** Three files, the second of which raises during transcription. *)
Example three_files_second_fails :
  let out := run all_formats (initial (E := b_fails) tt three_files) in
  out.1 = Ok tt /\
  stats out.2 = mkStats 3 2 1 0 /\
  List.filter is_processing (trace out.2)
    = [EvLog INFO (MProcessing "a.wav"); EvLog INFO (MProcessing "b.wav");
       EvLog INFO (MProcessing "c.wav")] /\
  List.filter loads_or_transcribes (trace out.2)
    = [EvCall (CLoadAudio ["data"; "input"; "a.wav"]); EvCall CTranscribe;
       EvCall (CLoadAudio ["data"; "input"; "b.wav"]); EvCall CTranscribe;
       EvCall (CLoadAudio ["data"; "input"; "c.wav"]); EvCall CTranscribe].
Proof. vm_compute. repeat split; reflexivity. Qed.

Lemma run_isolates_a_failing_file_witness :
  let st := initial (E := b_fails) tt three_files in
  let st1 := (FileHandler.find_audio_files (file_handler all_formats)
                (loaded all_formats st tt)).2 in
  let audio_files := FileHandler.audio_files_in (file_handler all_formats) (fs st) in
  let st' := (run all_formats st).2 in
  discovers all_formats st tt st1 /\
  count is_failed (outcomes all_formats audio_files (at_loop all_formats st1)) = 1%nat /\
  (total (stats st') = List.length audio_files /\
   failed (stats st') = S (failed (stats st)) /\
   (success (stats st') + 1 = success (stats st) + List.length audio_files)%nat /\
   skipped (stats st') =
     (skipped (stats st) +
      count is_skipped (outcomes all_formats audio_files (at_loop all_formats st1)))%nat /\
   exists evs,
     trace st' = trace st ++ evs /\
     List.filter is_processing evs = List.map processing audio_files).
Proof.
  intros st st1 audio_files st'.
  assert (Hfound : discovers all_formats st tt st1)
    by (exists audio_files; vm_compute; reflexivity).
  assert (Hone : count is_failed
                   (outcomes all_formats audio_files (at_loop all_formats st1)) = 1%nat)
    by (vm_compute; reflexivity).
  split; [exact Hfound|]. split; [exact Hone|].
  exact (run_isolates_a_failing_file all_formats st tt st1 eq_refl Hfound Hone).
Defined.

(** C4 (the claim as stated fails).  A run that discovers no file ends
    after its two warnings: the cleanup is not called and the
    statistics are not logged. *)
Lemma empty_run_has_no_cleanup :
  let out := run all_formats (initial (E := reliable) tt ∅) in
  out.1 = Ok tt /\
  trace out.2 =
    [EvLog INFO MStart; EvCall (CLoadWhisperModel "large-v2" "pt");
     EvLog WARNING MNoAudioFound; EvLog WARNING MNothingToProcess] /\
  ~ In (EvCall CCleanup) (trace out.2) /\
  (forall s, ~ In (EvLog INFO (MStats s)) (trace out.2)).
Proof.
  vm_compute. split; [reflexivity|]. split; [reflexivity|].
  split; [|intros s]; intros Hin;
    repeat (destruct Hin as [Hin|Hin]; [discriminate Hin|]); exact Hin.
Qed.

Lemma run_sequence_witness :
  let st := initial (E := b_fails) tt three_files in
  let audio_files := [["data"; "input"; "a.wav"]; ["data"; "input"; "b.wav"];
                      ["data"; "input"; "c.wav"]] in
  let out := run all_formats st in
  loads all_formats st tt /\
  exists sizes evs,
    List.length sizes = 3%nat /\
    Forall (fun ev => run_level ev = false) evs /\
    List.filter is_processing evs = List.map processing audio_files /\
    trace out.2 =
      trace st ++
      [EvLog INFO MStart; EvCall (CLoadWhisperModel "large-v2" "pt")] ++
      discovery_events audio_files sizes ++
      evs ++
      EvCall CCleanup ::
      match out.1 with
      | Ok _ => [EvLog INFO (MStats (stats out.2))]
      | Raise _ => []
      end.
Proof.
  intros st audio_files out. split; [reflexivity|].
  pose proof (run_sequence all_formats st tt eq_refl) as Hseq.
  assert (Hfiles : FileHandler.audio_files_in (file_handler all_formats) (fs st)
                   = audio_files) by (vm_compute; reflexivity).
  assert (Hfound : (FileHandler.find_audio_files (file_handler all_formats)
                      (loaded all_formats st tt)).1 = Ok audio_files)
    by (vm_compute; reflexivity).
  cbv zeta in Hseq. rewrite Hfiles, Hfound in Hseq. exact Hseq.
Defined.

Lemma skip_existing_short_circuits_witness :
  let st := initial (E := reliable) tt one_done in
  skip_existing (config json_skipping) = true /\
  FileHandler.output_exists (file_handler json_skipping) (fs st) a_wav
    (output_formats (config json_skipping)) = true /\
  _process_file json_skipping a_wav st =
    (Ok tt,
     mkState (world st) (fs st) (incr_skipped (stats st))
       (trace st ++ [processing a_wav; EvLog INFO (MSkipping (name a_wav))])).
Proof.
  intros st.
  assert (Hexists : FileHandler.output_exists (file_handler json_skipping) (fs st) a_wav
                      (output_formats (config json_skipping)) = true)
    by (vm_compute; reflexivity).
  split; [reflexivity|]. split; [exact Hexists|].
  exact (proj1 (skip_existing_short_circuits json_skipping a_wav st eq_refl Hexists)).
Defined.

(** Three files, the second of which cannot be reached: the exception
    of its [stat] leaves the discovery and the run; no file is
    processed, the cleanup is not called, the counts are untouched
    and no file is written. *)
Example a_file_out_of_reach_ends_the_run :
  let st := initial (E := b_out_of_reach) tt three_files in
  let out := run all_formats st in
  out.1 = Raise OSError /\
  stats out.2 = fresh_stats /\
  fs out.2 = fs st /\
  trace out.2 =
    [EvLog INFO MStart; EvCall (CLoadWhisperModel "large-v2" "pt");
     EvLog INFO (MFound 3);
     EvCall (CStat ["data"; "input"; "a.wav"]); EvLog INFO (MFileSize "a.wav" 1048576);
     EvCall (CStat ["data"; "input"; "b.wav"])].
Proof. vm_compute. repeat split; reflexivity. Qed.

(** Two files, the first skipped: it counts as skipped and as a success. *)
Example skipped_file_counts_twice :
  stats (run json_skipping (initial (E := reliable) tt one_done)).2 = mkStats 2 2 0 1.
Proof. vm_compute. reflexivity. Qed.

Lemma run_statistics_balance_witness :
  let st := initial (E := reliable) tt one_done in
  let st1 := (FileHandler.find_audio_files (file_handler json_skipping)
                (loaded json_skipping st tt)).2 in
  let audio_files := FileHandler.audio_files_in (file_handler json_skipping) one_done in
  let os := outcomes json_skipping audio_files (at_loop json_skipping st1) in
  let s := stats (run json_skipping st).2 in
  discovers json_skipping st tt st1 /\
  audio_files <> [] /\
  (0 < count is_skipped os)%nat /\
  (success s + failed s = total s)%nat /\
  (total s < success s + failed s + skipped s)%nat.
Proof.
  intros st st1 audio_files os s.
  assert (Hfound : discovers json_skipping st tt st1)
    by (exists audio_files; vm_compute; reflexivity).
  assert (Hsome : audio_files <> []) by (vm_compute; discriminate).
  assert (Hskipped : (0 < count is_skipped os)%nat) by (vm_compute; lia).
  pose proof (run_statistics_balance (E := reliable) json_skipping tt tt one_done st1
                eq_refl Hfound Hsome)
    as (Hsum & _ & _ & _ & _ & Hexceeds).
  split; [exact Hfound|]. split; [exact Hsome|]. split; [exact Hskipped|].
  split; [exact Hsum|exact (Hexceeds Hskipped)].
Defined.

(** C10 (the claim as stated fails).  The counts of a pipeline outlive
    its runs: [run] sets [total] anew and adds to the three others.  A
    second run of the same pipeline over the same two files ends
    with [total] 2 and [success] 4. *)
Lemma second_run_breaks_the_balance :
  let first := run json_skipping (initial (E := reliable) tt one_done) in
  let second := run json_skipping first.2 in
  let s := stats second.2 in
  first.1 = Ok tt /\ second.1 = Ok tt /\
  List.length (FileHandler.audio_files_in (file_handler json_skipping) (fs first.2))
    = 2%nat /\
  s = mkStats 2 4 0 2 /\
  (success s + failed s)%nat <> total s.
Proof. vm_compute. repeat split; try reflexivity. discriminate. Qed.

(** C1 (the code departs from the claim).  With the only format [json]
    and an empty output directory, processing [a.wav] writes the file
    [a_transcricao..json]: the base path handed to the exporter ends in
    a dot, which the stem keeps.  The path [get_output_path] resolves
    for [json], [a_transcricao.json], does not exist afterwards, and
    [output_exists] answers false. *)
Theorem export_writes_beside_the_resolved_path :
  let fh := file_handler json_skipping in
  let out := _process_file json_skipping a_wav (initial (E := reliable) tt ∅) in
  out.1 = Ok tt /\
  FileHandler.get_output_path fh a_wav "json" = ["data"; "output"; "a_transcricao.json"] /\
  map_to_list (fs out.2) = [(["data"; "output"; "a_transcricao..json"], "{}")] /\
  FileHandler.output_exists fh (fs out.2) a_wav ["json"] = false.
Proof. vm_compute. repeat split; reflexivity. Qed.

End Scenarios.

(** ** More on the configuration: item access and overrides *)

Module ConfigAccessFacts.
Import Config Subscript ConfigFacts Samples.

(** X1.  [Config.get] returns the value that the walk along the dotted
    key path reaches, and the default in exactly two cases: the walk
    fails, or it ends on a null.  A key that the file sets to null is
    thus read as if it were missing, and [get] never returns a null
    that is not the default itself. *)
Theorem get_reads_null_as_missing (_config : yaml) (key_path : string) (default : yaml) :
  get _config key_path default =
  match walk (PyStr.split "." key_path) _config with
  | Some YNull | None => default
  | Some v => v
  end.
Proof. unfold get. apply get_loop_walk, split_nonempty. Qed.

Lemma split_dot_free (key : string) :
  PyStr.contains "." key = false -> PyStr.split "." key = [key].
Proof. apply PathFacts.split_without_separator. Qed.

(** X2.  For a key without a dot, [get] agrees with item access on the
    loaded tree: where [config[key]] returns a value other than null,
    [get] returns that value and [key in config] holds; where
    [config[key]] returns null or raises ([KeyError] on a mapping
    without the key, [TypeError] on a tree that is not a mapping),
    [get] returns the default.  Where [key in config] is false,
    [config[key]] raises. *)
Theorem get_agrees_with_item_access (_config : yaml) (key : string) (default : yaml) :
  PyStr.contains "." key = false ->
  (forall v, __getitem__ _config key = inr v ->
     __contains__ _config key = inr true /\
     get _config key default = match v with YNull => default | _ => v end) /\
  (forall e, __getitem__ _config key = inl e -> get _config key default = default) /\
  (__contains__ _config key = inr false ->
     __getitem__ _config key = inl (KeyError key) \/
     __getitem__ _config key = inl TypeError).
Proof.
  intros Hkey. unfold get, __getitem__, __contains__, getitem, contains.
  rewrite (split_dot_free _ Hkey). simpl.
  split; [|split].
  - intros v. destruct _config; try done.
    destruct (d !! key) as [v'|] eqn:Hd; [|done].
    intros [= ->]. split.
    + reflexivity.
    + by destruct v.
  - intros e. destruct _config; try done.
    by destruct (d !! key).
  - destruct _config; auto.
    destruct (d !! key) as [v|] eqn:Hd; [|auto].
    intros Hfalse. discriminate Hfalse.
Qed.

Lemma get_agrees_with_item_access_witness :
  PyStr.contains "." "paths" = false /\
  __getitem__ sample "paths" = inr (YStr "flat") /\
  get sample "paths" (YStr "data") = YStr "flat".
Proof.
  assert (Hitem : __getitem__ sample "paths" = inr (YStr "flat"))
    by (vm_compute; reflexivity).
  split; [reflexivity|]. split; [exact Hitem|].
  exact (proj2 (proj1 (get_agrees_with_item_access sample "paths" (YStr "data") eq_refl)
                  (YStr "flat") Hitem)).
Defined.

(** *** The overrides of [main] *)

Section Overrides.
Import Main.

Lemma override_cases (c : yaml) (section key : string) (arg : option string) :
  match given arg with
  | None => override c section key arg = inr c
  | Some s =>
      match c with
      | YDict d =>
          match d !! section with
          | Some (YDict inner) =>
              override c section key arg
              = inr (YDict (<[section := YDict (<[key := YStr s]> inner)]> d))
          | Some _ => override c section key arg = inl TypeError
          | None => override c section key arg = inl (KeyError section)
          end
      | _ => override c section key arg = inl TypeError
      end
  end.
Proof.
  unfold given, override. destruct arg as [s|]; [|done].
  destruct (String.eqb s EmptyString); [done|].
  destruct c; try done. simpl.
  destruct (d !! section) as [v|]; [|done]. by destruct v.
Qed.

(** What one override does to a lookup of two keys and to the sections. *)
Lemma override_get_loop (c c' : yaml) (section key : string) (arg : option string)
    (k1 k2 : string) (default : yaml) :
  override c section key arg = inr c' ->
  get_loop [k1; k2] c' default =
  match given arg with
  | Some s =>
      if String.eqb k1 section && String.eqb k2 key then YStr s
      else get_loop [k1; k2] c default
  | None => get_loop [k1; k2] c default
  end.
Proof.
  intros Hrun. pose proof (override_cases c section key arg) as Hcases.
  destruct (given arg) as [s|]; [|by rewrite Hcases in Hrun; simplify_eq].
  destruct c; try congruence.
  destruct (d !! section) as [v|] eqn:Hsec; [|congruence].
  destruct v; try congruence. rewrite Hcases in Hrun. simplify_eq.
  destruct (String.eqb_spec k1 section) as [->|Hk1]; simpl.
  - rewrite lookup_insert_eq, Hsec.
    destruct (String.eqb_spec k2 key) as [->|Hk2].
    + by rewrite lookup_insert_eq.
    + by rewrite lookup_insert_ne.
  - by rewrite lookup_insert_ne.
Qed.

Lemma override_has_section (c c' : yaml) (section key : string) (arg : option string)
    (section' : string) :
  override c section key arg = inr c' ->
  has_section c' section' = has_section c section'.
Proof.
  intros Hrun. pose proof (override_cases c section key arg) as Hcases.
  destruct (given arg) as [s|]; [|by rewrite Hcases in Hrun; simplify_eq].
  destruct c; try congruence.
  destruct (d !! section) as [v|] eqn:Hsec; [|congruence].
  destruct v; try congruence. rewrite Hcases in Hrun. simplify_eq.
  unfold has_section, getitem.
  destruct (decide (section = section')) as [->|Hne].
  - by rewrite lookup_insert_eq, Hsec.
  - by rewrite lookup_insert_ne.
Qed.

Lemma override_returns (c : yaml) (section key : string) (arg : option string) :
  is_Some (given arg) -> 
  (exists c', override c section key arg = inr c') <-> has_section c section = true.
Proof.
  intros [s Hs]. pose proof (override_cases c section key arg) as Hcases.
  rewrite Hs in Hcases. unfold has_section, getitem.
  destruct c; try (split; [intros [c' Hc']; congruence|done]).
  destruct (d !! section) as [v|];
    [|split; [intros [c' Hc']; congruence|done]].
  destruct v; try (split; [intros [c' Hc']; congruence|done]).
  split; [done|]. intros _. by eexists.
Qed.

Lemma override_not_given (c : yaml) (section key : string) (arg : option string) :
  given arg = None -> override c section key arg = inr c.
Proof.
  intros Hnone. pose proof (override_cases c section key arg) as Hcases.
  by rewrite Hnone in Hcases.
Qed.

(** X3.  When the overrides of [main] go through, every option given on
    the command line takes precedence over the file: the accessor of
    the setting returns the option, and it returns what it returned
    before for an option that is absent or empty. *)
Theorem overrides_take_precedence (args : Args) (c c' : yaml) :
  overrides args c = inr c' ->
  input_path c' = from_option YStr (input_path c) (given (input args)) /\
  output_path c' = from_option YStr (output_path c) (given (output args)) /\
  device_type c' = from_option YStr (device_type c) (given (device args)) /\
  whisper_model c' = from_option YStr (whisper_model c) (given (model args)).
Proof.
  unfold overrides. intros Hrun.
  destruct (override c "paths" "input" (input args)) as [e|c1] eqn:H1; [done|].
  cbn [and_then] in Hrun.
  destruct (override c1 "paths" "output" (output args)) as [e|c2] eqn:H2; [done|].
  cbn [and_then] in Hrun.
  destruct (override c2 "device" "type" (device args)) as [e|c3] eqn:H3; [done|].
  cbn [and_then] in Hrun.
  unfold input_path, output_path, device_type, whisper_model, get.
  change (PyStr.split "." "paths.input") with ["paths"; "input"].
  change (PyStr.split "." "paths.output") with ["paths"; "output"].
  change (PyStr.split "." "device.type") with ["device"; "type"].
  change (PyStr.split "." "whisper.model_size") with ["whisper"; "model_size"].
  rewrite !(override_get_loop _ _ _ _ _ _ _ _ Hrun).
  rewrite !(override_get_loop _ _ _ _ _ _ _ _ H3).
  rewrite !(override_get_loop _ _ _ _ _ _ _ _ H2).
  rewrite !(override_get_loop _ _ _ _ _ _ _ _ H1).
  destruct (given (input args)), (given (output args)),
           (given (device args)), (given (model args)); done.
Qed.

Lemma overrides_take_precedence_witness :
  exists c', overrides input_and_model two_sections = inr c' /\
  input_path c' = YStr "audio" /\ whisper_model c' = YStr "tiny" /\
  output_path c' = YStr "data/output".
Proof.
  destruct (overrides input_and_model two_sections) as [e|c'] eqn:Hrun;
    [vm_compute in Hrun; discriminate Hrun|].
  exists c'. split; [reflexivity|].
  destruct (overrides_take_precedence input_and_model two_sections c' Hrun)
    as (Hin & Hout & _ & Hmodel).
  split; [exact Hin|]. split; [exact Hmodel|exact Hout].
Defined.

(** X4.  The overrides of [main] go through exactly when every option
    given on the command line finds its section in the loaded tree, as
    a mapping: [paths] for [--input] and [--output], [device] for
    [--device], [whisper] for [--model].  On a tree without the section
    (or on an empty file, which loads as null) the assignment raises,
    although [get] reads such a tree without complaint. *)
Theorem overrides_need_their_sections (args : Args) (c : yaml) :
  (exists c', overrides args c = inr c') <->
  (is_Some (given (input args)) -> has_section c "paths" = true) /\
  (is_Some (given (output args)) -> has_section c "paths" = true) /\
  (is_Some (given (device args)) -> has_section c "device" = true) /\
  (is_Some (given (model args)) -> has_section c "whisper" = true).
Proof.
  assert (Hstep : forall c section key arg,
    (exists c', override c section key arg = inr c') <->
    (is_Some (given arg) -> has_section c section = true)).
  { intros c0 section key arg. destruct (given arg) as [s|] eqn:Hgiven.
    - rewrite override_returns by (rewrite Hgiven; by eexists).
      split; [by intros ? _|]. intros H. apply H. by eexists.
    - rewrite (override_not_given _ _ _ _ Hgiven).
      split; [by intros _ [? ?]|]. intros _. by eexists. }
  unfold overrides. split.
  - intros [c' Hrun].
    destruct (override c "paths" "input" (input args)) as [e|c1] eqn:H1; [done|].
    cbn [and_then] in Hrun.
    destruct (override c1 "paths" "output" (output args)) as [e|c2] eqn:H2; [done|].
    cbn [and_then] in Hrun.
    destruct (override c2 "device" "type" (device args)) as [e|c3] eqn:H3; [done|].
    cbn [and_then] in Hrun.
    assert (E1 := proj1 (Hstep _ _ _ _) (ex_intro _ _ H1)).
    assert (E2 := proj1 (Hstep _ _ _ _) (ex_intro _ _ H2)).
    assert (E3 := proj1 (Hstep _ _ _ _) (ex_intro _ _ H3)).
    assert (E4 := proj1 (Hstep _ _ _ _) (ex_intro _ _ Hrun)).
    rewrite (override_has_section _ _ _ _ _ _ H1) in E2.
    rewrite (override_has_section _ _ _ _ _ _ H2),
            (override_has_section _ _ _ _ _ _ H1) in E3.
    rewrite (override_has_section _ _ _ _ _ _ H3),
            (override_has_section _ _ _ _ _ _ H2),
            (override_has_section _ _ _ _ _ _ H1) in E4.
    done.
  - intros (E1 & E2 & E3 & E4).
    destruct (proj2 (Hstep c "paths" "input" (input args)) E1) as [c1 H1].
    rewrite H1. simpl.
    rewrite <- (override_has_section _ _ _ _ _ "paths" H1) in E2.
    destruct (proj2 (Hstep c1 "paths" "output" (output args)) E2) as [c2 H2].
    rewrite H2. simpl.
    rewrite <- (override_has_section _ _ _ _ _ "device" H1),
            <- (override_has_section _ _ _ _ _ "device" H2) in E3.
    destruct (proj2 (Hstep c2 "device" "type" (device args)) E3) as [c3 H3].
    rewrite H3. simpl.
    rewrite <- (override_has_section _ _ _ _ _ "whisper" H1),
            <- (override_has_section _ _ _ _ _ "whisper" H2),
            <- (override_has_section _ _ _ _ _ "whisper" H3) in E4.
    exact (proj2 (Hstep c3 "whisper" "model_size" (model args)) E4).
Qed.

End Overrides.

End ConfigAccessFacts.

(** ** More on discovery and on output paths *)

Module DiscoveryFacts.
Import Pathlib Patterns PathFacts FileHandlerFacts Samples.
#[local] Arguments String.append : simpl nomatch.

Lemma literal_plain (pat : string) : literal pat = true -> FileHandler.plain pat = true.
Proof. unfold literal. by intros [[? _]%andb_prop _]%andb_prop. Qed.

(** X5.  For extensions without pattern syntax, the list that
    [find_audio_files] returns is sorted and holds exactly the entries
    of the input directory itself whose name ends, letter for letter,
    in one of the extensions of the handler (the configured ones,
    lower-cased by [__init__]): a file in a subdirectory is not found,
    nor is one whose extension differs in case. *)
Theorem find_audio_files_lists_matching_entries {E : External} (self : FileHandler.t)
    (st : State E) (audio_files : list Path) :
  Forall (fun ext => literal ext = true) (FileHandler.audio_extensions self) ->
  (FileHandler.find_audio_files self st).1 = Ok audio_files ->
  Sorted Pathlib.le audio_files /\
  forall p, p ∈ audio_files <->
    exists n ext before,
      p = FileHandler.input_dir self ++ [n] /\
      is_Some (fs st !! p) /\
      ext ∈ FileHandler.audio_extensions self /\
      n = before +:+ ext.
Proof.
  intros Hliteral Hfound. apply find_audio_files_result in Hfound as ->.
  split; [apply audio_files_sorted|].
  intros p. rewrite elem_of_audio_files. split.
  - intros (ext & n & Hext & -> & Hfile & Hmatch).
    assert (Hplain : FileHandler.plain ext = true).
    { apply literal_plain. by eapply Forall_forall in Hliteral. }
    apply (fnmatch_extension _ _ Hplain) in Hmatch as [before ->].
    by exists (before +:+ ext), ext, before.
  - intros (n & ext & before & -> & Hfile & Hext & ->).
    exists ext, (before +:+ ext). split; [done|]. split; [done|]. split; [done|].
    apply fnmatch_extension; [|by exists before].
    apply literal_plain. by eapply Forall_forall in Hliteral.
Qed.

Lemma find_audio_files_lists_matching_entries_witness :
  let st := Pipeline.initial (E := reliable) tt
              (Fake.files_in "in" ["b.mp3"; "a.wav"; "c.txt"; "d.MP3"]) in
  let audio_files := [["in"; "a.wav"]; ["in"; "b.mp3"]] in
  Forall (fun ext => literal ext = true) (FileHandler.audio_extensions handler) /\
  (FileHandler.find_audio_files handler st).1 = Ok audio_files /\
  Sorted Pathlib.le audio_files.
Proof.
  intros st audio_files.
  assert (Hliteral : Forall (fun ext => literal ext = true)
                       (FileHandler.audio_extensions handler))
    by (repeat constructor).
  assert (Hfound : (FileHandler.find_audio_files handler st).1 = Ok audio_files)
    by (vm_compute; reflexivity).
  split; [exact Hliteral|]. split; [exact Hfound|].
  exact (proj1 (find_audio_files_lists_matching_entries handler st audio_files
                  Hliteral Hfound)).
Defined.

(** *** How often a file is listed *)

Lemma count_occ_filter {A} (dec : forall x y : A, {x = y} + {x <> y}) (P : A -> bool)
    (l : list A) (x : A) :
  count_occ dec (List.filter P l) x = if P x then count_occ dec l x else 0%nat.
Proof.
  induction l as [|a l IH]; simpl; [by destruct (P x)|].
  destruct (P a) eqn:Ha; simpl.
  - destruct (dec a x) as [->|Hne]; rewrite IH.
    + by rewrite Ha.
    + done.
  - rewrite IH. destruct (dec a x) as [->|Hne]; [by rewrite Ha|done].
Qed.

Lemma NoDup_omap {A B} (f : A -> option B) (l : list A) :
  (forall x y z, f x = Some z -> f y = Some z -> x = y) ->
  NoDup l -> NoDup (omap f l).
Proof.
  intros Hinj. induction 1 as [|a l Ha _ IH]; simpl; [constructor|].
  destruct (f a) as [b|] eqn:Hfa; [|done].
  constructor; [|done].
  intros (a' & Ha' & Hfa')%list_elem_of_omap.
  by rewrite (Hinj _ _ _ Hfa Hfa') in Ha.
Qed.

Lemma NoDup_scandir (files : gmap (list string) string) (dir : Path) :
  NoDup (FileHandler.scandir files dir).
Proof.
  apply NoDup_omap; [|apply NoDup_fst_map_to_list].
  intros p q n Hp%child_name_Some Hq%child_name_Some. congruence.
Qed.

Lemma count_occ_scandir (files : gmap (list string) string) (dir : Path) (n : string) :
  count_occ name_eq_dec (FileHandler.scandir files dir) n =
  if FileHandler.exists_ files (dir ++ [n]) then 1%nat else 0%nat.
Proof.
  unfold FileHandler.exists_. case_bool_decide as Hfile.
  - apply NoDup_count_occ'; [apply NoDup_ListNoDup, NoDup_scandir|].
    by apply list_elem_of_In, elem_of_scandir.
  - apply count_occ_not_In. intros Hin%list_elem_of_In%elem_of_scandir. done.
Qed.

Lemma count_occ_glob (files : gmap (list string) string) (dir : Path) (pat n : string) :
  count_occ path_eq_dec (FileHandler.glob files dir pat) (dir ++ [n]) =
  if FileHandler.fnmatch pat n && FileHandler.exists_ files (dir ++ [n])
  then 1%nat else 0%nat.
Proof.
  unfold FileHandler.glob.
  rewrite <- (count_occ_map (fun n => dir ++ [n]) name_eq_dec path_eq_dec).
  - rewrite count_occ_filter, count_occ_scandir.
    by destruct (FileHandler.fnmatch pat n).
  - intros m m' Heq. apply app_inv_head in Heq. congruence.
Qed.

Lemma ends_with_spec (n ext : string) :
  ends_with n ext = true <-> exists before, n = before +:+ ext.
Proof.
  induction n as [|c n IH]; cbn [ends_with].
  - rewrite orb_false_r, String.eqb_eq. split.
    + intros <-. by exists EmptyString.
    + intros [before Heq]. destruct before; [done|discriminate Heq].
  - rewrite orb_true_iff, String.eqb_eq, IH. split.
    + intros [<-|[before ->]]; [by exists EmptyString|by exists (String c before)].
    + intros [[|d before] Heq]; [by left|].
      right. injection Heq as -> ->. by exists before.
Qed.

Lemma fnmatch_ends_with (ext n : string) :
  FileHandler.plain ext = true ->
  FileHandler.fnmatch ("*" +:+ ext) n = ends_with n ext.
Proof.
  intros Hplain. apply eq_true_iff_eq.
  by rewrite (fnmatch_extension _ _ Hplain), ends_with_spec.
Qed.

(** X6.  For extensions without pattern syntax, an entry of the input
    directory is listed once for every extension of the handler that
    its name ends in, duplicates among the extensions counted, and a
    path that is no entry of the directory is not listed.  A file is
    thus listed - and then processed - twice when two entries of the
    allow-list match it, as [.mp3] and [.MP3] do once [__init__] has
    lower-cased them. *)
Theorem a_file_is_listed_once_per_matching_extension (self : FileHandler.t)
    (files : gmap (list string) string) (n : string) :
  Forall (fun ext => literal ext = true) (FileHandler.audio_extensions self) ->
  let p := FileHandler.input_dir self ++ [n] in
  count_occ path_eq_dec (FileHandler.audio_files_in self files) p =
  if FileHandler.exists_ files p
  then List.length (List.filter (ends_with n) (FileHandler.audio_extensions self))
  else 0%nat.
Proof.
  intros Hliteral p.
  rewrite (List.filter_ext_in (ends_with n)
             (fun ext => FileHandler.fnmatch ("*" +:+ ext) n)).
  2: { intros ext Hext%list_elem_of_In. symmetry. apply fnmatch_ends_with.
       apply literal_plain. by eapply Forall_forall in Hliteral. }
  clear Hliteral.
  unfold FileHandler.audio_files_in, FileHandler.sort.
  rewrite (proj1 (Permutation_count_occ path_eq_dec _ _)
             (merge_sort_Permutation _ _)).
  set (found := fun ext => FileHandler.glob files (FileHandler.input_dir self) ("*" +:+ ext)).
  set (matches := fun ext => FileHandler.fnmatch ("*" +:+ ext) n).
  assert (Hone : forall ext,
    count_occ path_eq_dec (found ext) p =
    if matches ext && FileHandler.exists_ files p then 1%nat else 0%nat)
    by (intros ext; apply count_occ_glob).
  clearbody found matches.
  induction (FileHandler.audio_extensions self) as [|ext exts IH]; simpl.
  - by destruct (FileHandler.exists_ files p).
  - rewrite count_occ_app, IH, Hone.
    destruct (matches ext); by destruct (FileHandler.exists_ files p).
Qed.

Lemma a_file_is_listed_once_per_matching_extension_witness :
  let self := FileHandler.__init__ "in" "out" [".mp3"; ".MP3"] in
  let files := Fake.files_in "in" ["a.mp3"; "b.wav"] in
  Forall (fun ext => literal ext = true) (FileHandler.audio_extensions self) /\
  count_occ path_eq_dec (FileHandler.audio_files_in self files)
    (FileHandler.input_dir self ++ ["a.mp3"]) = 2%nat.
Proof.
  intros self files.
  assert (Hliteral : Forall (fun ext => literal ext = true)
                       (FileHandler.audio_extensions self))
    by (repeat constructor).
  split; [exact Hliteral|].
  rewrite (a_file_is_listed_once_per_matching_extension self files "a.mp3" Hliteral).
  vm_compute. reflexivity.
Defined.

Example an_extension_listed_twice :
  FileHandler.audio_files_in (FileHandler.__init__ "in" "out" [".mp3"; ".MP3"])
    (Fake.files_in "in" ["a.mp3"; "b.wav"])
  = [["in"; "a.mp3"]; ["in"; "a.mp3"]].
Proof. vm_compute. reflexivity. Qed.

(** *** The naming scheme *)

Lemma append_inj_r (s : string) : forall a b : string, a +:+ s = b +:+ s -> a = b.
Proof.
  assert (Hlen : forall a : string, a +:+ s = s -> a = EmptyString).
  { intros a Ha. apply (f_equal String.length) in Ha.
    rewrite length_append in Ha. destruct a; [done|]. simpl in Ha. lia. }
  induction a as [|x a IH]; intros b Heq.
  - symmetry. apply Hlen. by rewrite <- Heq.
  - destruct b as [|y b].
    + by apply (Hlen (String x a)) in Heq.
    + simpl in Heq. injection Heq as -> Heq. f_equal. by apply IH.
Qed.

Lemma get_output_path_child (fh : FileHandler.t) (audio_path : Path) (extension : string) :
  PyStr.contains "/" (stem audio_path) = false ->
  PyStr.contains "/" extension = false ->
  FileHandler.get_output_path fh audio_path extension
  = FileHandler.output_dir fh ++ [stem audio_path +:+ "_transcricao." +:+ extension].
Proof.
  intros Hstem Hext. unfold FileHandler.get_output_path.
  apply joinpath_part, suffix_is_part; [done| |].
  - by rewrite contains_append, Hext.
  - rewrite length_append. simpl. lia.
Qed.

(** X7.  For an audio path as [pathlib] builds it (no separator inside
    its stem) and an extension without separator, [get_output_path] is
    the entry [{stem}_transcricao.{extension}] of the output directory
    itself.  It depends on the audio path through the stem alone: two
    audio paths resolve to the same output path exactly when their
    stems are equal, whatever their directories and suffixes. *)
Theorem output_paths_collide_on_equal_stems (fh : FileHandler.t) (p q : Path)
    (extension : string) :
  PyStr.contains "/" (stem p) = false ->
  PyStr.contains "/" (stem q) = false ->
  PyStr.contains "/" extension = false ->
  FileHandler.get_output_path fh p extension
    = FileHandler.output_dir fh ++ [stem p +:+ "_transcricao." +:+ extension] /\
  parent (FileHandler.get_output_path fh p extension) = FileHandler.output_dir fh /\
  (FileHandler.get_output_path fh p extension = FileHandler.get_output_path fh q extension
   <-> stem p = stem q).
Proof.
  intros Hp Hq Hext.
  rewrite !get_output_path_child by done.
  split; [done|]. split.
  - apply parent_snoc, suffix_is_part; [done| |].
    + by rewrite contains_append, Hext.
    + rewrite length_append. simpl. lia.
  - split; [|by intros ->].
    intros Heq. apply app_inv_head in Heq. injection Heq as Heq.
    by apply append_inj_r in Heq.
Qed.

Lemma output_paths_collide_on_equal_stems_witness :
  PyStr.contains "/" (stem ["in"; "a.wav"]) = false /\
  PyStr.contains "/" (stem ["elsewhere"; "a.mp3"]) = false /\
  PyStr.contains "/" "json" = false /\
  FileHandler.get_output_path handler ["in"; "a.wav"] "json"
    = FileHandler.get_output_path handler ["elsewhere"; "a.mp3"] "json".
Proof.
  split; [reflexivity|]. split; [reflexivity|]. split; [reflexivity|].
  exact (proj2 (proj2 (proj2 (output_paths_collide_on_equal_stems handler
                                ["in"; "a.wav"] ["elsewhere"; "a.mp3"] "json"
                                eq_refl eq_refl eq_refl))) eq_refl).
Defined.

End DiscoveryFacts.

(** ** The contents of the exported files *)

Module ExportContentFacts.
Import Pathlib Observe MonadFacts Exporter Frames Samples.

Lemma append_nil_r (s : string) : s +:+ EmptyString = s.
Proof. induction s as [|c s IH]; [done|]. simpl. unfold String.append in *. by rewrite IH. Qed.

Section WithExternal.
Context {E : External}.

(** The state once [path] has been opened for writing in the world [w]. *)
Lemma open_w_returns (path : Path) (st : State E) (w : World E) :
  ext_open_w E path (world st) = (Ok tt, w) ->
  open_w path st =
  (Ok tt, mkState w (<[path := EmptyString]> (fs st)) (stats st)
            (trace st ++ [EvCall (COpen path)])).
Proof. intros Hopen. unfold open_w. unfold_m. by rewrite Hopen. Qed.

(** A loop that renders and appends: what it has written when it ends
    and when it stops. *)
Lemma render_loop_writes {A} (path : Path) (render : A -> res string) (l : list A) :
  forall (lines : list string) (content : string) (st : State E),
    Forall2 (fun x line => render x = Ok line) l lines ->
    fs st !! path = Some content ->
    for_each l (fun x => bind (lift (render x)) (write path)) st =
    (Ok tt, mkState (world st)
              (<[path := content +:+ PyStr.join EmptyString lines]> (fs st))
              (stats st) (trace st)).
Proof.
  induction l as [|x l IH]; intros lines content st Hlines Hpath;
    inversion Hlines as [|? line ? lines' Hline Hrest]; subst.
  - simpl. rewrite append_nil_r, insert_id by done. by destruct st.
  - simpl. unfold bind at 1. unfold bind at 1. unfold lift, write, set_fs.
    rewrite Hline, Hpath. simpl.
    rewrite (IH lines' (content +:+ line)); [|done|by simpl; rewrite lookup_insert_eq].
    cbn [world fs stats trace].
    rewrite insert_insert_eq, PathFacts.append_assoc.
    by destruct lines'; [rewrite append_nil_r|].
Qed.

Lemma render_loop_stops {A} (path : Path) (render : A -> res string)
    (before : list A) (x : A) (after : list A) (e : exn) :
  forall (lines : list string) (content : string) (st : State E),
    Forall2 (fun x line => render x = Ok line) before lines ->
    render x = Raise e ->
    fs st !! path = Some content ->
    for_each (before ++ x :: after) (fun x => bind (lift (render x)) (write path)) st =
    (Raise e, mkState (world st)
                (<[path := content +:+ PyStr.join EmptyString lines]> (fs st))
                (stats st) (trace st)).
Proof.
  induction before as [|y before IH]; intros lines content st Hlines Hx Hpath;
    inversion Hlines as [|? line ? lines' Hline Hrest]; subst.
  - simpl. unfold bind at 1. unfold bind at 1. unfold lift. rewrite Hx. simpl.
    rewrite append_nil_r, insert_id by done. by destruct st.
  - simpl. unfold bind at 1. unfold bind at 1. unfold lift, write, set_fs.
    rewrite Hline, Hpath. simpl.
    rewrite (IH lines' (content +:+ line)); [|done|done|by simpl; rewrite lookup_insert_eq].
    cbn [world fs stats trace].
    rewrite insert_insert_eq, PathFacts.append_assoc.
    by destruct lines'; [rewrite append_nil_r|].
Qed.

(** The same two facts for a file that has just been opened. *)
Lemma opened_then_written {A} (path : Path) (render : A -> res string) (l : list A)
    (lines : list string) (st : State E) (w : World E) :
  ext_open_w E path (world st) = (Ok tt, w) ->
  Forall2 (fun x line => render x = Ok line) l lines ->
  bind (open_w path)
    (fun _ => bind (for_each l (fun x => bind (lift (render x)) (write path)))
                (fun _ => ret path)) st =
  (Ok path, mkState w (<[path := PyStr.join EmptyString lines]> (fs st)) (stats st)
              (trace st ++ [EvCall (COpen path)])).
Proof.
  intros Hopen Hlines. unfold bind at 1. rewrite (open_w_returns _ _ _ Hopen).
  unfold bind at 1.
  rewrite (render_loop_writes path render l lines EmptyString);
    [|done|by simpl; rewrite lookup_insert_eq].
  simpl. by rewrite insert_insert_eq.
Qed.

Lemma opened_then_stopped {A} (path : Path) (render : A -> res string)
    (before : list A) (x : A) (after : list A) (e : exn)
    (lines : list string) (st : State E) (w : World E) :
  ext_open_w E path (world st) = (Ok tt, w) ->
  Forall2 (fun x line => render x = Ok line) before lines ->
  render x = Raise e ->
  bind (open_w path)
    (fun _ => bind (for_each (before ++ x :: after)
                      (fun x => bind (lift (render x)) (write path)))
                (fun _ => ret path)) st =
  (Raise e, mkState w (<[path := PyStr.join EmptyString lines]> (fs st)) (stats st)
              (trace st ++ [EvCall (COpen path)])).
Proof.
  intros Hopen Hlines Hx. unfold bind at 1. rewrite (open_w_returns _ _ _ Hopen).
  unfold bind at 1.
  rewrite (render_loop_stops path render before x after e lines EmptyString);
    [|done|done|by simpl; rewrite lookup_insert_eq].
  simpl. by rewrite insert_insert_eq.
Qed.

Lemma after_open_ext (path : Path) (m m' : M E unit) (st : State E) :
  (forall st0, m st0 = m' st0) ->
  bind (open_w path) (fun _ => bind m (fun _ => ret path)) st =
  bind (open_w path) (fun _ => bind m' (fun _ => ret path)) st.
Proof.
  intros Hext. unfold bind.
  destruct (open_w path st) as [[[]|e] st0]; [|done]. by rewrite Hext.
Qed.

(** X8.  Once the system has opened the text file, [export_txt] writes
    it line by line, in the order of the segments, over whatever the
    file held before.  When every segment renders, the file holds the
    lines of all segments and the path is returned.  When a segment
    fails to render, the exception leaves [export_txt] at that
    segment, and the file stays behind with the lines of the segments
    before it.  (A write to the opened file is taken to succeed.) *)
Theorem export_txt_writes_line_by_line (cfg : Settings) (result : Result) (base : Path)
    (st : State E) (w : World E) (before rest : list Segment) (lines : list string) :
  let txt_path := joinpath (parent base) (stem base +:+ ".txt") in
  let st' := mkState w (<[txt_path := PyStr.join EmptyString lines]> (fs st)) (stats st)
               (trace st ++ [EvCall (COpen txt_path)]) in
  ext_open_w E txt_path (world st) = (Ok tt, w) ->
  segments_of result = before ++ rest ->
  Forall2 (fun segment line => txt_line cfg segment = Ok line) before lines ->
  (rest = [] -> export_txt cfg result base st = (Ok txt_path, st')) /\
  (forall segment after e,
     rest = segment :: after -> txt_line cfg segment = Raise e ->
     export_txt cfg result base st = (Raise e, st')).
Proof.
  intros txt_path st' Hopen Hsegments Hlines. unfold export_txt.
  fold txt_path. rewrite Hsegments. split.
  - intros ->. rewrite app_nil_r. by apply opened_then_written.
  - intros segment after e -> Hsegment. by apply opened_then_stopped.
Qed.

(** X9.  Once the system has opened the subtitle file, [export_srt]
    writes it cue by cue, in the order of the segments and numbered
    from 1, over whatever the file held before.  When every segment
    renders, the file holds the cues of all segments and the path is
    returned.  When a segment fails to render, the exception leaves
    [export_srt] at that segment, and the file stays behind with the
    cues of the segments before it.  (A write to the opened file is
    taken to succeed.) *)
Theorem export_srt_writes_cue_by_cue (result : Result) (cfg : Settings) (base : Path)
    (st : State E) (w : World E) (before rest : list Segment) (cues : list string) :
  let srt_path := joinpath (parent base) (stem base +:+ ".srt") in
  let st' := mkState w (<[srt_path := PyStr.join EmptyString cues]> (fs st)) (stats st)
               (trace st ++ [EvCall (COpen srt_path)]) in
  ext_open_w E srt_path (world st) = (Ok tt, w) ->
  segments_of result = before ++ rest ->
  List.length cues = List.length before ->
  (forall i segment cue,
     before !! i = Some segment -> cues !! i = Some cue ->
     srt_cue (S i) segment = Ok cue) ->
  (rest = [] -> export_srt cfg result base st = (Ok srt_path, st')) /\
  (forall segment after e,
     rest = segment :: after -> srt_cue (S (List.length before)) segment = Raise e ->
     export_srt cfg result base st = (Raise e, st')).
Proof.
  intros srt_path st' Hopen Hsegments Hlength Hcues. unfold export_srt.
  fold srt_path. rewrite Hsegments. subst st'.
  assert (Hlines :
    Forall2 (fun x cue => srt_cue x.1 x.2 = Ok cue)
      (imap (fun i segment => (S i, segment)) before) cues).
  { apply Forall2_same_length_lookup_2; [by rewrite length_imap|].
    intros i [j segment] cue Hi Hcue.
    rewrite list_lookup_imap in Hi.
    destruct (before !! i) as [segment'|] eqn:Hbefore; [|done].
    simpl in Hi. injection Hi as <- <-. simpl. by eapply Hcues. }
  assert (Hbody : forall (x : nat * Segment) (st0 : State E),
    (let '(i, segment) := x in bind (lift (srt_cue i segment)) (write srt_path)) st0
    = bind (lift (srt_cue x.1 x.2)) (write srt_path) st0)
    by (by intros [i segment] st0).
  split.
  - intros ->. rewrite app_nil_r.
    rewrite <- (opened_then_written srt_path (fun x => srt_cue x.1 x.2) _ cues st w Hopen Hlines).
    apply after_open_ext. intros st0. apply ExportFacts.for_each_ext, Hbody.
  - intros segment after e -> Hsegment.
    rewrite imap_app. simpl. rewrite Nat.add_0_r.
    rewrite <- (opened_then_stopped srt_path (fun x => srt_cue x.1 x.2)
                  (imap (fun i segment => (S i, segment)) before)
                  (S (List.length before), segment)
                  (imap (fun n segment => (S (List.length before + S n), segment)) after)
                  e cues st w Hopen Hlines Hsegment).
    apply after_open_ext. intros st0. apply ExportFacts.for_each_ext, Hbody.
Qed.

(** X10.  [export_json] opens the file, has the serialiser produce the
    text and leaves the file with that text, over whatever it held
    before.  When the system refuses to open the file nothing is
    written; when the serialiser raises, the exception leaves
    [export_json], the file stays behind and no other file has
    changed. *)
Theorem export_json_writes_the_dump (cfg : Settings) (result : Result) (base : Path)
    (st : State E) :
  let json_path := joinpath (parent base) (stem base +:+ ".json") in
  let opened := EvCall (COpen json_path) in
  let out := export_json cfg result base st in
  match ext_open_w E json_path (world st) with
  | (Raise e, w) =>
      out = (Raise e, mkState w (fs st) (stats st) (trace st ++ [opened]))
  | (Ok _, w) =>
      match ext_json_dump E result (json_ensure_ascii cfg) (json_indent cfg) w with
      | (Raise e, w') =>
          out.1 = Raise e /\
          is_Some (fs out.2 !! json_path) /\
          forall p, p <> json_path -> fs out.2 !! p = fs st !! p
      | (Ok text, w') =>
          out = (Ok json_path,
                 mkState w' (<[json_path := text]> (fs st)) (stats st)
                   (trace st ++ [opened; EvCall CJsonDump]))
      end
  end.
Proof.
  intros json_path opened out. subst out.
  unfold export_json, open_w, write. fold json_path.
  unfold_m. simpl.
  destruct (ext_open_w E json_path (world st)) as [[[]|e] w]; simpl; [|done].
  destruct (ext_json_dump E result (json_ensure_ascii cfg) (json_indent cfg) w)
    as [[text|e] w']; simpl.
  - by rewrite lookup_insert_eq, insert_insert_eq, <- app_assoc.
  - split; [done|]. split; [by rewrite lookup_insert_eq|].
    intros p Hp. by rewrite lookup_insert_ne.
Qed.

End WithExternal.

Lemma export_txt_writes_line_by_line_witness :
  let st := Pipeline.initial (E := reliable) tt ∅ in
  let line := "[SPEAKER_00] hello" +:+ PyStr.nl in
  ext_open_w reliable ["out"; "a..txt"] (world st) = (Ok tt, tt) /\
  segments_of Fake.one_segment = [Fake.hello] ++ [] /\
  Forall2 (fun segment line => txt_line (Fake.settings [] false) segment = Ok line)
    [Fake.hello] [line] /\
  export_txt (Fake.settings [] false) Fake.one_segment ["out"; "a."] st
  = (Ok ["out"; "a..txt"],
     mkState (E := reliable) tt (<[ ["out"; "a..txt"] := line ]> ∅) Pipeline.fresh_stats
       [EvCall (COpen ["out"; "a..txt"])]).
Proof.
  intros st line.
  assert (Hlines : Forall2 (fun segment line =>
                              txt_line (Fake.settings [] false) segment = Ok line)
                     [Fake.hello] [line])
    by (repeat constructor).
  split; [reflexivity|]. split; [reflexivity|]. split; [exact Hlines|].
  exact (proj1 (export_txt_writes_line_by_line (E := reliable) (Fake.settings [] false)
                  Fake.one_segment ["out"; "a."] st tt [Fake.hello] [] [line]
                  eq_refl eq_refl Hlines) eq_refl).
Defined.

Lemma export_srt_writes_cue_by_cue_witness :
  let st := Pipeline.initial (E := reliable) tt ∅ in
  let bad := mkSegment (Some (PyNum.Float S754_nan)) None (Some "lost") None in
  let result := mkResult None (Some [bare "kept"; bad; bare "never reached"]) in
  let cue := "1" +:+ PyStr.nl +:+ "00:00:00,000 --> 00:00:00,000" +:+ PyStr.nl +:+
             "kept" +:+ PyStr.nl +:+ PyStr.nl in
  srt_cue 2 bad = Raise ValueError /\
  export_srt (Fake.settings [] false) result ["out"; "a."] st
  = (Raise ValueError,
     mkState (E := reliable) tt (<[ ["out"; "a..srt"] := cue ]> ∅) Pipeline.fresh_stats
       [EvCall (COpen ["out"; "a..srt"])]).
Proof.
  intros st bad result cue.
  assert (Hbad : srt_cue 2 bad = Raise ValueError) by (vm_compute; reflexivity).
  split; [exact Hbad|].
  refine (proj2 (export_srt_writes_cue_by_cue (E := reliable) result (Fake.settings [] false)
                   ["out"; "a."] st tt [bare "kept"] [bad; bare "never reached"] [cue]
                   eq_refl eq_refl eq_refl _) bad [bare "never reached"] ValueError
            eq_refl Hbad).
  intros [|i] segment cue' Hsegment Hcue; [|done].
  injection Hsegment as <-. injection Hcue as <-. reflexivity.
Defined.

End ExportContentFacts.

(** ** What the exporter and the run leave alone *)

Module FrameFacts.
Import Pathlib Observe MonadFacts Exporter Frames.

Section WithExternal.
Context {E : External}.

#[global] Instance untouched_outside_preorder (paths : list Path) :
  PreOrder (untouched_outside (E := E) paths).
Proof.
  split; [by intros st p|].
  intros st1 st2 st3 H12 H23 p Hp. by rewrite H23, H12.
Qed.

#[global] Instance untouched_outside_frame (paths : list Path) :
  FrameRel (untouched_outside (E := E) paths).
Proof.
  split; [apply _|..].
  - by intros ev st p.
  - intros A c f st p. unfold call. by destruct (f (world st)).
  - by intros g st p.
Qed.

#[global] Instance keeps_files_frame : FrameRel (keeps_files (E := E)).
Proof.
  split; [apply _|..].
  - by intros ev st p.
  - intros A c f st p. unfold call. by destruct (f (world st)).
  - by intros g st p.
Qed.

Lemma may_write_inside (paths : list Path) (path : Path) :
  path ∈ paths -> may_write (untouched_outside (E := E) paths) path.
Proof.
  intros Hin text st p Hp. simpl. apply lookup_insert_ne. by intros ->.
Qed.

Lemma may_write_keeps_files (path : Path) : may_write (keeps_files (E := E)) path.
Proof. intros text st. apply stage_set_fs, grows_insert. Qed.

Lemma respects_for_each_in (R : relation (State E)) `{!PreOrder R} {A}
    (l : list A) (body : A -> M E unit) :
  (forall x, x ∈ l -> respects R (body x)) -> respects R (for_each l body).
Proof.
  induction l as [|x l IH]; intros Hbody; simpl.
  - by apply respects_ret.
  - apply respects_bind; [done|apply Hbody; by left|].
    intros _. apply IH. intros y Hy. apply Hbody. by right.
Qed.

End WithExternal.

(** One step of the decomposition of a computation, for a relation that
    records, calls and statistics do not break. *)
Ltac frame_step :=
  lazymatch goal with
  | |- respects _ (bind _ _) => apply respects_bind; [apply _| |intros ?]
  | |- respects _ (try_except _ _) => apply respects_try_except; [apply _| |intros ?]
  | |- respects _ (for_each _ _) => apply respects_for_each; [apply _|intros ?]
  | |- respects _ (ret _) => apply respects_ret; apply _
  | |- respects _ (raise _) => apply respects_raise; apply _
  | |- respects _ (lift _) => apply respects_lift; apply _
  | |- respects _ get_fs => apply respects_get_fs; apply _
  | |- respects _ get_stats => apply respects_get_stats; apply _
  | |- respects _ (logger _ _) => apply frame_emit
  | |- respects _ (emit _) => apply frame_emit
  | |- respects _ (call _ _) => apply frame_call
  | |- respects _ (set_stats _) => apply frame_set_stats
  | |- respects _ (if ?b then _ else _) => destruct b
  | |- respects _ (match ?x with _ => _ end) => destruct x
  end.

Ltac frame_auto := repeat frame_step.

Section Exporter.
Context {E : External} (R : relation (State E)) `{!FrameRel R}.

Lemma open_w_frame (path : Path) : may_write R path -> respects R (open_w (E := E) path).
Proof. intros Hwrite. unfold open_w. frame_step; [frame_step|apply Hwrite]. Qed.

Lemma write_frame (path : Path) (text : string) :
  may_write R path -> respects R (write (E := E) path text).
Proof. intros Hwrite. unfold write. apply Hwrite. Qed.

Lemma export_json_frame cfg result base :
  may_write R (joinpath (parent base) (stem base +:+ ".json")) ->
  respects R (export_json (E := E) cfg result base).
Proof.
  intros Hwrite. unfold export_json.
  frame_step; [by apply open_w_frame|].
  frame_step; [frame_step|].
  frame_step; [by apply write_frame|frame_step].
Qed.

Lemma export_txt_frame cfg result base :
  may_write R (joinpath (parent base) (stem base +:+ ".txt")) ->
  respects R (export_txt (E := E) cfg result base).
Proof.
  intros Hwrite. unfold export_txt.
  frame_step; [by apply open_w_frame|].
  frame_step; [|frame_step].
  frame_step. frame_step; [frame_step|by apply write_frame].
Qed.

Lemma export_srt_frame cfg result base :
  may_write R (joinpath (parent base) (stem base +:+ ".srt")) ->
  respects R (export_srt (E := E) cfg result base).
Proof.
  intros Hwrite. unfold export_srt.
  frame_step; [by apply open_w_frame|].
  frame_step; [|frame_step].
  frame_step. destruct x as [i segment].
  frame_step; [frame_step|by apply write_frame].
Qed.

Lemma export_one_frame cfg result base fmt exported :
  (forall p, p ∈ candidates base -> may_write R p) ->
  respects R (export_one (E := E) cfg result base fmt exported).
Proof.
  intros Hwrite. unfold export_one, exporter_for. frame_step.
  - destruct (String.eqb fmt "json").
    { frame_step; [|frame_auto]. apply export_json_frame, Hwrite.
      unfold candidates. simpl. by left. }
    destruct (String.eqb fmt "txt").
    { frame_step; [|frame_auto]. apply export_txt_frame, Hwrite.
      unfold candidates. simpl. right. by left. }
    destruct (String.eqb fmt "srt").
    { frame_step; [|frame_auto]. apply export_srt_frame, Hwrite.
      unfold candidates. simpl. right. right. by left. }
    frame_auto.
  - frame_auto.
Qed.

Lemma export_frame cfg result base formats :
  (forall p, p ∈ candidates base -> may_write R p) ->
  respects R (export (E := E) cfg result base formats).
Proof.
  intros Hwrite. unfold export. generalize (@nil Path).
  induction formats as [|fmt formats IH]; intros exported; simpl.
  - frame_step.
  - frame_step; [by apply export_one_frame|apply IH].
Qed.

End Exporter.

Section WithExternal.
Context {E : External}.

(** X11.  [Exporter.export] touches no file but the three it may write
    for its base path - the [.json], [.txt] and [.srt] files beside it:
    every other file is what it was (the log, which the model keeps
    apart from the files, is not among them).  It removes no file and
    leaves the statistics as they were. *)
Theorem export_touches_its_own_files_only (cfg : Settings) (result : Result)
    (base : Path) (formats : list string) (st : State E) :
  let out := export cfg result base formats st in
  (forall p, p ∉ candidates base -> fs out.2 !! p = fs st !! p) /\
  (forall p, is_Some (fs st !! p) -> is_Some (fs out.2 !! p)) /\
  stats out.2 = stats st.
Proof.
  intros out. split; [|split].
  - apply (export_frame (untouched_outside (candidates base))).
    intros p Hp. by apply may_write_inside.
  - apply (ExportFacts.export_respects keeps_files).
  - apply (ExportFacts.export_respects same_stats).
Qed.

End WithExternal.

End FrameFacts.

(** ** The formats of an export, one after the other *)

Module ExportLoopFacts.
Import Pathlib Observe MonadFacts Exporter Frames FrameFacts ExportFacts ExportContentFacts
  Samples.

#[local] Arguments String.append : simpl nomatch.

(** *** The file names of the formats differ *)

Lemma append_inv_head (a b c : string) : a +:+ b = a +:+ c -> b = c.
Proof. induction a as [|x a IH]; simpl; [done|]. intros [= Heq]. by apply IH. Qed.

Lemma split_append (sep : ascii) (suffix : string) :
  PyStr.contains sep suffix = false ->
  forall s,
    PyStr.split sep (s +:+ suffix)
    = removelast (PyStr.split sep s)
      ++ [List.last (PyStr.split sep s) EmptyString +:+ suffix].
Proof.
  intros Hsuffix. induction s as [|c s IH].
  - simpl. by apply PathFacts.split_without_separator.
  - cbn [String.append PyStr.split]. rewrite IH.
    pose proof (ConfigFacts.split_nonempty sep s) as Hsome.
    destruct (PyStr.split sep s) as [|w ws]; [done|].
    destruct (Ascii.eqb c sep).
    + by destruct ws.
    + by destruct ws.
Qed.

Lemma keep_long_part (s : string) :
  (2 <= String.length s)%nat -> keep_part s = true.
Proof.
  destruct s as [|a [|b s]]; simpl; try lia. intros _.
  unfold keep_part. simpl. by destruct (Ascii.eqb a ".").
Qed.

Lemma last_joinpath (p : Path) (s suffix : string) :
  PyStr.contains "/" suffix = false -> (2 <= String.length suffix)%nat ->
  List.last (joinpath p (s +:+ suffix)) EmptyString
  = List.last (PyStr.split "/" s) EmptyString +:+ suffix.
Proof.
  intros Hsuffix Hlong. unfold joinpath, parse_parts.
  rewrite (split_append _ _ Hsuffix), List.filter_app. cbn [List.filter].
  rewrite keep_long_part by (rewrite PathFacts.length_append; lia).
  destruct (is_absolute_str (s +:+ suffix)); rewrite ?app_assoc; apply last_last.
Qed.

Lemma path_for_inj (base : Path) (fmt fmt' : string) :
  fmt ∈ ["json"; "txt"; "srt"] -> fmt' ∈ ["json"; "txt"; "srt"] ->
  path_for base fmt = path_for base fmt' -> fmt = fmt'.
Proof.
  intros Hfmt Hfmt' Heq. apply (f_equal (fun q => List.last q EmptyString)) in Heq.
  unfold path_for in Heq.
  rewrite !last_joinpath in Heq.
  - apply append_inv_head in Heq. by injection Heq.
  - repeat (apply elem_of_cons in Hfmt' as [->|Hfmt']; [by vm_compute|]).
    by apply elem_of_nil in Hfmt'.
  - repeat (apply elem_of_cons in Hfmt' as [->|Hfmt']; [simpl; lia|]).
    by apply elem_of_nil in Hfmt'.
  - repeat (apply elem_of_cons in Hfmt as [->|Hfmt]; [by vm_compute|]).
    by apply elem_of_nil in Hfmt.
  - repeat (apply elem_of_cons in Hfmt as [->|Hfmt]; [simpl; lia|]).
    by apply elem_of_nil in Hfmt.
Qed.

Section WithExternal.
Context {E : External}.

(** *** The state of the loop does not depend on the list it builds *)

Lemma export_one_state cfg result base fmt exported (st : State E) :
  (export_one cfg result base fmt exported st).2
  = (export_one cfg result base fmt [] st).2.
Proof. by rewrite export_one_spec. Qed.

Lemma export_loop_state cfg result base formats : forall exported (st : State E),
  (export_loop cfg result base formats exported st).2
  = (export_loop cfg result base formats [] st).2.
Proof.
  induction formats as [|fmt formats IH]; intros exported st; [done|].
  rewrite !export_loop_cons. rewrite IH. symmetry. by rewrite IH.
Qed.

Lemma export_app_state cfg result base before rest : forall st : State E,
  (export cfg result base (before ++ rest) st).2
  = (export cfg result base rest (export cfg result base before st).2).2.
Proof.
  unfold export.
  induction before as [|fmt before IH]; intros st; [done|].
  rewrite <- app_comm_cons, !export_loop_cons.
  rewrite export_loop_state, IH. f_equal. f_equal. symmetry. apply export_loop_state.
Qed.

Lemma attempts_app cfg result base before rest : forall st : State E,
  attempts cfg result base (before ++ rest) st
  = attempts cfg result base before st
    ++ attempts cfg result base rest (export cfg result base before st).2.
Proof.
  unfold export.
  induction before as [|fmt before IH]; intros st; [done|].
  rewrite <- app_comm_cons. cbn [attempts]. rewrite IH, export_loop_cons.
  cbn [app]. by rewrite (export_loop_state _ _ _ _ (path_of _)).
Qed.

Lemma export_single_state cfg result base fmt (st : State E) :
  (export cfg result base [fmt] st).2 = (export_one cfg result base fmt [] st).2.
Proof. unfold export. by rewrite export_loop_cons. Qed.

(** *** What one attempt leaves behind *)

Lemma export_one_returned cfg result base fmt export_fmt (st st1 : State E) p :
  exporter_for fmt = Some export_fmt ->
  export_fmt cfg result base st = (Ok p, st1) ->
  fs (export_one cfg result base fmt [] st).2 = fs st1.
Proof.
  intros Hfor Hrun. unfold export_one. rewrite Hfor. unfold_m. by rewrite Hrun.
Qed.

Lemma renders_all {A} (render : A -> res string) (l : list A) :
  forallb (fun x => is_ok (render x)) l = true ->
  exists lines, Forall2 (fun x line => render x = Ok line) l lines.
Proof.
  induction l as [|x l IH]; simpl; [by exists []|].
  intros [Hx Hl]%andb_prop. destruct (IH Hl) as [lines Hlines].
  destruct (render x) as [line|e] eqn:Hline; [|done].
  exists (line :: lines). by constructor.
Qed.

Lemma export_json_written cfg result base (st st1 : State E) p :
  export_json cfg result base st = (Ok p, st1) ->
  p = path_for base "json" /\
  exists text, complete cfg result base "json" st text /\ fs st1 !! p = Some text.
Proof.
  unfold export_json, open_w, write, complete, path_for. unfold_m. simpl.
  destruct (ext_open_w E _ (world st)) as [[[]|e] w] eqn:Hopen; simpl; [|done].
  destruct (ext_json_dump E result (json_ensure_ascii cfg) (json_indent cfg) w)
    as [[text|e] w'] eqn:Hdump; simpl; [|done].
  intros [= <- <-]. split; [done|]. exists text. split; [by exists w, w'|].
  simpl. by rewrite !lookup_insert_eq.
Qed.

Lemma export_txt_written cfg result base (st st1 : State E) p :
  export_txt cfg result base st = (Ok p, st1) ->
  p = path_for base "txt" /\
  exists text, complete cfg result base "txt" st text /\ fs st1 !! p = Some text.
Proof.
  intros Hrun.
  pose proof (export_txt_ok cfg result base st) as Hok. rewrite Hrun in Hok.
  symmetry in Hok. apply andb_prop in Hok as [Hopen Hlines].
  destruct (renders_all _ _ Hlines) as [lines Hall].
  destruct (ext_open_w E (joinpath (parent base) (stem base +:+ ".txt")) (world st))
    as [[[]|e] w] eqn:Hw; [|done].
  pose proof (opened_then_written _ (txt_line cfg) _ lines st w Hw Hall) as Hwritten.
  assert (Hboth : (Ok p, st1) = (Ok (joinpath (parent base) (stem base +:+ ".txt")),
                    mkState w (<[joinpath (parent base) (stem base +:+ ".txt")
                                 := PyStr.join EmptyString lines]> (fs st))
                      (stats st)
                      (trace st ++ [EvCall (COpen (joinpath (parent base)
                                                     (stem base +:+ ".txt")))])))
    by (rewrite <- Hrun; exact Hwritten).
  injection Hboth as -> ->. split; [done|].
  exists (PyStr.join EmptyString lines). split; [by exists lines|].
  simpl. by rewrite lookup_insert_eq.
Qed.

Lemma export_srt_written cfg result base (st st1 : State E) p :
  export_srt cfg result base st = (Ok p, st1) ->
  p = path_for base "srt" /\
  exists text, complete cfg result base "srt" st text /\ fs st1 !! p = Some text.
Proof.
  intros Hrun.
  pose proof (export_srt_ok cfg result base st) as Hok. rewrite Hrun in Hok.
  symmetry in Hok. apply andb_prop in Hok as [Hopen Hcues].
  destruct (renders_all (fun x : nat * Segment => srt_cue x.1 x.2) _ Hcues)
    as [cues Hall].
  destruct (ext_open_w E (joinpath (parent base) (stem base +:+ ".srt")) (world st))
    as [[[]|e] w] eqn:Hw; [|done].
  set (srt_path := joinpath (parent base) (stem base +:+ ".srt")) in *.
  assert (Hbody : forall (x : nat * Segment) (st0 : State E),
    (let '(i, segment) := x in bind (lift (srt_cue i segment)) (write srt_path)) st0
    = bind (lift (srt_cue x.1 x.2)) (write srt_path) st0)
    by (by intros [i segment] st0).
  assert (Hwritten : export_srt cfg result base st =
            (Ok srt_path,
             mkState w (<[srt_path := PyStr.join EmptyString cues]> (fs st)) (stats st)
               (trace st ++ [EvCall (COpen srt_path)]))).
  { unfold export_srt. fold srt_path.
    rewrite <- (opened_then_written srt_path (fun x => srt_cue x.1 x.2) _ cues st w
                  Hw Hall).
    apply after_open_ext. intros st0. apply for_each_ext, Hbody. }
  rewrite Hwritten in Hrun.
  injection Hrun as <- <-. split; [done|].
  exists (PyStr.join EmptyString cues). split; [by exists cues|].
  simpl. by rewrite lookup_insert_eq.
Qed.

Lemma export_one_written cfg result base fmt (st : State E) p :
  attempt_of cfg result base fmt st = Written p ->
  fmt ∈ ["json"; "txt"; "srt"] /\
  p = path_for base fmt /\
  exists text,
    complete cfg result base fmt st text /\
    fs (export_one cfg result base fmt [] st).2 !! p = Some text.
Proof.
  unfold attempt_of.
  destruct (exporter_for fmt) as [export_fmt|] eqn:Hfor; [|done].
  destruct (export_fmt cfg result base st) as [[path|e] st1] eqn:Hrun; [|done].
  simpl. intros [= ->].
  rewrite (export_one_returned _ _ _ _ _ _ _ _ Hfor Hrun).
  unfold exporter_for in Hfor.
  destruct (String.eqb fmt "json") eqn:Hjson.
  { apply String.eqb_eq in Hjson as ->. injection Hfor as <-.
    split; [set_solver|]. by apply export_json_written. }
  destruct (String.eqb fmt "txt") eqn:Htxt.
  { apply String.eqb_eq in Htxt as ->. injection Hfor as <-.
    split; [set_solver|]. by apply export_txt_written. }
  destruct (String.eqb fmt "srt") eqn:Hsrt; [|done].
  apply String.eqb_eq in Hsrt as ->. injection Hfor as <-.
  split; [set_solver|]. by apply export_srt_written.
Qed.

Lemma export_one_unknown cfg result base fmt exported (st : State E) :
  attempt_of cfg result base fmt st = Unknown ->
  fs (export_one cfg result base fmt exported st).2 = fs st.
Proof.
  unfold attempt_of, export_one.
  destruct (exporter_for fmt) as [export_fmt|] eqn:Hfor.
  - by destruct ((export_fmt cfg result base st).1).
  - done.
Qed.

(** *** An attempt touches the file of its format only *)

Lemma export_one_frame_own (R : relation (State E)) `{!FrameRel R}
    cfg result base fmt exported :
  (forall p, p ∈ own_paths base fmt -> may_write R p) ->
  respects R (export_one (E := E) cfg result base fmt exported).
Proof.
  intros Hwrite. unfold export_one, exporter_for. frame_step.
  - destruct (String.eqb fmt "json") eqn:Hjson.
    { apply String.eqb_eq in Hjson as ->.
      frame_step; [|frame_auto]. apply export_json_frame; [done|]. apply Hwrite. by left. }
    destruct (String.eqb fmt "txt") eqn:Htxt.
    { apply String.eqb_eq in Htxt as ->.
      frame_step; [|frame_auto]. apply export_txt_frame; [done|]. apply Hwrite. by left. }
    destruct (String.eqb fmt "srt") eqn:Hsrt.
    { apply String.eqb_eq in Hsrt as ->.
      frame_step; [|frame_auto]. apply export_srt_frame; [done|]. apply Hwrite. by left. }
    frame_auto.
  - frame_auto.
Qed.

Lemma export_loop_frame_own cfg result base formats : forall exported,
  respects (untouched_outside (E := E) (flat_map (own_paths base) formats))
    (export_loop cfg result base formats exported).
Proof.
  induction formats as [|fmt formats IH]; intros exported; cbn [export_loop flat_map].
  - apply respects_ret, _.
  - apply respects_bind; [apply _| |].
    + apply export_one_frame_own; [apply _|]. intros p Hp.
      apply may_write_inside. apply elem_of_app. by left.
    + intros exported' st p Hp. apply IH. intros Hin. apply Hp.
      apply elem_of_app. by right.
Qed.

Lemma own_path_apart (base : Path) (fmt : string) (after : list string) :
  fmt ∈ ["json"; "txt"; "srt"] -> fmt ∉ after ->
  path_for base fmt ∉ flat_map (own_paths base) after.
Proof.
  intros Hfmt Hafter Hin.
  apply list_elem_of_In, in_flat_map in Hin as (fmt' & Hfmt' & Hown).
  apply list_elem_of_In in Hfmt', Hown. unfold own_paths in Hown.
  case_bool_decide as Hknown; [|by apply elem_of_nil in Hown].
  apply list_elem_of_singleton in Hown.
  apply path_for_inj in Hown; [|done|done]. by subst.
Qed.

(** C8 (amended).  [export] never raises, whatever happens to a
    format.  Every requested format is attempted in its turn, in the
    state the formats before it have left: a name other than [json],
    [txt], [srt] is met with a warning, contributes no path and
    leaves the files as they are; a format whose exporter raises is
    met with an error record and contributes no path, though its own
    file may stay behind, and no other file is touched; a format
    whose exporter returns contributes the path of its file, which
    then holds the whole text of that format, and still holds it when
    [export] returns unless the same format is requested again.  The
    list returned is made of the paths of the formats whose exporter
    has returned, in the order of the request. *)
Theorem export_attempts_every_format (cfg : Settings) (result : Result)
    (output_path : Path) (formats : list string) (st : State E) :
  let out := export cfg result output_path formats st in
  let tried := attempts cfg result output_path formats st in
  tried.*1 = formats /\
  out.1 = Ok (omap written tried) /\
  (forall fmt a, (fmt, a) ∈ tried ->
     match a with
     | Unknown =>
         (fmt ∉ ["json"; "txt"; "srt"]) /\
         (EvLog WARNING (MUnknownFormat fmt) ∈ trace out.2)
     | Refused e => EvLog ERROR (MExportError fmt e) ∈ trace out.2
     | Written p =>
         is_Some (fs out.2 !! p) /\ EvLog INFO (MExported (name p)) ∈ trace out.2
     end) /\
  (forall fmt a, (fmt, a) ∈ tried -> fmt ∈ ["json"; "txt"; "srt"] -> a <> Unknown) /\
  (forall before fmt after,
     formats = before ++ fmt :: after ->
     let st0 := (export cfg result output_path before st).2 in
     let st1 := (export cfg result output_path (before ++ [fmt]) st).2 in
     tried !! List.length before
       = Some (fmt, attempt_of cfg result output_path fmt st0) /\
     match attempt_of cfg result output_path fmt st0 with
     | Written p =>
         p = path_for output_path fmt /\
         exists text,
           complete cfg result output_path fmt st0 text /\
           fs st1 !! p = Some text /\
           (fmt ∉ after -> fs out.2 !! p = Some text)
     | Refused e =>
         forall p, p <> path_for output_path fmt -> fs st1 !! p = fs st0 !! p
     | Unknown => fs st1 = fs st0
     end).
Proof.
  intros out tried.
  destruct (export_loop_spec cfg result output_path formats [] st) as [Hout Hrec].
  split; [apply attempts_formats|].
  split; [exact Hout|].
  split; [exact Hrec|].
  split.
  { intros fmt a Hin Hknown ->. by destruct (Hrec _ _ Hin) as [Hunknown _]. }
  intros before fmt after -> st0 st1.
  assert (Hst1 : st1 = (export_one cfg result output_path fmt [] st0).2).
  { subst st1 st0. by rewrite export_app_state, export_single_state. }
  split.
  { subst tried. rewrite attempts_app. fold st0.
    assert (Hlen : List.length (attempts cfg result output_path before st)
                   = List.length before).
    { rewrite <- (attempts_formats cfg result output_path before st) at 2.
      by rewrite length_fmap. }
    rewrite lookup_app_r by lia. by rewrite Hlen, Nat.sub_diag. }
  destruct (attempt_of cfg result output_path fmt st0) as [|p|e] eqn:Hattempt.
  - rewrite Hst1. by apply export_one_unknown.
  - destruct (export_one_written _ _ _ _ _ _ Hattempt)
      as (Hknown & -> & text & Hcomplete & Hfile).
    split; [done|]. exists text. split; [done|]. rewrite Hst1. split; [done|].
    intros Hafter. rewrite <- Hfile, <- Hst1. subst out st1.
    replace (before ++ fmt :: after) with ((before ++ [fmt]) ++ after)
      by (by rewrite <- app_assoc).
    rewrite export_app_state.
    apply (export_loop_frame_own cfg result output_path after []).
    by apply own_path_apart.
  - intros p Hp. rewrite Hst1.
    assert (Hframe : respects (untouched_outside (E := E) (own_paths output_path fmt))
                       (export_one cfg result output_path fmt [])).
    { apply export_one_frame_own; [apply _|]. intros q Hq. by apply may_write_inside. }
    apply Hframe. unfold own_paths. case_bool_decide; [|apply not_elem_of_nil].
    by intros ->%list_elem_of_singleton.
Qed.

End WithExternal.

Lemma export_attempts_every_format_witness :
  let cfg := Fake.settings [] false in
  let st := Pipeline.initial (E := reliable) tt ∅ in
  let out := export cfg Fake.one_segment ["out"; "a."] ["txt"; "json"] st in
  out.1 = Ok [["out"; "a..txt"]; ["out"; "a..json"]] /\
  exists text,
    complete cfg Fake.one_segment ["out"; "a."] "txt" st text /\
    fs out.2 !! ["out"; "a..txt"] = Some text.
Proof.
  intros cfg st out.
  pose proof (export_attempts_every_format (E := reliable) cfg Fake.one_segment
                ["out"; "a."] ["txt"; "json"] st) as (_ & Hout & _ & _ & Hcontent).
  split; [exact Hout|].
  destruct (Hcontent [] "txt" ["json"] eq_refl) as [_ Hwritten].
  assert (Hattempt : attempt_of cfg Fake.one_segment ["out"; "a."] "txt"
                       (export cfg Fake.one_segment ["out"; "a."] [] st).2
                     = Written ["out"; "a..txt"]) by (vm_compute; reflexivity).
  rewrite Hattempt in Hwritten.
  destruct Hwritten as (_ & text & Hcomplete & _ & Hfinal).
  exists text. split; [exact Hcomplete|].
  apply Hfinal. intros Hin. apply list_elem_of_singleton in Hin. discriminate Hin.
Defined.

(** C8 (the claim as stated fails).  The subtitle exporter writes cue
    by cue: when a later segment cannot be rendered it raises and
    leaves its file behind with the cues before that segment.  The
    format is excluded from the list [export] returns, which is then
    not the list of the files written. *)
Lemma a_file_written_is_not_returned :
  let bad := mkSegment (Some (PyNum.Float S754_nan)) None (Some "lost") None in
  let result := mkResult None (Some [bare "kept"; bad]) in
  let cue := "1" +:+ PyStr.nl +:+ "00:00:00,000 --> 00:00:00,000" +:+ PyStr.nl +:+
             "kept" +:+ PyStr.nl +:+ PyStr.nl in
  let st := Pipeline.initial (E := reliable) tt ∅ in
  let out := export (Fake.settings [] false) result ["out"; "a."] ["srt"; "json"] st in
  out.1 = Ok [["out"; "a..json"]] /\
  fs st !! ["out"; "a..srt"] = None /\
  fs out.2 !! ["out"; "a..srt"] = Some cue /\
  EvLog ERROR (MExportError "srt" ValueError) ∈ trace out.2.
Proof.
  vm_compute. split; [reflexivity|]. split; [reflexivity|]. split; [reflexivity|].
  set_solver.
Qed.

End ExportLoopFacts.

(** ** More on the rendering of times *)

Module TimeFacts.
Import PyNum TimeFormat Exporter RenderFacts.

(** X12.  Whole seconds are split exactly, whatever their sign: the
    subtitle time of an integer [n] shows hours, minutes and seconds
    with [0 <= minutes < 60], [0 <= seconds < 60] and
    [n = 3600 hours + 60 minutes + seconds], and no milliseconds; the
    text timestamp shows the same seconds after the minutes counted
    without limit, [60 hours + minutes]: it has no field for hours. *)
Theorem whole_seconds_are_split_exactly (n : Z) :
  exists hours minutes secs : Z,
    _to_srt_time (Int n) =
      Ok (PyStr.format_0d 2 hours +:+ ":" +:+ PyStr.format_0d 2 minutes +:+ ":" +:+
          PyStr.format_0d 2 secs +:+ ",000") /\
    _format_timestamp (Int n) =
      Ok (PyStr.format_0d 2 (60 * hours + minutes) +:+ ":" +:+ PyStr.format_0d 2 secs) /\
    0 <= minutes < 60 /\ 0 <= secs < 60 /\
    n = 3600 * hours + 60 * minutes + secs.
Proof.
  exists (n / 3600), (n mod 3600 / 60), (n mod 60).
  split; [apply to_srt_time_int|].
  split.
  - rewrite format_timestamp_int. do 3 f_equal.
    Z.div_mod_to_equations. lia.
  - Z.div_mod_to_equations. lia.
Qed.

Lemma to_srt_time_non_finite (f : spec_float) :
  f = S754_nan \/ (exists s, f = S754_infinity s) ->
  _to_srt_time (Float f) = Raise ValueError.
Proof. intros [->|[[] ->]]; vm_compute; reflexivity. Qed.

Lemma format_timestamp_non_finite (f : spec_float) :
  f = S754_nan \/ (exists s, f = S754_infinity s) ->
  _format_timestamp (Float f) = Raise ValueError.
Proof. intros [->|[[] ->]]; vm_compute; reflexivity. Qed.

(** X13.  A start time that is not a finite number - a NaN or an
    infinity - cannot be rendered: the subtitle cue of the segment
    raises [ValueError], and so does its text line when timestamps are
    enabled, while the text line without timestamps does not read the
    time and is rendered. *)
Theorem a_non_finite_start_fails_the_rendering (cfg : Settings) (i : nat)
    (segment : Segment) (f : spec_float) :
  f = S754_nan \/ (exists s, f = S754_infinity s) ->
  seg_start segment = Some (Float f) ->
  srt_cue i segment = Raise ValueError /\
  (txt_include_timestamps cfg = true -> txt_line cfg segment = Raise ValueError) /\
  (txt_include_timestamps cfg = false -> is_ok (txt_line cfg segment) = true).
Proof.
  intros Hf Hstart. unfold srt_cue, txt_line. rewrite Hstart.
  change (default (Int 0) (Some (Float f))) with (Float f).
  rewrite (to_srt_time_non_finite _ Hf), (format_timestamp_non_finite _ Hf).
  split; [done|]. split; by intros ->.
Qed.

Lemma a_non_finite_start_fails_the_rendering_witness :
  let segment := mkSegment (Some (Float (S754_infinity false))) None (Some "x") None in
  seg_start segment = Some (Float (S754_infinity false)) /\
  srt_cue 1 segment = Raise ValueError.
Proof.
  intros segment. split; [reflexivity|].
  exact (proj1 (a_non_finite_start_fails_the_rendering (Fake.settings [] false) 1 segment
                  (S754_infinity false) (or_intror (ex_intro _ false eq_refl)) eq_refl)).
Defined.

End TimeFacts.

(** ** More on the stages of a file *)

Module StageFacts.
Import Pathlib Observe MonadFacts Frames FrameFacts Pipeline PipelineFacts Samples.

Section WithExternal.
Context {E : External}.

(** *** Diarization *)

(** X14.  [_diarize] never raises.  When its three calls - loading the
    model, running it on the file, assigning the speakers - all
    return, it returns what the assignment of the speakers has
    returned for the result it was given; as soon as one of them
    raises, the calls after it are not made, a warning with the
    exception is logged and the result it was given is returned (the
    collaborators being taken not to modify their arguments).  In
    either case the statistics are as they were. *)
Theorem diarize_never_raises (self : t) (audio_path : Path) (result : Result)
    (st : State E) :
  let out := _diarize self audio_path result st in
  let begun := trace st ++ [EvLog INFO MDiarizing; EvCall CLoadDiarizationModel] in
  let gives_up e w calls :=
    out = (Ok result,
           mkState w (fs st) (stats st)
             (begun ++ calls ++
              [EvLog WARNING (MDiarizationError e); EvLog INFO MContinuing])) in
  match ext_load_diarization_model E (hf_token (config self)) (world st) with
  | (Raise e, w1) => gives_up e w1 []
  | (Ok _, w1) =>
      match ext_diarize E audio_path w1 with
      | (Raise e, w2) => gives_up e w2 [EvCall (CDiarize audio_path)]
      | (Ok diarize_segments, w2) =>
          match ext_assign_word_speakers E diarize_segments result w2 with
          | (Raise e, w3) =>
              gives_up e w3 [EvCall (CDiarize audio_path); EvCall CAssignWordSpeakers]
          | (Ok result', w3) =>
              out = (Ok result',
                     mkState w3 (fs st) (stats st)
                       (begun ++ [EvCall (CDiarize audio_path);
                                  EvCall CAssignWordSpeakers; EvLog INFO MDiarized]))
          end
      end
  end.
Proof.
  intros out begun gives_up. subst out begun gives_up. unfold _diarize. unfold_m. simpl.
  destruct (ext_load_diarization_model E (hf_token (config self)) (world st))
    as [[[]|e1] w1]; simpl.
  - destruct (ext_diarize E audio_path w1) as [[diarize_segments|e2] w2]; simpl.
    + destruct (ext_assign_word_speakers E diarize_segments result w2)
        as [[result'|e3] w3]; simpl; by rewrite <- !app_assoc.
    + by rewrite <- !app_assoc.
  - by rewrite <- !app_assoc.
Qed.

Lemma diarize_returns (self : t) (audio_path : Path) (result : Result) (st : State E) :
  exists result' st', _diarize self audio_path result st = (Ok result', st').
Proof.
  unfold _diarize. unfold_m. simpl.
  destruct (ext_load_diarization_model E (hf_token (config self)) (world st))
    as [[[]|e1] w1]; simpl; [|by eexists _, _].
  destruct (ext_diarize E audio_path w1) as [[diarize_segments|e2] w2]; simpl;
    [|by eexists _, _].
  destruct (ext_assign_word_speakers E diarize_segments result w2)
    as [[result'|e3] w3]; simpl; by eexists _, _.
Qed.

Lemma export_returns (cfg : Settings) (result : Result) (base : Path)
    (formats : list string) (st : State E) :
  exists exported st', Exporter.export cfg result base formats st = (Ok exported, st').
Proof.
  destruct (ExportFacts.export_loop_spec cfg result base formats [] st) as [Hout _].
  unfold Exporter.export.
  destruct (Exporter.export_loop cfg result base formats [] st) as [r st'].
  simpl in Hout. subst r. by eexists _, _.
Qed.

(** *** Which stages can fail a file *)

(** The stages of [_process_file] up to the alignment. *)
Lemma process_steps_split (self : t) (audio_path : Path) (st : State E) :
  _process_steps self audio_path st =
  bind
    (bind (FileHandler.load_audio (file_handler self) audio_path) (fun audio =>
     bind (_transcribe self audio) (fun result =>
     if alignment_enabled (config self) then _align self audio result else ret result)))
    (fun result =>
     bind (if diarization_enabled (config self)
           then _diarize self audio_path result else ret result) (fun result =>
     bind (Exporter.export (config self) result
             (FileHandler.get_output_path (file_handler self) audio_path EmptyString)
             (output_formats (config self))) (fun _ =>
     logger INFO (MDone (name audio_path))))) st.
Proof.
  unfold _process_steps, bind.
  destruct (FileHandler.load_audio (file_handler self) audio_path st) as [[audio|e] st1];
    [|done].
  destruct (_transcribe self audio st1) as [[result|e] st2]; [|done].
  by destruct ((if alignment_enabled (config self)
                then _align self audio result else ret result) st2) as [[result'|e] st3].
Qed.

Lemma process_file_fails_with_its_first_stages (self : t) (audio_path : Path)
    (st : State E) :
  skips self audio_path st = false ->
  (_process_file self audio_path st).1 =
  match (bind (FileHandler.load_audio (file_handler self) audio_path) (fun audio =>
         bind (_transcribe self audio) (fun result =>
         if alignment_enabled (config self) then _align self audio result
         else ret result))
           (mkState (world st) (fs st) (stats st)
              (trace st ++ [processing audio_path]))).1 with
  | Ok _ => Ok tt
  | Raise e => Raise e
  end.
Proof.
  intros Hskip.
  rewrite (process_file_proceeds _ _ _ Hskip).
  rewrite process_steps_split. unfold bind at 1.
  match goal with
  | |- context [let (_, _) := ?m ?s in _] => destruct (m s) as [[result|e] st1]
  end; [|done]. simpl.
  assert (Hdiarize : exists result' st2,
    (if diarization_enabled (config self)
     then _diarize self audio_path result else ret result) st1 = (Ok result', st2)).
  { destruct (diarization_enabled (config self)); [apply diarize_returns|].
    by eexists _, _. }
  destruct Hdiarize as (result' & st2 & Hdiarize).
  unfold bind at 1. rewrite Hdiarize.
  destruct (export_returns (config self) result'
              (FileHandler.get_output_path (file_handler self) audio_path EmptyString)
              (output_formats (config self)) st2) as (exported & st3 & Hexport).
  unfold bind. by rewrite Hexport.
Qed.


(** X16.  A transcription result without the key [segments] is
    accepted by [_transcribe], which counts zero segments, and refused
    by [_align]: with the alignment enabled the file fails with
    [KeyError], after the alignment model has been loaded and before
    the alignment is called; with the alignment disabled the file
    goes through. *)
Theorem a_result_without_segments_fails_the_alignment (self : t) (audio_path : Path)
    (st : State E) (audio : Audio E) (result : Result) (w1 w2 : World E) :
  skips self audio_path st = false ->
  ext_load_audio E audio_path (world st) = (Ok audio, w1) ->
  ext_transcribe E audio (batch_size (config self)) w1 = (Ok result, w2) ->
  res_segments result = None ->
  let language_code := default (language (config self)) (res_language result) in
  let out := _process_file self audio_path st in
  let transcribed :=
    trace st ++
    [processing audio_path; EvLog INFO (MLoadingAudio (name audio_path));
     EvCall (CLoadAudio audio_path); EvLog INFO MTranscribing; EvCall CTranscribe;
     EvLog INFO (MTranscribed 0)] in
  (alignment_enabled (config self) = true ->
   forall align_model w3,
     ext_load_alignment_model E language_code w2 = (Ok align_model, w3) ->
     out = (Raise (KeyError "segments"),
            mkState w3 (fs st) (stats st)
              (transcribed ++
               [EvLog INFO MAligning; EvCall (CLoadAlignmentModel language_code)]))) /\
  (alignment_enabled (config self) = false -> out.1 = Ok tt).
Proof.
  intros Hskip Haudio Hresult Hsegments language_code out transcribed.
  split.
  - intros Halign align_model w3 Hmodel. subst out transcribed.
    rewrite (process_file_proceeds _ _ _ Hskip).
    unfold _process_steps, FileHandler.load_audio, _transcribe, _align.
    unfold_m. simpl. rewrite Haudio. simpl. rewrite Hresult. simpl.
    rewrite Halign, Hsegments. simpl. fold language_code. rewrite Hmodel. simpl.
    by rewrite <- !app_assoc.
  - intros Halign. subst out.
    rewrite (process_file_fails_with_its_first_stages _ _ _ Hskip).
    unfold FileHandler.load_audio, _transcribe. unfold_m. simpl.
    rewrite Haudio. simpl. rewrite Hresult. simpl. by rewrite Halign.
Qed.

(** *** A file that is not skipped *)



End WithExternal.


Lemma a_result_without_segments_fails_the_alignment_witness :
  let st := initial (E := no_segments) tt ∅ in
  (_process_file all_formats a_wav st).1 = Raise (KeyError "segments").
Proof.
  intros st.
  pose proof (proj1 (a_result_without_segments_fails_the_alignment (E := no_segments)
                       all_formats a_wav st a_wav (mkResult (Some "pt") None) tt tt
                       eq_refl eq_refl eq_refl eq_refl) eq_refl tt tt eq_refl) as Hout.
  by rewrite Hout.
Defined.


End StageFacts.

(** ** More on the run *)

Module RunFacts.
Import Pathlib Observe MonadFacts Frames FrameFacts Pipeline PipelineFacts StageFacts Samples.

Section WithExternal.
Context {E : External}.

Lemma run_without_model (self : t) (st : State E) (e : exn) (w1 : World E) :
  ext_load_whisper_model E (whisper_model (config self)) (language (config self))
    (world st) = (Raise e, w1) ->
  run self st =
  (Raise e,
   mkState w1 (fs st) (stats st)
     (trace st ++
      [EvLog INFO MStart;
       EvCall (CLoadWhisperModel (whisper_model (config self)) (language (config self)))])).
Proof.
  intros Hload. unfold run. unfold_m. simpl. rewrite Hload. simpl.
  by rewrite <- !app_assoc.
Qed.

Lemma after_loop_fs (st2 : State E) : fs (after_loop st2).2 = fs st2.
Proof. unfold after_loop. by destruct (ext_cleanup E (world st2)) as [[[]|e] w2]. Qed.

(** X18.  [run] raises in three cases only.  When the transcription
    model does not load, the exception leaves [run] at once: no file
    is looked for, nothing is cleaned up, the statistics are as they
    were.  When the discovery raises, at a file whose size cannot be
    read, the exception leaves [run] there: no file is processed,
    nothing is cleaned up, the files and the statistics are as they
    were.  When files were found and the cleanup raises, the
    exception leaves [run] after the cleanup call, the last thing it
    did.  In every other case [run] returns, whatever has happened to
    the files. *)
Theorem run_raises_at_load_discovery_or_cleanup (self : t) (st : State E) :
  let load := EvCall (CLoadWhisperModel (whisper_model (config self))
                                        (language (config self))) in
  let out := run self st in
  match ext_load_whisper_model E (whisper_model (config self)) (language (config self))
          (world st) with
  | (Raise e, w1) =>
      out = (Raise e,
             mkState w1 (fs st) (stats st) (trace st ++ [EvLog INFO MStart; load]))
  | (Ok _, w1) =>
      out.1 = Ok tt \/
      (exists e (st1 : State E) evs,
         discovery_raises self st w1 e st1 /\
         out = (Raise e, st1) /\
         fs st1 = fs st /\ stats st1 = stats st /\
         Forall (fun ev => of_discovery ev = true) evs /\
         trace st1 = trace st ++ [EvLog INFO MStart; load] ++ evs) \/
      exists e (st2 : State E) w2,
        FileHandler.audio_files_in (file_handler self) (fs st) <> [] /\
        ext_cleanup E (world st2) = (Raise e, w2) /\
        out = (Raise e,
               mkState w2 (fs st2) (stats st2) (trace st2 ++ [EvCall CCleanup]))
  end.
Proof.
  intros load out. subst out.
  destruct (ext_load_whisper_model E (whisper_model (config self))
              (language (config self)) (world st)) as [[[]|e] w1] eqn:Hload.
  - destruct (discovery_cases self st w1)
      as [[st1 Hfound]|(e & st1 & Hraises & Hfs & Hstats & evs & Hevs & Htrace)].
    + destruct (FileHandler.audio_files_in (file_handler self) (fs st))
        as [|f files] eqn:Hfiles.
      * left. by rewrite (run_without_files self st w1 Hload Hfiles).
      * assert (Hsome : FileHandler.audio_files_in (file_handler self) (fs st) <> [])
          by (by rewrite Hfiles).
        destruct (run_with_files self st w1 st1 Hload Hfound Hsome) as (st2 & _ & ->).
        unfold after_loop.
        destruct (ext_cleanup E (world st2)) as [[[]|e] w2] eqn:Hcleanup.
        -- by left.
        -- right. right. exists e, st2, w2. by rewrite <- Hfiles.
    + right. left. exists e, st1, evs.
      by rewrite (run_discovery_raises _ _ _ _ _ Hload Hraises).
  - by apply run_without_model.
Qed.

(** *** What a run writes *)

Section Frame.
Context (R : relation (State E)) `{!FrameRel R}.

Lemma process_file_frame (self : t) (audio_path : Path) :
  (forall p,
     p ∈ candidates (FileHandler.get_output_path (file_handler self) audio_path
                       EmptyString) ->
     may_write R p) ->
  respects R (_process_file (E := E) self audio_path).
Proof.
  intros Hwrite.
  unfold _process_file, _process_steps, FileHandler.load_audio, _transcribe,
    _align, _diarize.
  frame_step; [frame_step|]. frame_step; [frame_step|].
  frame_step; [frame_auto|].
  frame_step; [frame_auto|]. frame_step; [frame_auto|].
  frame_step; [frame_auto|]. frame_step; [frame_auto|].
  frame_step; [by apply export_frame|frame_step].
Qed.

Lemma run_file_frame (self : t) (audio_file : Path) :
  (forall p,
     p ∈ candidates (FileHandler.get_output_path (file_handler self) audio_file
                       EmptyString) ->
     may_write R p) ->
  respects R (run_file (E := E) self audio_file).
Proof.
  intros Hwrite. unfold run_file.
  frame_step; [|frame_auto].
  frame_step; [by apply process_file_frame|frame_step].
Qed.

End Frame.

(** The files after a run are those after its loop, if it has one. *)
Lemma run_files (self : t) (st : State E) :
  fs (run self st).2 = fs st \/
  exists st1 st2 : State E,
    fs st1 = fs st /\
    for_each (FileHandler.audio_files_in (file_handler self) (fs st)) (run_file self) st1
      = (Ok tt, st2) /\
    fs (run self st).2 = fs st2.
Proof.
  destruct (ext_load_whisper_model E (whisper_model (config self))
              (language (config self)) (world st)) as [[[]|e] w1] eqn:Hload.
  - destruct (FileHandler.audio_files_in (file_handler self) (fs st))
      as [|f files] eqn:Hfiles.
    + left. by rewrite (run_without_files self st w1 Hload Hfiles).
    + assert (Hsome : FileHandler.audio_files_in (file_handler self) (fs st) <> [])
        by (by rewrite Hfiles).
      destruct (discovery_cases self st w1)
        as [[st1 Hfound]|(e & st1 & Hraises & Hfs & _)].
      * destruct (run_with_files self st w1 st1 Hload Hfound Hsome)
          as (st2 & Hloop & Hrun).
        destruct (discovers_spec _ _ _ _ Hfound) as (_ & Hfs & _).
        right. exists (at_loop self st1), st2.
        split; [done|]. rewrite <- Hfiles. split; [done|].
        by rewrite Hrun, after_loop_fs.
      * left. by rewrite (run_discovery_raises _ _ _ _ _ Hload Hraises).
  - left. by rewrite (run_without_model self st e w1 Hload).
Qed.

(** X19.  A run removes no file, and the only files its own code
    writes are the export files of the audio files it has discovered
    - for each of them the [.json], [.txt] and [.srt] files beside
    the base path that [_process_file] hands to the exporter: every
    file that is not one of these is after the run what it was
    before.  An audio file is left alone unless its own path is such
    an export path, as it can be when the directory read is also the
    directory written.  (The files here are those the exporter
    opens: what the collaborators and the logger do to files is not
    part of the model.) *)
Theorem run_writes_export_files_only (self : t) (st : State E) :
  let audio_files := FileHandler.audio_files_in (file_handler self) (fs st) in
  let paths :=
    flat_map (fun f => candidates (FileHandler.get_output_path (file_handler self) f
                                     EmptyString)) audio_files in
  (forall p, p ∉ paths -> fs (run self st).2 !! p = fs st !! p) /\
  (forall p, is_Some (fs st !! p) -> is_Some (fs (run self st).2 !! p)).
Proof.
  intros audio_files paths.
  destruct (run_files self st) as [->|(st1 & st2 & Hst1 & Hloop & ->)]; [done|].
  fold audio_files in Hloop. split.
  - assert (Hframe : respects (untouched_outside (E := E) paths)
                       (for_each audio_files (run_file self))).
    { apply respects_for_each_in; [apply _|]. intros f Hf.
      apply run_file_frame; [apply _|]. intros p Hp. apply may_write_inside.
      apply list_elem_of_In, in_flat_map. exists f.
      split; by apply list_elem_of_In. }
    intros p Hp. specialize (Hframe st1 p Hp). by rewrite Hloop, Hst1 in Hframe.
  - assert (Hframe : respects (keeps_files (E := E))
                       (for_each audio_files (run_file self))).
    { apply respects_for_each; [apply _|]. intros f.
      apply run_file_frame; [apply _|]. intros p _. apply may_write_keeps_files. }
    intros p Hp. specialize (Hframe st1 p). rewrite Hloop, Hst1 in Hframe. by apply Hframe.
Qed.

(** An audio file whose path is the export path of another one is
    overwritten by the run. *)
Example an_audio_file_can_be_overwritten :
  let files : gmap (list string) string :=
    {[ ["d"; "a.txt"] := "first"; ["d"; "a_transcricao..txt"] := "second" ]} in
  let st := initial (E := reliable) tt files in
  let out := run in_place st in
  FileHandler.audio_files_in (file_handler in_place) files
    = [["d"; "a.txt"]; ["d"; "a_transcricao..txt"]] /\
  out.1 = Ok tt /\
  fs out.2 !! ["d"; "a.txt"] = Some "first" /\
  fs out.2 !! ["d"; "a_transcricao..txt"] = Some ("[SPEAKER_00] hello" +:+ PyStr.nl).
Proof. vm_compute. repeat split; reflexivity. Qed.

(** *** The counts of a run *)

(** X20.  A run whose model loads and whose discovery returns adds
    to the counts it finds: [success], [failed] and [skipped] grow by
    the numbers of this run's files with these outcomes (a skipped
    file counting as a success too), while [total] is set to the
    number of files of this run; a run that finds no file leaves all
    four as they were.  On a pipeline that has run before,
    [success + failed] therefore exceeds [total] by the earlier
    counts. *)
Theorem run_adds_to_the_counts (self : t) (st : State E) (w1 : World E)
    (st1 : State E) :
  loads self st w1 ->
  discovers self st w1 st1 ->
  let audio_files := FileHandler.audio_files_in (file_handler self) (fs st) in
  let os := outcomes self audio_files (at_loop self st1) in
  let s := stats st in
  let s' := stats (run self st).2 in
  (audio_files = [] -> s' = s) /\
  (audio_files <> [] ->
   total s' = List.length audio_files /\
   success s' = (success s + count is_completed os + count is_skipped os)%nat /\
   failed s' = (failed s + count is_failed os)%nat /\
   skipped s' = (skipped s + count is_skipped os)%nat /\
   (success s' + failed s' = success s + failed s + total s')%nat).
Proof.
  intros Hload Hfound audio_files os s s'. split.
  - intros Hnone. subst s'. by rewrite (run_without_files self st w1 Hload Hnone).
  - intros Hsome.
    destruct (run_with_files self st w1 st1 Hload Hfound Hsome) as (st2 & Hloop & Hrun).
    destruct (loop_spec self audio_files (at_loop self st1))
      as (st2' & evs & Hloop' & Hstats & _).
    fold audio_files in Hloop. rewrite Hloop in Hloop'. simplify_eq.
    subst s'. rewrite Hrun, after_loop_stats, Hstats, tally_counts.
    rewrite (at_loop_stats _ _ _ _ Hfound). simpl.
    fold os. pose proof (count_total os) as Hall.
    subst os. rewrite outcomes_length in Hall. fold audio_files. fold s.
    repeat split; lia.
Qed.

(** *** A pipeline without formats *)

Lemma skips_without_formats (self : t) (audio_path : Path) (st : State E) :
  skip_existing (config self) = true -> output_formats (config self) = [] ->
  skips self audio_path st = true.
Proof. unfold skips. by intros -> ->. Qed.

Lemma loop_of_skipped_files (self : t) (audio_files : list Path) :
  (forall f (st : State E), skips self f st = true) ->
  forall st : State E,
    for_each audio_files (run_file self) st =
    (Ok tt,
     mkState (world st) (fs st)
       (mkStats (total (stats st))
                (success (stats st) + List.length audio_files)
                (failed (stats st))
                (skipped (stats st) + List.length audio_files))
       (trace st ++
        flat_map (fun f => [processing f; EvLog INFO (MSkipping (name f))]) audio_files)).
Proof.
  intros Hskips.
  induction audio_files as [|f files IH]; intros st; simpl.
  - unfold ret. rewrite app_nil_r, !Nat.add_0_r. by destruct st as [? ? []].
  - unfold bind at 1. unfold run_file, try_except. unfold bind at 1.
    rewrite (process_file_skips _ _ _ (Hskips f st)). simpl.
    rewrite IH. simpl. rewrite <- app_assoc. simpl.
    f_equal. f_equal. f_equal; lia.
Qed.

(** X21.  With [skip_existing] on and no output format configured,
    the test for existing outputs holds of every file: a run whose
    model loads and whose discovery returns skips each file it
    finds, counts each as skipped and as a success, loads no audio,
    transcribes nothing and writes no file. *)
Theorem without_formats_every_file_is_skipped (self : t) (st : State E) (w1 : World E)
    (st1 : State E) :
  skip_existing (config self) = true ->
  output_formats (config self) = [] ->
  loads self st w1 ->
  discovers self st w1 st1 ->
  let audio_files := FileHandler.audio_files_in (file_handler self) (fs st) in
  let out := run self st in
  audio_files <> [] ->
  fs out.2 = fs st /\
  stats out.2 =
    mkStats (List.length audio_files)
            (success (stats st) + List.length audio_files)
            (failed (stats st))
            (skipped (stats st) + List.length audio_files) /\
  exists evs,
    trace out.2 = trace st ++ evs /\
    Forall (fun ev => loads_or_transcribes ev = false) evs.
Proof.
  intros Hflag Hformats Hload Hfound audio_files out Hsome. subst out.
  destruct (run_with_files self st w1 st1 Hload Hfound Hsome) as (st2 & Hloop & ->).
  destruct (discovers_spec _ _ _ _ Hfound)
    as (_ & Hfs & Hstats1 & sizes & _ & Htrace1).
  fold audio_files in Hloop, Htrace1.
  rewrite (loop_of_skipped_files self audio_files) in Hloop
    by (intros; by apply skips_without_formats).
  injection Hloop as <-.
  rewrite after_loop_fs, after_loop_stats, after_loop_trace.
  cbn [fs stats trace at_loop set_total total success failed skipped].
  rewrite Hfs, Hstats1. fold audio_files.
  split; [done|]. split; [done|].
  rewrite Htrace1. rewrite <- !app_assoc. eexists. split; [reflexivity|].
  repeat (apply Forall_cons; split; [done|]).
  apply Forall_app. split.
  { eapply Forall_impl; [apply discovery_events_of_discovery|].
    intros ev Hev. by destruct ev as [[]|? []]. }
  apply Forall_app. split.
  - apply Forall_flat_map, Forall_forall. intros f _. by repeat constructor.
  - apply Forall_cons. split; [done|].
    match goal with |- context [match ?r with _ => _ end] => destruct r end;
      by repeat constructor.
Qed.

End WithExternal.

Lemma run_adds_to_the_counts_witness :
  let st := (run json_skipping (initial (E := reliable) tt one_done)).2 in
  loads json_skipping st tt /\
  FileHandler.audio_files_in (file_handler json_skipping) (fs st) <> [] /\
  stats st = mkStats 2 2 0 1 /\
  (success (stats (run json_skipping st).2) + failed (stats (run json_skipping st).2)
   = 2 + 0 + total (stats (run json_skipping st).2))%nat.
Proof.
  intros st.
  assert (Hsome : FileHandler.audio_files_in (file_handler json_skipping) (fs st) <> [])
    by (vm_compute; discriminate).
  assert (Hstats : stats st = mkStats 2 2 0 1) by (vm_compute; reflexivity).
  assert (Hfound : discovers json_skipping st tt
                     (FileHandler.find_audio_files (file_handler json_skipping)
                        (loaded json_skipping st tt)).2)
    by (eexists; vm_compute; reflexivity).
  split; [reflexivity|]. split; [exact Hsome|]. split; [exact Hstats|].
  pose proof (proj2 (run_adds_to_the_counts (E := reliable) json_skipping st tt _
                       eq_refl Hfound)
                Hsome) as (_ & _ & _ & _ & Hsum).
  rewrite Hstats in Hsum. exact Hsum.
Defined.

Lemma without_formats_every_file_is_skipped_witness :
  let st := initial (E := reliable) tt three_files in
  skip_existing (config no_formats) = true /\
  output_formats (config no_formats) = [] /\
  stats (run no_formats st).2 = mkStats 3 3 0 3.
Proof.
  intros st.
  assert (Hsome : FileHandler.audio_files_in (file_handler no_formats) (fs st) <> [])
    by (vm_compute; discriminate).
  assert (Hfound : discovers no_formats st tt
                     (FileHandler.find_audio_files (file_handler no_formats)
                        (loaded no_formats st tt)).2)
    by (eexists; vm_compute; reflexivity).
  split; [reflexivity|]. split; [reflexivity|].
  destruct (without_formats_every_file_is_skipped (E := reliable) no_formats st tt _
              eq_refl eq_refl eq_refl Hfound Hsome) as (_ & Hstats & _).
  rewrite Hstats. vm_compute. reflexivity.
Defined.

End RunFacts.
